(** * got: pack-file object store (lib/pack.c) and history browser (tog/tog.c)

    A shallow embedding of the functions of [lib/pack.c] and [tog/tog.c]
    that the properties below talk about, followed by the properties.

    Conventions.
    - C integers are [Z]; every narrowing or overflowing operation has its
      wrap-around written out ([wrap_u64], [wrap_i64], ...), and so has a
      shift of an [int] ([shl_int]).
    - A [FILE *] is a byte list and a position.
    - A function returning [const struct got_error *] returns [result]:
      [Ok v] for [NULL] with the out-parameters [v], [Err code] otherwise,
      and [Undefined] where the C program reads an array outside its bounds.
    - A loop or recursion whose bound is not structural takes a [fuel]
      argument and returns [None] when the fuel runs out. *)

From Stdlib Require Import ZArith List Bool Lia String Ascii.
Import ListNotations.
Open Scope Z_scope.

(** ** Errors *)

Inductive got_error_code : Type :=
| GOT_ERR_ERRNO
| GOT_ERR_NO_MEM
| GOT_ERR_NO_SPACE
| GOT_ERR_BAD_PATH
| GOT_ERR_NOT_IMPL
| GOT_ERR_NO_OBJ
| GOT_ERR_IO
| GOT_ERR_FILE_OPEN
| GOT_ERR_OBJ_NOT_PACKED
| GOT_ERR_BAD_PACKIDX
| GOT_ERR_PACKIDX_CSUM
| GOT_ERR_BAD_PACKFILE
| GOT_ERR_RANGE
| GOT_ERR_ITER_COMPLETED
| GOT_ERR_CANCELLED.

Inductive result (A : Type) : Type :=
| Ok (a : A)
| Err (e : got_error_code)
| Undefined.
Arguments Ok {A} a.
Arguments Err {A} e.
Arguments Undefined {A}.

(** ** Machine integers *)

Definition wrap_u8 (z : Z) : Z := z mod 2 ^ 8.
Definition wrap_u32 (z : Z) : Z := z mod 2 ^ 32.
Definition wrap_u64 (z : Z) : Z := z mod 2 ^ 64.
Definition wrap_i32 (z : Z) : Z := (z + 2 ^ 31) mod 2 ^ 32 - 2 ^ 31.
Definition wrap_i64 (z : Z) : Z := (z + 2 ^ 63) mod 2 ^ 64 - 2 ^ 63.

Definition INT_MAX : Z := 2 ^ 31 - 1.
Definition INT64_MIN : Z := - 2 ^ 63.
Definition INT64_MAX : Z := 2 ^ 63 - 1.

(** ** Streams *)

Record FILE : Type := mkFILE {
  f_data : list Z;   (* the bytes of the file *)
  f_pos : Z          (* the stream position *)
}.

(** [fread(&b, 1, 1, f)]: one byte, or nothing at end of file. *)
Definition fgetc (f : FILE) : option (Z * FILE) :=
  if f_pos f <? 0 then None
  else match nth_error (f_data f) (Z.to_nat (f_pos f)) with
       | Some b => Some (wrap_u8 b, mkFILE (f_data f) (f_pos f + 1))
       | None => None
       end.

(** [fread(buf, len, 1, f)]: one item of [len] bytes; the item is read only
    when all of its bytes are there. *)
Definition fread_item (len : Z) (f : FILE) : option (list Z * FILE) :=
  if (f_pos f <? 0) || (len <? 0) then None
  else
    let rest := skipn (Z.to_nat (f_pos f)) (f_data f) in
    if len <=? Z.of_nat (List.length rest)
    then Some (firstn (Z.to_nat len) rest, mkFILE (f_data f) (f_pos f + len))
    else None.

(** [fseeko(f, off, SEEK_SET)]: fails (EINVAL) on a negative offset; a
    position past the end is allowed, the next read finds end of file. *)
Definition fseeko (f : FILE) (off : Z) : option FILE :=
  if off <? 0 then None else Some (mkFILE (f_data f) off).

(** Modelled from the spec: [got_ferror] (lib/error.c is not under src/).
    It turns a failed read into the stream's errno error when the stream's
    error flag is set and into the given code otherwise; the streams modelled
    here fail a read only at end of file, so the given code is returned. *)
Definition got_ferror (f : FILE) (code : got_error_code) : got_error_code :=
  code.

(** ** Constants of pack.h *)

(** Modelled from the spec: the masks and magic numbers of [pack.h] and the
    object type numbers of [got_object.h], which are not under src/ (spec
    sections 3, 4.2, 4.3 and 6). *)
Definition GOT_PACK_OBJ_SIZE0_TYPE_MASK : Z := 0x70.
Definition GOT_PACK_OBJ_SIZE0_TYPE_MASK_SHIFT : Z := 4.
Definition GOT_PACK_OBJ_SIZE0_VAL_MASK : Z := 0x0f.
Definition GOT_PACK_OBJ_SIZE_VAL_MASK : Z := 0x7f.
Definition GOT_PACK_OBJ_SIZE_MORE : Z := 0x80.
Definition GOT_PACK_OBJ_DELTA_OFF_VAL_MASK : Z := 0x7f.
Definition GOT_PACK_OBJ_DELTA_OFF_MORE : Z := 0x80.

Definition GOT_PACKIDX_V2_MAGIC : Z := 0xff744f63.
Definition GOT_PACKIDX_VERSION : Z := 2.
Definition GOT_PACKIDX_OFFSET_VAL_MASK : Z := 0x7fffffff.
Definition GOT_PACKIDX_OFFSET_VAL_IS_LARGE_IDX : Z := 0x80000000.
Definition GOT_PACKFILE_SIGNATURE : Z := 0x5041434b.
Definition GOT_PACKFILE_VERSION : Z := 2.

Definition GOT_OBJ_TYPE_COMMIT : Z := 1.
Definition GOT_OBJ_TYPE_TREE : Z := 2.
Definition GOT_OBJ_TYPE_BLOB : Z := 3.
Definition GOT_OBJ_TYPE_TAG : Z := 4.
Definition GOT_OBJ_TYPE_OFFSET_DELTA : Z := 6.
Definition GOT_OBJ_TYPE_REF_DELTA : Z := 7.

Definition SHA1_DIGEST_LENGTH : Z := 20.

(** ** Object record header *)

(** [v << shift] for an [int] [v]: the shift is made in 32 bits, whatever
    the type of [shift].  The result wraps around to an [int], and a count
    of 32 or more is taken modulo 32, as the shift instruction of the
    processor takes it (C leaves both cases undefined). *)
Definition shl_int (v shift : Z) : Z :=
  wrap_i32 (Z.shiftl v (shift mod 32)).

(** The [do ... while] loop of [parse_object_type_and_size].  [i] counts the
    bytes read so far, [t] and [s] are the type and the size accumulated.
    In [s |= ((sizeN & GOT_PACK_OBJ_SIZE_VAL_MASK) << shift)] the operand
    [sizeN & GOT_PACK_OBJ_SIZE_VAL_MASK] is an [int]: the shift is made in
    32 bits, and its result is converted to [uint64_t], with its sign, for
    the [|=]. *)
Fixpoint parse_object_type_and_size_loop (fuel : nat) (i t s : Z) (packfile : FILE)
  : option (result (Z * Z * Z * FILE)) :=
  match fuel with
  | O => None
  | S fuel' =>
      (* We do not support size values which don't fit in 64 bit. *)
      if i >? 9 then Some (Err GOT_ERR_NO_SPACE)
      else match fgetc packfile with
           | None => Some (Err (got_ferror packfile GOT_ERR_BAD_PACKIDX))
           | Some (sizeN, packfile') =>
               let '(t', s') :=
                 if i =? 0
                 then (Z.shiftr (Z.land sizeN GOT_PACK_OBJ_SIZE0_TYPE_MASK)
                         GOT_PACK_OBJ_SIZE0_TYPE_MASK_SHIFT,
                       Z.land sizeN GOT_PACK_OBJ_SIZE0_VAL_MASK)
                 else
                   let shift := 4 + 7 * (i - 1) in
                   (t, Z.lor s (wrap_u64 (shl_int
                                  (Z.land sizeN GOT_PACK_OBJ_SIZE_VAL_MASK) shift))) in
               let i' := i + 1 in
               if Z.land sizeN GOT_PACK_OBJ_SIZE_MORE =? 0
               then Some (Ok (t', s', i' * 1, packfile'))
               else parse_object_type_and_size_loop fuel' i' t' s' packfile'
           end
  end.

(** [parse_object_type_and_size(&type, &size, &len, packfile)]: the result is
    [(type, size, len)] and the stream after the header.  The loop body runs
    at most eleven times. *)
Definition parse_object_type_and_size (packfile : FILE)
  : option (result (Z * Z * Z * FILE)) :=
  parse_object_type_and_size_loop 11 0 0 0 packfile.

(** ** Offset-delta base *)

(** The [do ... while] loop of [parse_negative_offset]; [o] is an [int64_t]. *)
Fixpoint parse_negative_offset_loop (fuel : nat) (i o : Z) (packfile : FILE)
  : option (result (Z * Z * FILE)) :=
  match fuel with
  | O => None
  | S fuel' =>
      (* We do not support offset values which don't fit in 64 bit. *)
      if i >? 8 then Some (Err GOT_ERR_NO_SPACE)
      else match fgetc packfile with
           | None => Some (Err (got_ferror packfile GOT_ERR_BAD_PACKIDX))
           | Some (offN, packfile') =>
               let o' :=
                 if i =? 0
                 then Z.land offN GOT_PACK_OBJ_DELTA_OFF_VAL_MASK
                 else
                   let o1 := wrap_i64 (o + 1) in
                   let o2 := wrap_i64 (Z.shiftl o1 7) in
                   wrap_i64 (o2 + Z.land offN GOT_PACK_OBJ_DELTA_OFF_VAL_MASK) in
               let i' := i + 1 in
               if Z.land offN GOT_PACK_OBJ_DELTA_OFF_MORE =? 0
               then Some (Ok (o', i' * 1, packfile'))
               else parse_negative_offset_loop fuel' i' o' packfile'
           end
  end.

Definition parse_negative_offset (packfile : FILE)
  : option (result (Z * Z * FILE)) :=
  parse_negative_offset_loop 10 0 0 packfile.

(** [parse_offset_delta(&base_offset, packfile, offset)]; [off_t] is a signed
    64-bit integer. *)
Definition parse_offset_delta (packfile : FILE) (offset : Z)
  : option (result (Z * FILE)) :=
  match parse_negative_offset packfile with
  | None => None
  | Some Undefined => Some Undefined
  | Some (Err e) => Some (Err e)
  | Some (Ok (negoffset, negofflen, packfile')) =>
      (* Compute the base object's offset (must be in the same pack file). *)
      let base_offset := wrap_i64 (offset - negoffset) in
      if base_offset <=? 0 then Some (Err GOT_ERR_BAD_PACKFILE)
      else Some (Ok (base_offset, packfile'))
  end.

(** ** Pack index *)

Record got_object_id : Type := mk_id { sha1 : list Z }.

Record got_packidx_trailer : Type := mk_trailer {
  packfile_sha1 : list Z;
  packidx_sha1 : list Z
}.

(** A [uint32_t] or [uint64_t] field of the index holds the bytes of the file
    as they were read (big-endian); [betoh32] and [betoh64] give its value. *)
Record got_packidx_v2_hdr : Type := mk_packidx {
  magic : list Z;
  version : list Z;
  fanout_table : list (list Z);            (* 256 entries *)
  sorted_ids : list got_object_id;
  crc32 : list (list Z);
  offsets : list (list Z);
  large_offsets : option (list (list Z));  (* NULL unless the pack is > 2GB *)
  trailer : got_packidx_trailer
}.

Definition betoh (w : list Z) : Z :=
  fold_left (fun acc b => acc * 256 + b) w 0.
Definition betoh32 (w : list Z) : Z := wrap_u32 (betoh w).
Definition betoh64 (w : list Z) : Z := wrap_u64 (betoh w).

(** [a[i]] on an array of stored words. *)
Definition word_at (a : list (list Z)) (i : Z) : list Z :=
  nth (Z.to_nat i) a [].

(** The [for] loop of [verify_fanout_table], [n] iterations from [i]. *)
Fixpoint verify_fanout_table_loop (n : nat) (i : Z) (fanout_table : list (list Z))
  : result unit :=
  match n with
  | O => Ok tt
  | S n' =>
      if betoh32 (word_at fanout_table i) >? betoh32 (word_at fanout_table (i + 1))
      then Err GOT_ERR_BAD_PACKIDX
      else verify_fanout_table_loop n' (i + 1) fanout_table
  end.

(** [for (i = 0; i < 0xff - 1; i++)] *)
Definition verify_fanout_table (fanout_table : list (list Z)) : result unit :=
  verify_fanout_table_loop (Z.to_nat (0xff - 1)) 0 fanout_table.

(** [memcmp(a, b, n)]: the difference of the first bytes that differ. *)
Fixpoint memcmp (a b : list Z) (n : nat) {struct n} : Z :=
  match n with
  | O => 0
  | S n' =>
      match a, b with
      | x :: a', y :: b' => if x =? y then memcmp a' b' n' else x - y
      | _, _ => 0
      end
  end.

(** Modelled from the spec: [got_object_id_cmp] (lib/object.c is not under
    src/).  Object ids are ordered lexically (spec section 3): the result is
    negative, zero or positive as [id1] is below, equal to or above [id2]. *)
Definition got_object_id_cmp (id1 id2 : got_object_id) : Z :=
  memcmp (sha1 id1) (sha1 id2) (Z.to_nat SHA1_DIGEST_LENGTH).

(** [get_object_offset(packidx, idx)]: the offset, or -1. *)
Definition get_object_offset (packidx : got_packidx_v2_hdr) (idx : Z) : result Z :=
  let totobj := betoh32 (word_at (fanout_table packidx) 0xff) in
  if (idx <? 0) || (Z.of_nat (List.length (offsets packidx)) <=? idx)
  then Undefined
  else
    let offset := betoh32 (word_at (offsets packidx) idx) in
    if negb (Z.land offset GOT_PACKIDX_OFFSET_VAL_IS_LARGE_IDX =? 0) then
      let idx := Z.land offset GOT_PACKIDX_OFFSET_VAL_MASK in
      match large_offsets packidx with
      | None => Ok (-1)
      | Some large =>
          if (idx <? 0) || (idx >? totobj) then Ok (-1)
          else if Z.of_nat (List.length large) <=? idx then Undefined
          else
            let loffset := betoh64 (word_at large idx) in
            Ok (if loffset >? INT64_MAX then -1 else loffset)
      end
    else Ok (Z.land offset GOT_PACKIDX_OFFSET_VAL_MASK).

(** The [while] loop of [get_object_idx].  [i] is an [int] and [totobj] a
    [uint32_t]: the comparison [i < totobj] is made in [unsigned int]. *)
Fixpoint get_object_idx_loop (fuel : nat) (packidx : got_packidx_v2_hdr)
    (id : got_object_id) (totobj i : Z) : option (result Z) :=
  match fuel with
  | O => None
  | S fuel' =>
      if wrap_u32 i <? totobj then
        if i <? 0 then Some Undefined
        else match nth_error (sorted_ids packidx) (Z.to_nat i) with
             | None => Some Undefined
             | Some oid =>
                 let cmp := got_object_id_cmp id oid in
                 if cmp =? 0 then Some (Ok i)
                 else if cmp >? 0 then Some (Ok (-1))
                 else get_object_idx_loop fuel' packidx id totobj (wrap_i32 (i + 1))
             end
      else Some (Ok (-1))
  end.

(** [get_object_idx(packidx, id)]: the index of [id] in [sorted_ids], or -1.
    The loop body runs at most [totobj] times. *)
Definition get_object_idx (packidx : got_packidx_v2_hdr) (id : got_object_id)
  : option (result Z) :=
  let id0 := wrap_u8 (nth 0 (sha1 id) 0) in
  let totobj := betoh32 (word_at (fanout_table packidx) 0xff) in
  let i := 0 in
  let i := if id0 >? 0
           then wrap_i32 (betoh32 (word_at (fanout_table packidx) (id0 - 1)))
           else i in
  get_object_idx_loop (S (Z.to_nat totobj)) packidx id totobj i.

(** ** Files and directories *)

Record filesystem : Type := mk_fs {
  fs_file : string -> option (list Z);        (* the bytes of a regular file *)
  fs_dir : string -> option (list string);    (* the names in a directory *)
  fs_tmp : bool                               (* a temporary file can be made *)
}.

Definition fopen (fs : filesystem) (path : string) : option FILE :=
  match fs_file fs path with
  | Some data => Some (mkFILE data 0)
  | None => None
  end.

(** [stat(path, &sb)], giving [sb.st_size]. *)
Definition stat_size (fs : filesystem) (path : string) : option Z :=
  match fs_file fs path with
  | Some data => Some (Z.of_nat (List.length data))
  | None => None
  end.

Definition PATH_MAX : Z := 1024.

(** The part of [s] before its last ['.'], as [strrchr] and [*dot = 0] leave
    it; [None] when [s] has no ['.']. *)
Fixpoint cut_at_last_dot (s : string) : option string :=
  match s with
  | EmptyString => None
  | String c s' =>
      match cut_at_last_dot s' with
      | Some r => Some (String c r)
      | None => if Ascii.eqb c "."%char then Some EmptyString else None
      end
  end.

(** [strlcpy(dst, src, PATH_MAX)] copies at most [PATH_MAX - 1] characters. *)
Definition strlcpy_PATH_MAX (src : string) : string :=
  String.substring 0 (Z.to_nat (PATH_MAX - 1)) src.

Definition get_packfile_size (fs : filesystem) (path_idx : string) : result Z :=
  if Z.of_nat (String.length path_idx) >? PATH_MAX then Err GOT_ERR_NO_SPACE
  else
    let base_path := strlcpy_PATH_MAX path_idx in
    match cut_at_last_dot base_path with
    | None => Err GOT_ERR_BAD_PATH
    | Some base_path =>
        let path_pack := (base_path ++ ".pack")%string in
        match stat_size fs path_pack with
        | None => Err GOT_ERR_ERRNO
        | Some size => Ok size
        end
    end.

(** [n] consecutive groups of [k] elements. *)
Fixpoint chunks {A : Type} (k n : nat) (l : list A) : list (list A) :=
  match n with
  | O => []
  | S n' => firstn k l :: chunks k n' (skipn k l)
  end.

(** [fread(ptr, size, nitems, f) == nitems]: all the items or a short read. *)
Definition fread_items (size nitems : Z) (f : FILE)
  : option (list (list Z) * FILE) :=
  match fread_item (size * nitems) f with
  | Some (bytes, f') => Some (chunks (Z.to_nat size) (Z.to_nat nitems) bytes, f')
  | None => None
  end.

Definition GOT_PACK_PREFIX : string := "pack-".
Definition GOT_PACKFILE_SUFFIX : string := ".pack".
Definition GOT_PACKIDX_SUFFIX : string := ".idx".
Definition SHA1_DIGEST_STRING_LENGTH : Z := 41.
Definition GOT_PACKIDX_NAMELEN : Z :=
  Z.of_nat (String.length GOT_PACK_PREFIX) + SHA1_DIGEST_STRING_LENGTH - 1
  + Z.of_nat (String.length GOT_PACKIDX_SUFFIX).

Definition is_packidx_filename (name : string) (len : Z) : bool :=
  if negb (len =? GOT_PACKIDX_NAMELEN) then false
  else if negb (String.prefix GOT_PACK_PREFIX name) then false
  else if negb (String.eqb
                  (String.substring
                     (String.length GOT_PACK_PREFIX
                      + Z.to_nat (SHA1_DIGEST_STRING_LENGTH - 1))
                     (String.length name) name)
                  GOT_PACKIDX_SUFFIX) then false
  else true.

Definition hex_digit (n : Z) : ascii :=
  nth (Z.to_nat n)
    ["0"; "1"; "2"; "3"; "4"; "5"; "6"; "7";
     "8"; "9"; "a"; "b"; "c"; "d"; "e"; "f"]%char "0"%char.

(** Modelled from the spec: [got_sha1_digest_to_str] (lib/sha1.c is not under
    src/): an id is rendered as 40 hex characters (spec section 3). *)
Fixpoint got_sha1_digest_to_str (digest : list Z) : string :=
  match digest with
  | [] => EmptyString
  | b :: rest =>
      String (hex_digit (wrap_u8 b / 16))
        (String (hex_digit (wrap_u8 b mod 16)) (got_sha1_digest_to_str rest))
  end.

Record got_repository : Type := mk_repo {
  (* what got_repo_get_path_objects_pack() returns *)
  path_objects_pack : string
}.

Definition get_packfile_path (repo : got_repository)
    (packidx : got_packidx_v2_hdr) : result string :=
  let path_packdir := path_objects_pack repo in
  let sha1str := got_sha1_digest_to_str (packfile_sha1 (trailer packidx)) in
  Ok (path_packdir ++ "/" ++ GOT_PACK_PREFIX ++ sha1str ++ GOT_PACKFILE_SUFFIX)%string.

(** [read_packfile_hdr(f, packidx)]: signature, version and object count. *)
Definition read_packfile_hdr (f : FILE) (packidx : got_packidx_v2_hdr)
  : result FILE :=
  let totobj := betoh32 (word_at (fanout_table packidx) 0xff) in
  match fread_items 4 3 f with
  | None => Err (got_ferror f GOT_ERR_BAD_PACKIDX)
  | Some (hdr, f') =>
      if negb (betoh32 (word_at hdr 0) =? GOT_PACKFILE_SIGNATURE)
         || negb (betoh32 (word_at hdr 1) =? GOT_PACKFILE_VERSION)
         || negb (betoh32 (word_at hdr 2) =? totobj)
      then Err GOT_ERR_BAD_PACKFILE
      else Ok f'
  end.

Section PackIndex.

(** The SHA-1 of a byte string: the digest [SHA1Final] gives after the bytes
    were fed to [SHA1Update] in order. *)
Variable SHA1 : list Z -> list Z.

(** [got_packidx_open(&packidx, path)].  Memory allocation is taken to
    succeed.  [ctx] is the byte string fed to [SHA1Update] so far. *)
Definition got_packidx_open (fs : filesystem) (path : string)
  : result got_packidx_v2_hdr :=
  let ctx : list Z := [] in
  match fopen fs path with
  | None => Err GOT_ERR_BAD_PATH
  | Some f =>
  match get_packfile_size fs path with
  | Undefined => Undefined
  | Err e => Err e
  | Ok packfile_size =>
  match fread_item 4 f with
  | None => Err (got_ferror f GOT_ERR_BAD_PACKIDX)
  | Some (p_magic, f) =>
  if negb (betoh32 p_magic =? GOT_PACKIDX_V2_MAGIC) then Err GOT_ERR_BAD_PACKIDX
  else
  let ctx := ctx ++ p_magic in
  match fread_item 4 f with
  | None => Err (got_ferror f GOT_ERR_BAD_PACKIDX)
  | Some (p_version, f) =>
  if negb (betoh32 p_version =? GOT_PACKIDX_VERSION) then Err GOT_ERR_BAD_PACKIDX
  else
  let ctx := ctx ++ p_version in
  match fread_items 4 0x100 f with
  | None => Err (got_ferror f GOT_ERR_BAD_PACKIDX)
  | Some (p_fanout_table, f) =>
  match verify_fanout_table p_fanout_table with
  | Undefined => Undefined
  | Err e => Err e
  | Ok _ =>
  let ctx := ctx ++ List.concat p_fanout_table in
  let nobj := betoh32 (word_at p_fanout_table 0xff) in
  match fread_items 20 nobj f with
  | None => Err (got_ferror f GOT_ERR_BAD_PACKIDX)
  | Some (ids, f) =>
  let p_sorted_ids := map mk_id ids in
  let ctx := ctx ++ List.concat ids in
  match fread_items 4 nobj f with
  | None => Err (got_ferror f GOT_ERR_BAD_PACKIDX)
  | Some (p_crc32, f) =>
  let ctx := ctx ++ List.concat p_crc32 in
  match fread_items 4 nobj f with
  | None => Err (got_ferror f GOT_ERR_BAD_PACKIDX)
  | Some (p_offsets, f) =>
  let ctx := ctx ++ List.concat p_offsets in
  let checksum (p_large_offsets : option (list (list Z))) (ctx : list Z) (f : FILE) :=
    match fread_items 20 2 f with
    | None => Err (got_ferror f GOT_ERR_BAD_PACKIDX)
    | Some (tr, f) =>
        let p_trailer := mk_trailer (word_at tr 0) (word_at tr 1) in
        let ctx := ctx ++ packfile_sha1 p_trailer in
        let sha1 := SHA1 ctx in
        if negb (memcmp (packidx_sha1 p_trailer) sha1
                   (Z.to_nat SHA1_DIGEST_LENGTH) =? 0)
        then Err GOT_ERR_PACKIDX_CSUM
        else Ok (mk_packidx p_magic p_version p_fanout_table p_sorted_ids
                   p_crc32 p_offsets p_large_offsets p_trailer)
    end in
  (* Large file offsets are contained only in files > 2GB. *)
  if packfile_size <=? 0x80000000 then checksum None ctx f
  else
  match fread_items 8 nobj f with
  | None => Err (got_ferror f GOT_ERR_BAD_PACKIDX)
  | Some (p_large_offsets, f) =>
  let ctx := ctx ++ List.concat p_large_offsets in
  checksum (Some p_large_offsets) ctx f
  end end end end end end end end end end.

(** The [readdir] loop of [search_packidx] over the names of the pack
    directory. *)
Fixpoint search_packidx_loop (fs : filesystem) (path_packdir : string)
    (dents : list string) (id : got_object_id)
  : option (result (got_packidx_v2_hdr * Z)) :=
  match dents with
  | [] => Some (Err GOT_ERR_NO_OBJ)
  | d_name :: dents' =>
      if negb (is_packidx_filename d_name (Z.of_nat (String.length d_name)))
      then search_packidx_loop fs path_packdir dents' id
      else
        let path_packidx := (path_packdir ++ "/" ++ d_name)%string in
        match got_packidx_open fs path_packidx with
        | Undefined => Some Undefined
        | Err e => Some (Err e)
        | Ok packidx =>
            match get_object_idx packidx id with
            | None => None
            | Some Undefined => Some Undefined
            | Some (Err e) => Some (Err e)
            | Some (Ok idx) =>
                if negb (idx =? -1) then Some (Ok (packidx, idx)) (* found the object *)
                else search_packidx_loop fs path_packdir dents' id
            end
        end
  end.

(** [search_packidx(&packidx, &idx, repo, id)]. *)
Definition search_packidx (fs : filesystem) (repo : got_repository)
    (id : got_object_id) : option (result (got_packidx_v2_hdr * Z)) :=
  let path_packdir := path_objects_pack repo in
  match fs_dir fs path_packdir with
  | None => Some (Err GOT_ERR_ERRNO)
  | Some dents => search_packidx_loop fs path_packdir dents id
  end.

(** ** Delta chains *)

Record got_delta : Type := mk_delta {
  delta_path_packfile : string;
  delta_type : Z;
  delta_offset : Z;
  delta_size : Z
}.

Record got_delta_chain : Type := mk_chain {
  nentries : Z;
  entries : list got_delta     (* head first *)
}.

(** Modelled from the spec: [got_delta_open] (lib/delta.c is not under src/)
    makes the chain entry [{pack_path, type, offset, size}] (spec section 3,
    DeltaChain). *)
Definition got_delta_open (path_packfile : string) (delta_type : Z)
    (delta_offset delta_size : Z) : got_delta :=
  mk_delta path_packfile delta_type delta_offset delta_size.

(** What [resolve_offset_delta] and [resolve_ref_delta] call when they have
    found the base: [resolve_delta_chain], with these arguments. *)
Definition resolver (R : Type) : Type :=
  got_delta_chain -> got_repository -> FILE -> string -> Z -> Z -> Z ->
  option (result R).

(** [resolve_offset_delta]; [resolve_delta_chain] is the recursive call. *)
Definition resolve_offset_delta {R : Type} (resolve_delta_chain : resolver R)
    (deltas : got_delta_chain) (repo : got_repository) (packfile : FILE)
    (path_packfile : string) (delta_offset : Z)
  : option (result R) :=
  match parse_offset_delta packfile delta_offset with
  | None => None
  | Some Undefined => Some Undefined
  | Some (Err e) => Some (Err e)
  | Some (Ok (base_offset, packfile)) =>
      (* An offset delta must be in the same packfile. *)
      match fseeko packfile base_offset with
      | None => Some (Err GOT_ERR_ERRNO)
      | Some packfile =>
          match parse_object_type_and_size packfile with
          | None => None
          | Some Undefined => Some Undefined
          | Some (Err e) => Some (Err e)
          | Some (Ok (base_type, base_size, base_tslen, packfile)) =>
              resolve_delta_chain deltas repo packfile path_packfile
                base_type (wrap_i64 (base_offset + base_tslen)) base_size
          end
      end
  end.

(** [resolve_ref_delta]; [resolve_delta_chain] is the recursive call. *)
Definition resolve_ref_delta {R : Type} (fs : filesystem)
    (resolve_delta_chain : resolver R)
    (deltas : got_delta_chain) (repo : got_repository) (packfile : FILE)
    (path_packfile : string) (delta_offset : Z)
  : option (result R) :=
  match fread_item 20 packfile with
  | None => Some (Err (got_ferror packfile GOT_ERR_IO))
  | Some (id_bytes, packfile) =>
      let id := mk_id id_bytes in
      match search_packidx fs repo id with
      | None => None
      | Some Undefined => Some Undefined
      | Some (Err e) => Some (Err e)
      | Some (Ok (packidx, idx)) =>
          match get_object_offset packidx idx with
          | Undefined => Some Undefined
          | Err e => Some (Err e)
          | Ok base_offset =>
              if base_offset =? -1 then Some (Err GOT_ERR_BAD_PACKIDX)
              else
                match get_packfile_path repo packidx with
                | Undefined => Some Undefined
                | Err e => Some (Err e)
                | Ok path_base_packfile =>
                    match fopen fs path_base_packfile with
                    | None => Some (Err GOT_ERR_ERRNO)
                    | Some base_packfile =>
                        match fseeko base_packfile base_offset with
                        | None => Some (Err GOT_ERR_ERRNO)
                        | Some base_packfile =>
                            match parse_object_type_and_size base_packfile with
                            | None => None
                            | Some Undefined => Some Undefined
                            | Some (Err e) => Some (Err e)
                            | Some (Ok (base_type, base_size, base_tslen,
                                        base_packfile)) =>
                                resolve_delta_chain deltas repo base_packfile
                                  path_base_packfile base_type
                                  (wrap_i64 (base_offset + base_tslen)) base_size
                            end
                        end
                    end
                end
          end
      end
  end.

Definition is_plain_type (t : Z) : bool :=
  (t =? GOT_OBJ_TYPE_COMMIT) || (t =? GOT_OBJ_TYPE_TREE)
  || (t =? GOT_OBJ_TYPE_BLOB) || (t =? GOT_OBJ_TYPE_TAG).

(** [resolve_delta_chain]: each level of the C recursion takes one unit of
    [fuel]; [None] when the fuel is used up before the recursion ends. *)
Fixpoint resolve_delta_chain (fuel : nat) (fs : filesystem)
    (deltas : got_delta_chain) (repo : got_repository) (packfile : FILE)
    (path_packfile : string) (delta_type delta_offset delta_size : Z)
  : option (result got_delta_chain) :=
  match fuel with
  | O => None
  | S fuel' =>
      let delta := got_delta_open path_packfile delta_type delta_offset
                     delta_size in
      let deltas := mk_chain (wrap_i32 (nentries deltas + 1))
                      (entries deltas ++ [delta]) in
      (* In case of error below, delta is freed in got_object_close(). *)
      if is_plain_type delta_type then
        (* Plain types are the final delta base. Recursion ends. *)
        Some (Ok deltas)
      else if delta_type =? GOT_OBJ_TYPE_OFFSET_DELTA then
        resolve_offset_delta (resolve_delta_chain fuel' fs)
          deltas repo packfile path_packfile delta_offset
      else if delta_type =? GOT_OBJ_TYPE_REF_DELTA then
        resolve_ref_delta fs (resolve_delta_chain fuel' fs)
          deltas repo packfile path_packfile delta_offset
      else Some (Err GOT_ERR_NOT_IMPL)
  end.

(** The arguments [resolve_offset_delta] and [resolve_ref_delta] give to the
    recursive call: the stream, its path, and the type, offset and size of
    the base. *)
Record base_call : Type := mk_base_call {
  bc_packfile : FILE;
  bc_path_packfile : string;
  bc_type : Z;
  bc_offset : Z;
  bc_size : Z
}.

(** One link of a chain: the call that the resolution of the delta of type
    [delta_type] at [delta_offset] ends with, or the error it fails with
    before. *)
Definition delta_base (fs : filesystem) (repo : got_repository)
    (packfile : FILE) (path_packfile : string) (delta_type delta_offset : Z)
  : option (result base_call) :=
  let call : resolver base_call :=
    fun _ _ f path t off size => Some (Ok (mk_base_call f path t off size)) in
  if delta_type =? GOT_OBJ_TYPE_OFFSET_DELTA then
    resolve_offset_delta call (mk_chain 0 []) repo packfile path_packfile
      delta_offset
  else
    resolve_ref_delta fs call (mk_chain 0 []) repo packfile path_packfile
      delta_offset.

Definition is_delta_type (t : Z) : bool :=
  (t =? GOT_OBJ_TYPE_OFFSET_DELTA) || (t =? GOT_OBJ_TYPE_REF_DELTA).

(** The chain of base references from a record is finite: the record is not
    a delta, or finding its base fails, or the chain from its base is
    finite. *)
Inductive chain_ends (fs : filesystem) (repo : got_repository)
  : FILE -> string -> Z -> Z -> Prop :=
| chain_ends_here packfile path t off :
    is_delta_type t = false ->
    chain_ends fs repo packfile path t off
| chain_ends_fail packfile path t off r :
    is_delta_type t = true ->
    delta_base fs repo packfile path t off = Some r ->
    (forall bc, r <> Ok bc) ->
    chain_ends fs repo packfile path t off
| chain_ends_next packfile path t off bc :
    is_delta_type t = true ->
    delta_base fs repo packfile path t off = Some (Ok bc) ->
    chain_ends fs repo (bc_packfile bc) (bc_path_packfile bc) (bc_type bc)
      (bc_offset bc) ->
    chain_ends fs repo packfile path t off.

End PackIndex.

(** ** Extraction *)

Definition GOT_OBJ_FLAG_PACKED : Z := 0x01.
Definition GOT_OBJ_FLAG_DELTIFIED : Z := 0x02.

Record got_object : Type := mk_object {
  obj_type : Z;
  obj_flags : Z;
  obj_hdrlen : Z;
  obj_size : Z;
  obj_id : got_object_id;
  obj_path_packfile : string;
  obj_pack_offset : Z;
  obj_deltas : got_delta_chain
}.

Definition open_plain_object (path_packfile : string) (id : got_object_id)
    (type : Z) (offset size : Z) : result got_object :=
  Ok (mk_object type GOT_OBJ_FLAG_PACKED 0 size id path_packfile offset
        (mk_chain 0 [])).

(** [got_opentemp()]: a new, empty stream, or [NULL]. *)
Definition got_opentemp (fs : filesystem) : option FILE :=
  if fs_tmp fs then Some (mkFILE [] 0) else None.

(** [fwrite(buf, len, 1, f)] on a temporary stream: the bytes go in at the
    stream position. *)
Definition fwrite_item (bytes : list Z) (f : FILE) : option FILE :=
  let pos := Z.to_nat (f_pos f) in
  Some (mkFILE (firstn pos (f_data f) ++ bytes
                ++ skipn (pos + List.length bytes) (f_data f))
          (f_pos f + Z.of_nat (List.length bytes))).

Definition rewind (f : FILE) : FILE := mkFILE (f_data f) 0.

Definition MIN (a b : Z) : Z := if a <? b then a else b.

(** The [while (size > 0)] loop of [dump_plain_object]; [size] is a
    [size_t].  The result is the two streams. *)
Fixpoint dump_plain_object_loop (fuel : nat) (infile : FILE) (size : Z)
    (outfile : FILE) : option (result (FILE * FILE)) :=
  match fuel with
  | O => None
  | S fuel' =>
      if size >? 0 then
        let len := MIN size 2048 in
        match fread_item len infile with
        | None => Some (Err (got_ferror infile GOT_ERR_BAD_PACKFILE))
        | Some (data, infile) =>
            match fwrite_item data outfile with
            | None => Some (Err (got_ferror outfile GOT_ERR_IO))
            | Some outfile =>
                dump_plain_object_loop fuel' infile (wrap_u64 (size - len)) outfile
            end
        end
      else Some (Ok (infile, rewind outfile))
  end.

(** [dump_plain_object(infile, type, size, outfile)].  Every turn of the loop
    takes at least one byte off [size]. *)
Definition dump_plain_object (infile : FILE) (type : Z) (size : Z)
    (outfile : FILE) : option (result (FILE * FILE)) :=
  dump_plain_object_loop (S (Z.to_nat size)) infile size outfile.

Section Extract.

(** [got_object_open] and [got_delta_apply] are not in lib/pack.c. *)
Variable got_object_open : got_repository -> got_object_id -> result got_object.
Variable got_delta_apply :
  got_repository -> FILE -> Z -> got_object -> FILE -> result (FILE * FILE).

Definition dump_ref_delta_object (repo : got_repository) (infile : FILE)
    (type : Z) (size : Z) (outfile : FILE) : result (FILE * FILE) :=
  if size <? SHA1_DIGEST_LENGTH then Err (got_ferror infile GOT_ERR_BAD_PACKFILE)
  else
    match fread_item SHA1_DIGEST_LENGTH infile with
    | None => Err (got_ferror infile GOT_ERR_BAD_PACKFILE)
    | Some (base_id, infile) =>
        let size := wrap_u64 (size - SHA1_DIGEST_LENGTH) in
        if size <=? 0 then Err (got_ferror infile GOT_ERR_BAD_PACKFILE)
        else
          match got_object_open repo (mk_id base_id) with
          | Undefined => Undefined
          | Err e => Err e
          | Ok base_obj => got_delta_apply repo infile size base_obj outfile
          end
    end.

(** [got_packfile_extract_object(&f, obj, repo)]: the stream [*f]. *)
Definition got_packfile_extract_object (fs : filesystem) (obj : got_object)
    (repo : got_repository) : option (result FILE) :=
  if Z.land (obj_flags obj) GOT_OBJ_FLAG_PACKED =? 0
  then Some (Err GOT_ERR_OBJ_NOT_PACKED)
  else
    match got_opentemp fs with
    | None => Some (Err GOT_ERR_FILE_OPEN)
    | Some f =>
        match fopen fs (obj_path_packfile obj) with
        | None => Some (Err GOT_ERR_ERRNO)
        | Some packfile =>
            match fseeko packfile (obj_pack_offset obj) with
            | None => Some (Err GOT_ERR_ERRNO)
            | Some packfile =>
                let t := obj_type obj in
                if (t =? GOT_OBJ_TYPE_COMMIT) || (t =? GOT_OBJ_TYPE_TREE)
                   || (t =? GOT_OBJ_TYPE_BLOB) then
                  match dump_plain_object packfile t (obj_size obj) f with
                  | None => None
                  | Some Undefined => Some Undefined
                  | Some (Err e) => Some (Err e)
                  | Some (Ok (_, f)) => Some (Ok f)
                  end
                else if t =? GOT_OBJ_TYPE_REF_DELTA then
                  match dump_ref_delta_object repo packfile t (obj_size obj) f with
                  | Undefined => Some Undefined
                  | Err e => Some (Err e)
                  | Ok (_, f) => Some (Ok f)
                  end
                else Some (Err GOT_ERR_NOT_IMPL)
            end
        end
    end.

End Extract.

(** * tog/tog.c *)

(** A [const struct got_error *]: [None] is [NULL]. *)
Definition got_error : Type := option got_error_code.

(** ** Signals *)

Record tog_signals : Type := mk_signals {
  tog_sigwinch_received : Z;
  tog_sigpipe_received : Z;
  tog_sigcont_received : Z;
  tog_sigint_received : Z;
  tog_sigterm_received : Z
}.

Definition no_signals : tog_signals := mk_signals 0 0 0 0 0.

Definition tog_sigwinch (s : tog_signals) : tog_signals :=
  mk_signals 1 (tog_sigpipe_received s) (tog_sigcont_received s)
    (tog_sigint_received s) (tog_sigterm_received s).
Definition tog_sigpipe (s : tog_signals) : tog_signals :=
  mk_signals (tog_sigwinch_received s) 1 (tog_sigcont_received s)
    (tog_sigint_received s) (tog_sigterm_received s).
Definition tog_sigcont (s : tog_signals) : tog_signals :=
  mk_signals (tog_sigwinch_received s) (tog_sigpipe_received s) 1
    (tog_sigint_received s) (tog_sigterm_received s).
Definition tog_sigint (s : tog_signals) : tog_signals :=
  mk_signals (tog_sigwinch_received s) (tog_sigpipe_received s)
    (tog_sigcont_received s) 1 (tog_sigterm_received s).
Definition tog_sigterm (s : tog_signals) : tog_signals :=
  mk_signals (tog_sigwinch_received s) (tog_sigpipe_received s)
    (tog_sigcont_received s) (tog_sigint_received s) 1.

(** C's [a || b]: 1 or 0. *)
Definition c_or (a b : Z) : Z := if negb (a =? 0) then 1 else if negb (b =? 0) then 1 else 0.

Definition tog_fatal_signal_received (s : tog_signals) : Z :=
  c_or (c_or (tog_sigpipe_received s) (tog_sigint_received s))
       (tog_sigint_received s).

(** ** Main loop *)

(** What the loop of [view_loop] tests: the list of views, [done] and the
    signal flags, which a handler may set at any time. *)
Record view_loop_state (view : Type) : Type := mk_loop_state {
  views : list view;
  done : Z;
  signals : tog_signals
}.
Arguments mk_loop_state {view}.
Arguments views {view}.
Arguments done {view}.
Arguments signals {view}.

(** [!TAILQ_EMPTY(&views) && !done && !tog_fatal_signal_received()] *)
Definition view_loop_guard {view : Type} (st : view_loop_state view) : bool :=
  negb (match views st with [] => true | _ => false end)
  && (done st =? 0)
  && (tog_fatal_signal_received (signals st) =? 0).

(** The [while] loop of [view_loop]; [body] is one turn of the loop (input,
    closing and opening of views), which fails or gives the next state.
    The result is [None] when the loop is still running after [fuel] turns. *)
Fixpoint view_loop {view : Type} (fuel : nat)
    (body : view_loop_state view -> result (view_loop_state view))
    (st : view_loop_state view) : option (result (view_loop_state view)) :=
  match fuel with
  | O => None
  | S fuel' =>
      if view_loop_guard st then
        match body st with
        | Undefined => Some Undefined
        | Err e => Some (Err e)
        | Ok st' => view_loop fuel' body st'
        end
      else Some (Ok st)
  end.

(** ** Numeric key prefix *)

Definition ERR : Z := -1.
Definition char_0 : Z := 48.   (* '0' *)
Definition char_1 : Z := 49.   (* '1' *)
Definition char_9 : Z := 57.   (* '9' *)

Record tog_view : Type := mk_view {
  ch : Z;       (* current keymap *)
  count : Z     (* count prefix *)
}.

(** [wgetch(view->window)]: the next key the user typed in time, or [ERR]. *)
Definition wgetch (keys : list Z) : Z * list Z :=
  match keys with
  | [] => (ERR, [])
  | k :: keys' => (k, keys')
  end.

(** The [do ... while] loop of [get_compound_key]: the loop body with the key
    [c], then the next key.  [n] is an [int]. *)
Fixpoint get_compound_key_loop (keys : list Z) (n c : Z) : Z * Z * list Z :=
  (* Don't overflow. Max valid request should be the greatest between the
     longest and total lines; cap at 10 million. *)
  let n := if n >=? 9999999 then 9999999
           else wrap_i32 (n * 10 + (c - char_0)) in
  match keys with
  | [] => (n, ERR, [])
  | k :: keys' =>
      if (k >=? char_0) && (k <=? char_9) && negb (k =? ERR)
      then get_compound_key_loop keys' n k
      else (n, k, keys')
  end.

(** [get_compound_key(view, c)]: the view with its count, the key returned
    and the keys not yet read. *)
Definition get_compound_key (view : tog_view) (c : Z) (keys : list Z)
  : tog_view * Z * list Z :=
  let n := 0 in
  let view := mk_view (ch view) 0 in
  let '(n, c, keys) := get_compound_key_loop keys n c in
  (* Massage excessive or inapplicable values at the input handler. *)
  (mk_view (ch view) n, c, keys).

(** The lines of [view_input] that read the key (tog.c:968-974), between
    the two calls of [nodelay]: the view as these lines leave it, the key
    [ch] with which [view_input] goes on, and the keys not yet read.  What
    [view_input] does before and after these lines is not part of this
    function: the reset of the count when a search found no more matches,
    the [switch] on [ch] (which sets the count to 0 for a tab, F and /) and
    the input handler of the view, which may change the count again. *)
Definition view_input_key (view : tog_view) (keys : list Z)
  : tog_view * Z * list Z :=
  (* If we have an unfinished count, don't get a new key map. *)
  let ch0 := ch view in
  let '(view, get_key) :=
    if negb (count view =? 0) then
      let view := mk_view (ch view) (wrap_i32 (count view - 1)) in
      (view, count view =? 0)
    else (view, true) in
  if get_key then
    let '(c, keys) := wgetch keys in
    if (c >=? char_1) && (c <=? char_9) then
      let '(view, c, keys) := get_compound_key view c keys in
      (mk_view c (count view), c, keys)
    else (view, c, keys)
  else (view, ch0, keys).

(** ** Blame *)

Record tog_blame_line : Type := mk_blame_line {
  annotated : Z;
  line_id : option got_object_id    (* NULL until annotated *)
}.

(** The memory the annotation thread and the UI thread share:
    [blame->lines], which [a->lines] points to, [a->nlines] and [s->done],
    which [a->quit] points to. *)
Record tog_blame_cb_args : Type := mk_cb_args {
  lines : list tog_blame_line;
  nlines : Z;
  quit : Z
}.

(** What the calls of one [blame_cb] run give: the error numbers of
    [pthread_mutex_lock] and [pthread_mutex_unlock] and whether
    [got_object_id_dup] could allocate. *)
Record cb_calls : Type := mk_cb_calls {
  lock_errcode : Z;
  unlock_errcode : Z;
  dup_ok : bool
}.

Fixpoint set_line (l : list tog_blame_line) (i : nat) (v : tog_blame_line)
  : list tog_blame_line :=
  match l, i with
  | [], _ => []
  | _ :: l', O => v :: l'
  | x :: l', S i' => x :: set_line l' i' v
  end.

(** [blame_cb(arg, nlines, lineno, commit, id)]: the error returned and the
    shared memory afterwards. *)
Definition blame_cb (calls : cb_calls) (a : tog_blame_cb_args)
    (nlines' lineno : Z) (id : got_object_id) : got_error * tog_blame_cb_args :=
  if negb (nlines' =? nlines a)
     || (negb (lineno =? -1) && (lineno <? 1))
     || (lineno >? nlines a)
  then (Some GOT_ERR_RANGE, a)
  else if negb (lock_errcode calls =? 0) then (Some GOT_ERR_ERRNO, a)
  else
    let '(err, a) :=
      if negb (quit a =? 0) then  (* user has quit the blame view *)
        (Some GOT_ERR_ITER_COMPLETED, a)
      else if lineno =? -1 then (None, a)  (* no change in this commit *)
      else
        match nth_error (lines a) (Z.to_nat (lineno - 1)) with
        | None => (None, a)
        | Some line =>
            if negb (annotated line =? 0) then (None, a)
            else if negb (dup_ok calls) then
              (Some GOT_ERR_ERRNO,
               mk_cb_args
                 (set_line (lines a) (Z.to_nat (lineno - 1))
                    (mk_blame_line (annotated line) None))
                 (nlines a) (quit a))
            else
              (None,
               mk_cb_args
                 (set_line (lines a) (Z.to_nat (lineno - 1))
                    (mk_blame_line 1 (Some id)))
                 (nlines a) (quit a))
        end in
    if negb (unlock_errcode calls =? 0) then (Some GOT_ERR_ERRNO, a)
    else (err, a).

(** What [blame_thread] returns for the error of [got_blame]. *)
Definition blame_thread_err (err : got_error) : got_error :=
  match err with
  | Some GOT_ERR_CANCELLED => None
  | _ => err
  end.

(** What [stop_blame] makes of the error the joined thread returned. *)
Definition stop_blame_err (err : got_error) : got_error :=
  match err with
  | Some GOT_ERR_ITER_COMPLETED => None
  | _ => err
  end.

(** The steps on the shared memory while an annotation thread runs, each
    made with [tog_mutex] held: the UI thread sets [s->done] (key [q], or
    before [stop_blame]), or the thread runs [blame_cb]. *)
Inductive blame_event : Type :=
| Ev_set_done
| Ev_blame_cb (calls : cb_calls) (nlines' lineno : Z) (id : got_object_id).

Definition blame_step (a : tog_blame_cb_args) (ev : blame_event)
  : got_error * tog_blame_cb_args :=
  match ev with
  | Ev_set_done => (None, mk_cb_args (lines a) (nlines a) 1)
  | Ev_blame_cb calls nlines' lineno id => blame_cb calls a nlines' lineno id
  end.

(** The shared memory after the events, and what each event returned. *)
Fixpoint blame_run (a : tog_blame_cb_args) (evs : list blame_event)
  : list got_error * tog_blame_cb_args :=
  match evs with
  | [] => ([], a)
  | ev :: evs' =>
      let '(err, a') := blame_step a ev in
      let '(errs, a'') := blame_run a' evs' in
      (err :: errs, a'')
  end.

(** ** Commit queue *)

Record got_commit_object : Type := mk_commit {
  commit_author : string;
  commit_committer : string;
  commit_logmsg : string
}.

Record commit_queue_entry : Type := mk_entry {
  entry_id : got_object_id;
  entry_commit : got_commit_object;
  idx : Z
}.

Record commit_queue : Type := mk_queue {
  ncommits : Z;
  head : list commit_queue_entry    (* TAILQ, first entry first *)
}.

(** [TAILQ_INIT(&s->commits.head); s->commits.ncommits = 0;] in
    [open_log_view]. *)
Definition commit_queue_init : commit_queue := mk_queue 0 [].

Definition alloc_commit_queue_entry (commit : got_commit_object)
    (id : got_object_id) : commit_queue_entry :=
  mk_entry id commit 0.

(** [pop_commit(commits)]; [None] when the queue is empty ([TAILQ_FIRST] is
    [NULL] and is dereferenced). *)
Definition pop_commit (commits : commit_queue) : option commit_queue :=
  match head commits with
  | [] => None
  | entry :: rest => Some (mk_queue (wrap_i32 (ncommits commits - 1)) rest)
  end.

(** The [while] loop of [free_commits]. *)
Fixpoint free_commits_loop (fuel : nat) (commits : commit_queue)
  : option commit_queue :=
  match fuel with
  | O => None
  | S fuel' =>
      match head commits with
      | [] => Some commits
      | _ :: _ =>
          match pop_commit commits with
          | None => None
          | Some commits' => free_commits_loop fuel' commits'
          end
      end
  end.

(** [free_commits(commits)]: every turn of the loop removes one entry. *)
Definition free_commits (commits : commit_queue) : option commit_queue :=
  free_commits_loop (S (List.length (head commits))) commits.

Definition TOG_SEARCH_FORWARD : Z := 1.
Definition TOG_SEARCH_BACKWARD : Z := 2.
Definition TOG_SEARCH_HAVE_MORE : Z := 1.
Definition TOG_SEARCH_NO_MORE : Z := 2.
Definition TOG_SEARCH_HAVE_NONE : Z := 3.

Record tog_log_thread_args : Type := mk_log_args {
  (* the commits got_commit_graph_iter_next() will give, in order *)
  graph : list (got_object_id * got_commit_object);
  commits : commit_queue;
  searching : Z;
  search_next_done : Z
}.

Section LogThread.

(** [regexec(regex, s, ...)] for the regular expression of the search. *)
Variable regexec : string -> Z.

(** [match_commit(&have_match, id, commit, regex)]; memory allocation is
    taken to succeed. *)
Definition match_commit (id : got_object_id) (commit : got_commit_object)
  : result Z :=
  let id_str := got_sha1_digest_to_str (sha1 id) in
  if (regexec (commit_author commit) =? 0)
     || (regexec (commit_committer commit) =? 0)
     || (regexec id_str =? 0)
     || (regexec (commit_logmsg commit) =? 0)
  then Ok 1 else Ok 0.

(** The [do ... while] loop of [queue_commits]; every turn takes one commit
    from the graph.  The calls other than [got_commit_graph_iter_next] and
    [match_commit] are taken to succeed. *)
Fixpoint queue_commits_loop
    (g : list (got_object_id * got_commit_object)) (q : commit_queue)
    (searching search_next_done : Z)
  : got_error * tog_log_thread_args :=
  match g with
  | [] => (Some GOT_ERR_ITER_COMPLETED, mk_log_args [] q searching search_next_done)
  | (id, commit) :: g' =>
      let entry := alloc_commit_queue_entry commit id in
      let entry := mk_entry (entry_id entry) (entry_commit entry) (ncommits q) in
      let q := mk_queue (wrap_i32 (ncommits q + 1)) (head q ++ [entry]) in
      let '(err, search_next_done) :=
        if (searching =? TOG_SEARCH_FORWARD) && (search_next_done =? 0) then
          match match_commit id commit with
          | Undefined => (None, search_next_done)
          | Err e => (Some e, search_next_done)
          | Ok have_match =>
              (None, if negb (have_match =? 0) then TOG_SEARCH_HAVE_MORE
                     else search_next_done)
          end
        else (None, search_next_done) in
      match err with
      | Some e => (Some e, mk_log_args g' q searching search_next_done)
      | None =>
          if (searching =? TOG_SEARCH_FORWARD) && (search_next_done =? 0)
          then queue_commits_loop g' q searching search_next_done
          else (None, mk_log_args g' q searching search_next_done)
      end
  end.

Definition queue_commits (a : tog_log_thread_args)
  : got_error * tog_log_thread_args :=
  queue_commits_loop (graph a) (commits a) (searching a) (search_next_done a).

(** What the program does to the commit queue of a log view: the loader
    thread calls [queue_commits], with the commits the graph has ready; the
    UI thread clears the queue with [free_commits] (and opens a new graph)
    when the view is reloaded. *)
Inductive queue_op : Type :=
| Op_queue_commits (g : list (got_object_id * got_commit_object))
    (searching search_next_done : Z)
| Op_free_commits.

Definition queue_step (q : commit_queue) (op : queue_op) : option commit_queue :=
  match op with
  | Op_queue_commits g searching search_next_done =>
      Some (commits (snd (queue_commits
                            (mk_log_args g q searching search_next_done))))
  | Op_free_commits => free_commits q
  end.

Fixpoint queue_run (q : commit_queue) (ops : list queue_op)
  : option commit_queue :=
  match ops with
  | [] => Some q
  | op :: ops' =>
      match queue_step q op with
      | None => None
      | Some q' => queue_run q' ops'
      end
  end.

End LogThread.

(** * lib/pack.c: opening a packed object *)

Section OpenObject.

Variable SHA1 : list Z -> list Z.

(** [got_delta_chain_get_base_type] is not in lib/pack.c. *)
Variable got_delta_chain_get_base_type : got_delta_chain -> result Z.

(** [open_offset_delta_object]: the object of an offset delta.  Memory
    allocation is taken to succeed; [fuel] is that of
    [resolve_delta_chain]. *)
Definition open_offset_delta_object (fuel : nat) (fs : filesystem)
    (repo : got_repository) (packidx : got_packidx_v2_hdr)
    (path_packfile : string) (packfile : FILE) (id : got_object_id)
    (offset tslen delta_size : Z) : option (result got_object) :=
  let flags := 0 in
  let hdrlen := 0 in
  let size := 0 in (* Not yet known because deltas aren't combined. *)
  let pack_offset := wrap_i64 (offset + tslen) in
  let flags := Z.lor flags GOT_OBJ_FLAG_PACKED in
  let deltas := mk_chain 0 [] in
  let flags := Z.lor flags GOT_OBJ_FLAG_DELTIFIED in
  match resolve_delta_chain SHA1 fuel fs deltas repo packfile path_packfile
          GOT_OBJ_TYPE_OFFSET_DELTA offset delta_size with
  | None => None
  | Some Undefined => Some Undefined
  | Some (Err e) => Some (Err e)
  | Some (Ok deltas) =>
      match got_delta_chain_get_base_type deltas with
      | Undefined => Some Undefined
      | Err e => Some (Err e)
      | Ok resolved_type =>
          Some (Ok (mk_object resolved_type flags hdrlen size id path_packfile
                      pack_offset deltas))
      end
  end.

(** [open_packed_object]: the object at index [idx] of [packidx].  The
    offset is compared with -1 as a [uint64_t]. *)
Definition open_packed_object (fuel : nat) (fs : filesystem)
    (repo : got_repository) (packidx : got_packidx_v2_hdr) (idx : Z)
    (id : got_object_id) : option (result got_object) :=
  match get_object_offset packidx idx with
  | Undefined => Some Undefined
  | Err e => Some (Err e)
  | Ok offset =>
  if wrap_u64 offset =? wrap_u64 (-1) then Some (Err GOT_ERR_BAD_PACKIDX)
  else
  match get_packfile_path repo packidx with
  | Undefined => Some Undefined
  | Err e => Some (Err e)
  | Ok path_packfile =>
  match fopen fs path_packfile with
  | None => Some (Err GOT_ERR_ERRNO)
  | Some packfile =>
  match read_packfile_hdr packfile packidx with
  | Undefined => Some Undefined
  | Err e => Some (Err e)
  | Ok packfile =>
  match fseeko packfile offset with
  | None => Some (Err GOT_ERR_ERRNO)
  | Some packfile =>
  match parse_object_type_and_size packfile with
  | None => None
  | Some Undefined => Some Undefined
  | Some (Err e) => Some (Err e)
  | Some (Ok (type, size, tslen, packfile)) =>
      if (type =? GOT_OBJ_TYPE_COMMIT) || (type =? GOT_OBJ_TYPE_TREE)
         || (type =? GOT_OBJ_TYPE_BLOB) then
        Some (open_plain_object path_packfile id type
                (wrap_i64 (offset + tslen)) size)
      else if type =? GOT_OBJ_TYPE_OFFSET_DELTA then
        open_offset_delta_object fuel fs repo packidx path_packfile packfile
          id offset tslen size
      else Some (Err GOT_ERR_NOT_IMPL)
  end end end end end end.

(** [got_packfile_open_object(&obj, id, repo)]. *)
Definition got_packfile_open_object (fuel : nat) (fs : filesystem)
    (id : got_object_id) (repo : got_repository)
  : option (result got_object) :=
  match search_packidx SHA1 fs repo id with
  | None => None
  | Some Undefined => Some Undefined
  | Some (Err e) => Some (Err e)
  | Some (Ok (packidx, idx)) => open_packed_object fuel fs repo packidx idx id
  end.

End OpenObject.

(** * tog/tog.c: the screen *)

Section Screen.

(** curses' [COLS] and [TABSIZE], and the C library's [wcwidth]. *)
Variable COLS : Z.
Variable TABSIZE : Z.
Variable wcwidth : Z -> Z.

(** [MAX] is that of [<sys/param.h>]. *)
Definition MAX (a b : Z) : Z := if a >? b then a else b.

(** [view_split_begin_x(begin_x)]: the column at which a child view
    starts; 0 is for a child that takes the whole screen. *)
Definition view_split_begin_x (begin_x : Z) : Z :=
  if (begin_x >? 0) || (COLS <? 120) then 0
  else wrap_i32 (COLS - MAX (Z.quot COLS 2) 80).

(** ** Tabs *)

Definition char_tab : ascii := "009"%char.
Definition char_space : ascii := " "%char.

Fixpoint spaces (nb : nat) : string :=
  match nb with
  | O => EmptyString
  | S nb' => String char_space (spaces nb')
  end.

(** The [while] loop of [expand_tab].  [src] is the rest of the source
    string from [src[idx]] on, [dst] the [sz] characters written so far,
    [cap] the size of the block that [dst] points to, and [n] and [sz] the
    variables of these names, of type [size_t].  Memory allocation is taken
    to succeed; a write outside of the block is [Undefined], and so is the
    division by a [TABSIZE] of 0. *)
Fixpoint expand_tab_loop (src dst : string) (cap n sz : Z) : result string :=
  match src with
  | EmptyString =>
      (* dst[sz] = '\0' *)
      if sz <? cap then Ok dst else Undefined
  | String c src' =>
      if Ascii.eqb c char_tab then
        if wrap_u64 TABSIZE =? 0 then Undefined
        else
          let nb := wrap_u64 (wrap_u64 TABSIZE - sz mod wrap_u64 TABSIZE) in
          (* p = realloc(dst, n + nb) *)
          let cap := wrap_u64 (n + nb) in
          let n := wrap_u64 (n + nb) in
          (* memset(dst + sz, ' ', nb) *)
          if sz + nb <=? cap then
            expand_tab_loop src' (dst ++ spaces (Z.to_nat nb)) cap n
              (wrap_u64 (sz + nb))
          else Undefined
      else
        (* dst[sz++] = src[idx] *)
        if sz <? cap then
          expand_tab_loop src' (dst ++ String c EmptyString) cap n
            (wrap_u64 (sz + 1))
        else Undefined
  end.

(** [expand_tab(&ptr, src)]: the string [*ptr].  [src] is a C string: it
    holds no NUL character. *)
Definition expand_tab (src : string) : result string :=
  let len := Z.of_nat (String.length src) in
  let n := len in
  (* dst = malloc(n + 1) *)
  expand_tab_loop src EmptyString (wrap_u64 (n + 1)) n 0.

(** ** Width of a line *)

Definition wchar_NUL : Z := 0.
Definition wchar_tab : Z := 9.
Definition wchar_newline : Z := 10.
Definition wchar_return : Z := 13.
Definition wchar_dot : Z := 46.

(** [wline[i] = v] on an array of wide characters. *)
Fixpoint set_wchar (wline : list Z) (i : nat) (v : Z) : list Z :=
  match wline, i with
  | [], _ => []
  | _ :: wline', O => v :: wline'
  | w :: wline', S i' => w :: set_wchar wline' i' v
  end.

(** The [for] loop of [span_wline].  [wline] is the array of wide
    characters, with its terminating NULs; a read outside of it is
    [Undefined], and so is the division by a [TABSIZE] of 0.  The result is
    [i], [cols] and the array. *)
Fixpoint span_wline_loop (fuel : nat) (wline : list Z) (i n col_tab_align cols : Z)
  : option (result (Z * Z * list Z)) :=
  match fuel with
  | O => None
  | S fuel' =>
      if i <? 0 then Some Undefined
      else
        match nth_error wline (Z.to_nat i) with
        | None => Some Undefined
        | Some w =>
            if w =? wchar_NUL then Some (Ok (i, cols, wline))
            else if (w =? wchar_tab) && (TABSIZE =? 0) then Some Undefined
            else
              let width :=
                if w =? wchar_tab
                then wrap_i32 (TABSIZE
                               - Z.rem (wrap_i32 (cols + col_tab_align)) TABSIZE)
                else wcwidth w in
              let '(width, wline) :=
                if width =? -1
                then (1, set_wchar wline (Z.to_nat i) wchar_dot)
                else (width, wline) in
              if wrap_i32 (cols + width) >? n then Some (Ok (i, cols, wline))
              else span_wline_loop fuel' wline (wrap_i32 (i + 1)) n
                     col_tab_align (wrap_i32 (cols + width))
        end
  end.

(** [span_wline(&rcol, off, wline, n, col_tab_align)]: the index returned,
    [*rcol] and the array.  Every turn of the loop moves to the next
    element of the array. *)
Definition span_wline (off : Z) (wline : list Z) (n col_tab_align : Z)
  : option (result (Z * Z * list Z)) :=
  let cols := 0 in
  if n =? 0 then Some (Ok (off, cols, wline))
  else span_wline_loop (S (List.length wline)) wline off n col_tab_align cols.

(** [if (wlen > 0 && wline[wlen - 1] == c) { wline[wlen - 1] = L'\0';
    wlen--; }]: the array and [wlen]. *)
Definition strip_last (c : Z) (wline : list Z) (wlen : Z)
  : result (list Z * Z) :=
  if wlen >? 0 then
    match nth_error wline (Z.to_nat (wlen - 1)) with
    | None => Undefined
    | Some w =>
        if w =? c
        then Ok (set_wchar wline (Z.to_nat (wlen - 1)) wchar_NUL,
                 wrap_u64 (wlen - 1))
        else Ok (wline, wlen)
    end
  else Ok (wline, wlen).

(** [mbs2ws(&ws, &wlen, s)] is modelled by its result: the array [ws] of
    [wlen + 1] wide characters that [calloc] and [mbstowcs] make. *)
Variable mbs2ws : string -> result (list Z * Z).

(** [format_line(&wline, &width, &scrollx, line, nscroll, wlimit,
    col_tab_align, expand)]: the array [*wlinep], [*widthp] and
    [*scrollxp]. *)
Definition format_line (line : string) (nscroll wlimit col_tab_align expand : Z)
  : option (result (list Z * Z * Z)) :=
  let exstr :=
    if negb (expand =? 0) then expand_tab line else Ok line in
  match exstr with
  | Undefined => Some Undefined
  | Err e => Some (Err e)
  | Ok exstr =>
  match mbs2ws exstr with
  | Undefined => Some Undefined
  | Err e => Some (Err e)
  | Ok (wline, wlen) =>
  match span_wline 0 wline nscroll col_tab_align with
  | None => None
  | Some Undefined => Some Undefined
  | Some (Err e) => Some (Err e)
  | Some (Ok (scrollx, cols, wline)) =>
  match strip_last wchar_newline wline wlen with
  | Undefined => Some Undefined
  | Err e => Some (Err e)
  | Ok (wline, wlen) =>
  match strip_last wchar_return wline wlen with
  | Undefined => Some Undefined
  | Err e => Some (Err e)
  | Ok (wline, wlen) =>
  match span_wline scrollx wline wlimit col_tab_align with
  | None => None
  | Some Undefined => Some Undefined
  | Some (Err e) => Some (Err e)
  | Some (Ok (i, cols, wline)) =>
      (* wline[i] = L'\0' *)
      if (i <? 0) || (Z.of_nat (List.length wline) <=? i)
      then Some Undefined
      else Some (Ok (set_wchar wline (Z.to_nat i) wchar_NUL, cols, scrollx))
  end end end end end end.

End Screen.

(** * tog/tog.c: scrolling *)

(** A pointer to an entry of a [TAILQ] of [len] entries is the position of
    the entry, from 0; [None] is [NULL]. *)
Definition TAILQ_FIRST (len : nat) : option nat :=
  match len with
  | O => None
  | S _ => Some O
  end.

Definition TAILQ_NEXT (len : nat) (e : nat) : option nat :=
  if (S e <? len)%nat then Some (S e) else None.

Definition TAILQ_PREV (e : nat) : option nat :=
  match e with
  | O => None
  | S e' => Some e'
  end.

Definition entry_eqb (a b : option nat) : bool :=
  match a, b with
  | None, None => true
  | Some x, Some y => (x =? y)%nat
  | _, _ => false
  end.

(** The [while] loop of [log_scroll_up]: [first] is
    [s->first_displayed_entry]. *)
Fixpoint log_scroll_up_loop (fuel : nat) (first entry : option nat)
    (nscrolled maxscroll : Z) : option (option nat) :=
  match fuel with
  | O => None
  | S fuel' =>
      match entry with
      | Some e =>
          if nscrolled <? maxscroll then
            let entry := TAILQ_PREV e in
            match entry with
            | Some _ =>
                log_scroll_up_loop fuel' entry entry (wrap_i32 (nscrolled + 1))
                  maxscroll
            | None => log_scroll_up_loop fuel' first entry nscrolled maxscroll
            end
          else Some first
      | None => Some first
      end
  end.

(** [log_scroll_up(s, maxscroll)] on a queue of [len] commits: the new
    [s->first_displayed_entry].  Every turn of the loop moves [entry]
    towards the head of the queue. *)
Definition log_scroll_up (len : nat) (first : option nat) (maxscroll : Z)
  : option (option nat) :=
  let entry := TAILQ_FIRST len in
  if entry_eqb first entry then Some first
  else
    let entry := first in
    log_scroll_up_loop
      (match first with Some f => S (S f) | None => 1%nat end)
      first entry 0 maxscroll.

(** The [while] loop of [ref_scroll_up]. *)
Fixpoint ref_scroll_up_loop (fuel : nat) (first re : option nat)
    (i maxscroll : Z) : option (option nat) :=
  match fuel with
  | O => None
  | S fuel' =>
      if i <? maxscroll then
        match re with
        | None => Some first
        | Some r =>
            ref_scroll_up_loop fuel' re (TAILQ_PREV r) (wrap_i32 (i + 1))
              maxscroll
        end
      else Some first
  end.

(** [ref_scroll_up(s, maxscroll)] on a list of [len] references: the new
    [s->first_displayed_entry]; [Undefined] when [TAILQ_PREV] is applied to
    [NULL]. *)
Definition ref_scroll_up (len : nat) (first : option nat) (maxscroll : Z)
  : option (result (option nat)) :=
  if entry_eqb first (TAILQ_FIRST len) then Some (Ok first)
  else
    match first with
    | None => Some Undefined
    | Some f =>
        match ref_scroll_up_loop (S (S f)) first (TAILQ_PREV f) 0 maxscroll with
        | None => None
        | Some first => Some (Ok first)
        end
    end.

(** The [while] loop of [ref_scroll_down]. *)
Fixpoint ref_scroll_down_loop (fuel : nat) (len : nat)
    (first next last : option nat) (n maxscroll : Z) : option (option nat) :=
  match fuel with
  | O => None
  | S fuel' =>
      match next, last with
      | Some nx, Some l =>
          if n <? maxscroll then
            let n := wrap_i32 (n + 1) in
            let last := TAILQ_NEXT len l in
            match last with
            | Some _ =>
                ref_scroll_down_loop fuel' len next (TAILQ_NEXT len nx) last n
                  maxscroll
            | None => ref_scroll_down_loop fuel' len first next last n maxscroll
            end
          else Some first
      | _, _ => Some first
      end
  end.

(** [ref_scroll_down(s, maxscroll)]: the new [s->first_displayed_entry];
    [last] is [s->last_displayed_entry].  Every turn of the loop moves
    [last] towards the end of the list. *)
Definition ref_scroll_down (len : nat) (first last : option nat)
    (maxscroll : Z) : option (option nat) :=
  let next :=
    match first with
    | Some f => TAILQ_NEXT len f
    | None => TAILQ_FIRST len
    end in
  ref_scroll_down_loop (S (S len)) len first next last 0 maxscroll.

(** * Well-formed indexes and example data *)

(** The four bytes of a 32-bit value in file order. *)
Definition htobe32 (v : Z) : list Z :=
  [(v / 2 ^ 24) mod 256; (v / 2 ^ 16) mod 256; (v / 2 ^ 8) mod 256; v mod 256].

(** The number of ids whose first byte is at most [b]. *)
Definition count_upto (ids : list got_object_id) (b : Z) : Z :=
  Z.of_nat (List.length (filter (fun id => nth 0 (sha1 id) 0 <=? b) ids)).

Fixpoint strictly_ascending (ids : list got_object_id) : bool :=
  match ids with
  | [] => true
  | id1 :: rest =>
      match rest with
      | [] => true
      | id2 :: _ => (got_object_id_cmp id1 id2 <? 0) && strictly_ascending rest
      end
  end.

(** A well-formed pack index as the spec has it (section 3, PackIndex): 256
    fan-out entries, the entry for [b] being the number of ids whose first
    byte is at most [b] (so the table is monotone and its last entry is the
    number of ids), ids of 20 bytes in strictly ascending order, and one
    offset for each id. *)
Definition packidx_wf (p : got_packidx_v2_hdr) : bool :=
  (List.length (fanout_table p) =? 256)%nat
  && forallb (fun b => betoh32 (word_at (fanout_table p) b)
                       =? count_upto (sorted_ids p) b)
       (map Z.of_nat (seq 0 256))
  && forallb (fun id => (List.length (sha1 id) =? 20)%nat
                        && forallb (fun x => (0 <=? x) && (x <? 256)) (sha1 id))
       (sorted_ids p)
  && strictly_ascending (sorted_ids p)
  && (List.length (offsets p) =? List.length (sorted_ids p))%nat.

(** The index of scenario S1 of the spec: three ids, 00..01, 42 00.. and
    42 00..ff, the last two in the bucket of 0x42. *)
Definition id_00_01 : got_object_id := mk_id (repeat 0 19 ++ [0x01]).
Definition id_42_00 : got_object_id := mk_id (0x42 :: repeat 0 19).
Definition id_42_ff : got_object_id := mk_id (0x42 :: repeat 0 18 ++ [0xff]).
Definition id_ff : got_object_id := mk_id (repeat 0xff 20).

Definition packidx_S1 : got_packidx_v2_hdr :=
  mk_packidx (htobe32 GOT_PACKIDX_V2_MAGIC) (htobe32 GOT_PACKIDX_VERSION)
    (repeat (htobe32 1) 0x42 ++ repeat (htobe32 3) (256 - 0x42))
    [id_00_01; id_42_00; id_42_ff]
    [htobe32 0; htobe32 0; htobe32 0]
    [htobe32 12; htobe32 40; htobe32 80]
    None
    (mk_trailer (repeat 0 20) (repeat 0 20)).

(** ** Reference decoder for zlib streams of stored blocks

    [inflate] itself is zlib's.  To compare what is extracted with what
    inflating gives, the streams whose deflate blocks are all stored blocks
    are decoded here after RFC 1950 and RFC 1951: a two-byte header, the
    blocks (a byte with the final-block bit and block type 0, LEN, its
    complement NLEN, LEN literal bytes) and the Adler-32 of the output. *)

Definition adler32 (bs : list Z) : Z :=
  let '(a, b) :=
    fold_left (fun (ab : Z * Z) x =>
                 let a' := (fst ab + x) mod 65521 in
                 (a', (snd ab + a') mod 65521))
      bs (1, 0) in
  b * 65536 + a.

Fixpoint inflate_stored_blocks (fuel : nat) (bs : list Z)
  : option (list Z * list Z) :=
  match fuel with
  | O => None
  | S fuel' =>
      match bs with
      | hdr :: l0 :: l1 :: n0 :: n1 :: rest =>
          let len := l0 + 256 * l1 in
          if (Z.land hdr 6 =? 0) && (n0 + 256 * n1 =? 65535 - len)
             && (len <=? Z.of_nat (List.length rest))
          then
            let data := firstn (Z.to_nat len) rest in
            let rest' := skipn (Z.to_nat len) rest in
            if Z.odd hdr then Some (data, rest')
            else match inflate_stored_blocks fuel' rest' with
                 | Some (d, r) => Some (data ++ d, r)
                 | None => None
                 end
          else None
      | _ => None
      end
  end.

(** The output of inflating [bs], when [bs] starts with a zlib stream of
    stored blocks. *)
Definition inflate_stored (bs : list Z) : option (list Z) :=
  match bs with
  | cmf :: flg :: body =>
      if (Z.land cmf 0x0f =? 8) && ((cmf * 256 + flg) mod 31 =? 0)
         && (Z.land flg 0x20 =? 0)
      then
        match inflate_stored_blocks (List.length body) body with
        | Some (out, a3 :: a2 :: a1 :: a0 :: _) =>
            if betoh [a3; a2; a1; a0] =? adler32 out then Some out else None
        | _ => None
        end
      else None
  | _ => None
  end.

(** A pack file with one object, a blob of size 1 whose content is the
    letter a: the header, the record header [0x31] at offset 12 and the
    deflated payload at offset 13, then the trailer. *)
Definition zlib_a : list Z :=
  [0x78; 0x01; 0x01; 0x01; 0x00; 0xfe; 0xff; 0x61; 0x00; 0x62; 0x00; 0x62].

Definition pack_one_blob : list Z :=
  [0x50; 0x41; 0x43; 0x4b; 0; 0; 0; 2; 0; 0; 0; 1] ++ [0x31] ++ zlib_a
  ++ repeat 0 20.

Definition fs_one_blob : filesystem :=
  mk_fs (fun path => if String.eqb path "objects/pack/pack-a.pack"
                     then Some pack_one_blob else None)
        (fun _ => None) true.

(** The object [open_plain_object] makes for the blob. *)
Definition obj_one_blob : got_object :=
  mk_object GOT_OBJ_TYPE_BLOB GOT_OBJ_FLAG_PACKED 0 1 (mk_id (repeat 0x11 20))
    "objects/pack/pack-a.pack" 13 (mk_chain 0 []).

(** An index file without objects whose fan-out table falls from 1 to 0 at
    its last entry: magic, version, the table and the id of the pack file;
    the checksum of these bytes follows them in the file. *)
Definition packidx_body_fanout_drop : list Z :=
  htobe32 GOT_PACKIDX_V2_MAGIC ++ htobe32 GOT_PACKIDX_VERSION
  ++ List.concat (repeat (htobe32 0) 254 ++ [htobe32 1; htobe32 0])
  ++ repeat 0 20.

Definition fs_fanout_drop (digest : list Z) : filesystem :=
  mk_fs (fun path =>
           if String.eqb path "objects/pack/pack-a.idx"
           then Some (packidx_body_fanout_drop ++ digest)
           else if String.eqb path "objects/pack/pack-a.pack"
           then Some [0x50; 0x41; 0x43; 0x4b; 0; 0; 0; 2; 0; 0; 0; 0]
           else None)
        (fun _ => None) true.

(** A digest function for the examples ([SHA1] is the C library's): twenty
    times the sum of the bytes modulo 256. *)
Definition sum_digest (bytes : list Z) : list Z :=
  repeat (fold_left Z.add bytes 0 mod 256) 20.

(** What [got_packidx_open] makes of that file. *)
Definition packidx_fanout_drop (digest : list Z) : got_packidx_v2_hdr :=
  mk_packidx (htobe32 GOT_PACKIDX_V2_MAGIC) (htobe32 GOT_PACKIDX_VERSION)
    (repeat (htobe32 0) 254 ++ [htobe32 1; htobe32 0])
    [] [] [] None (mk_trailer (repeat 0 20) digest).

(** The pack file of scenario S3 of the spec: a blob of size 5 at offset 20
    and at offset 100 an offset-delta whose negative offset is 80. *)
Definition pack_S3 : list Z :=
  [0x50; 0x41; 0x43; 0x4b; 0; 0; 0; 2; 0; 0; 0; 2] ++ repeat 0 8
  ++ [0x35] ++ repeat 0 79 ++ [0x65; 0x50] ++ repeat 0 30.

(** A pack file with two offset-deltas: the record at offset 14 has its base
    at 14 - 2 = 12, and the negative offset 1 that follows the record header
    at 12 leads from 13 to 12 again. *)
Definition pack_cycle : list Z :=
  [0x50; 0x41; 0x43; 0x4b; 0; 0; 0; 2; 0; 0; 0; 2]
  ++ [0x60; 0x01] ++ [0x60; 0x02] ++ repeat 0 20.

Definition fs_empty : filesystem :=
  mk_fs (fun _ => None) (fun _ => None) true.

(** * Predicates of the statements *)

(** The decimal value of the digits [ds] after the value [n]. *)
Definition decimal_from (n : Z) (ds : list Z) : Z :=
  fold_left (fun a d => a * 10 + d) ds n.

Definition is_digit_key (k : Z) : bool :=
  (k >=? char_0) && (k <=? char_9) && negb (k =? ERR).

(** The keys still to come end the count: none in time, or a key that is
    not a digit. *)
Definition ends_count (keys : list Z) : Prop :=
  match keys with
  | [] => True
  | k :: _ => is_digit_key k = false
  end.

(** A call of [blame_cb] as [got_blame] makes it: the line count of the
    blamed file, a line number of the file or -1, and the mutex locked and
    unlocked without error. *)
Definition cb_call_ok (a : tog_blame_cb_args) (ev : blame_event) : Prop :=
  match ev with
  | Ev_set_done => True
  | Ev_blame_cb calls n lineno _ =>
      n = nlines a /\ (lineno = -1 \/ 1 <= lineno) /\ lineno <= nlines a /\
      lock_errcode calls = 0 /\ unlock_errcode calls = 0
  end.

(** The entry at position [j] has [idx] [j], and [ncommits] is the number of
    entries. *)
Definition queue_ok (q : commit_queue) : Prop :=
  ncommits q = Z.of_nat (List.length (head q)) /\
  forall j e, nth_error (head q) j = Some e -> idx e = Z.of_nat j.

(** The number of commits the graph holds ready over the operations. *)
Fixpoint ops_supply (ops : list queue_op) : nat :=
  match ops with
  | [] => O
  | Op_queue_commits g _ _ :: ops' => (List.length g + ops_supply ops')%nat
  | Op_free_commits :: ops' => ops_supply ops'
  end.

(** The entries a successful resolution adds: the entry of the record it was
    called for first, entries of delta type, and one entry of plain type at
    the end. *)
Definition chain_added (added : list got_delta) (first : got_delta) : Prop :=
  hd_error added = Some first /\
  exists mid last,
    added = mid ++ [last] /\
    is_plain_type (delta_type last) = true /\
    Forall (fun d => is_delta_type (delta_type d) = true) mid.


(** An index of one object for a pack above 2GB: the object's entry in the
    offsets table has the large flag and the index 1, which is the object
    count; the large offsets table has one entry. *)
Definition packidx_large_at_count : got_packidx_v2_hdr :=
  mk_packidx (htobe32 GOT_PACKIDX_V2_MAGIC) (htobe32 GOT_PACKIDX_VERSION)
    (repeat (htobe32 0) 0x42 ++ repeat (htobe32 1) (256 - 0x42))
    [id_42_00]
    [htobe32 0]
    [htobe32 0x80000001]
    (Some [[0; 0; 0; 1; 0; 0; 0; 0]])
    (mk_trailer (repeat 0 20) (repeat 0 20)).

(** The bytes of an index that its checksum covers, in the order of the
    file: everything but the checksum itself. *)
Definition packidx_content (p : got_packidx_v2_hdr) : list Z :=
  magic p ++ version p ++ List.concat (fanout_table p)
  ++ List.concat (map sha1 (sorted_ids p))
  ++ List.concat (crc32 p) ++ List.concat (offsets p)
  ++ match large_offsets p with
     | Some large => List.concat large
     | None => []
     end
  ++ packfile_sha1 (trailer p).

(** The tables of an index have the sizes of the file format: words of 4
    bytes, ids and digests of 20 bytes, large offsets of 8 bytes, 256
    fan-out entries and one entry per object in the other tables. *)
Definition packidx_sized (p : got_packidx_v2_hdr) : Prop :=
  let nobj := Z.to_nat (betoh32 (word_at (fanout_table p) 0xff)) in
  List.length (magic p) = 4%nat /\ List.length (version p) = 4%nat /\
  List.length (fanout_table p) = 256%nat /\
  Forall (fun w => List.length w = 4%nat) (fanout_table p) /\
  List.length (sorted_ids p) = nobj /\
  Forall (fun id => List.length (sha1 id) = 20%nat) (sorted_ids p) /\
  List.length (crc32 p) = nobj /\
  Forall (fun w => List.length w = 4%nat) (crc32 p) /\
  List.length (offsets p) = nobj /\
  Forall (fun w => List.length w = 4%nat) (offsets p) /\
  (forall large, large_offsets p = Some large ->
     List.length large = nobj /\ Forall (fun w => List.length w = 8%nat) large) /\
  List.length (packfile_sha1 (trailer p)) = 20%nat /\
  List.length (packidx_sha1 (trailer p)) = 20%nat.

(** An index of the three ids of scenario S1 with the checksum of its
    content, and a pack directory that holds it beside its pack file: a blob
    of 5 bytes at offset 12, a blob of 2 bytes at offset 40, the object of
    the second id, and at offset 80 an offset-delta whose negative offset
    is 40, the object of the first id. *)
Definition packidx_S1_offsets : list (list Z) :=
  [htobe32 80; htobe32 40; htobe32 12].

Definition packidx_S1_sum : got_packidx_v2_hdr :=
  mk_packidx (magic packidx_S1) (version packidx_S1) (fanout_table packidx_S1)
    (sorted_ids packidx_S1) (crc32 packidx_S1) packidx_S1_offsets None
    (mk_trailer (repeat 0 20)
       (sum_digest
          (packidx_content
             (mk_packidx (magic packidx_S1) (version packidx_S1)
                (fanout_table packidx_S1) (sorted_ids packidx_S1)
                (crc32 packidx_S1) packidx_S1_offsets None
                (mk_trailer (repeat 0 20) []))))).

Definition pack_S1 : list Z :=
  [0x50; 0x41; 0x43; 0x4b; 0; 0; 0; 2; 0; 0; 0; 3]
  ++ [0x35] ++ repeat 0x61 5 ++ repeat 0 22
  ++ [0x32; 0x62; 0x63] ++ repeat 0 37
  ++ [0x65; 0x28] ++ repeat 0 10.

Definition name_S1 : string :=
  (GOT_PACK_PREFIX ++ got_sha1_digest_to_str (repeat 0 20))%string.

Definition fs_S1 : filesystem :=
  mk_fs (fun path =>
           if String.eqb path ("objects/pack/" ++ name_S1 ++ GOT_PACKIDX_SUFFIX)
           then Some (packidx_content packidx_S1_sum
                      ++ packidx_sha1 (trailer packidx_S1_sum))
           else if String.eqb path ("objects/pack/" ++ name_S1 ++ GOT_PACKFILE_SUFFIX)
           then Some pack_S1
           else None)
        (fun path =>
           if String.eqb path "objects/pack"
           then Some ["."; ".."; name_S1 ++ GOT_PACKFILE_SUFFIX;
                      name_S1 ++ GOT_PACKIDX_SUFFIX]%string
           else None)
        true.

(** The index [p] is what the file at [path] holds: magic number and
    version are those of the format, the fan-out table passes
    [verify_fanout_table], the tables have the sizes of the format, the file
    starts with the content of [p] and its checksum, the checksum is the
    digest of the content, and the large offsets table is there exactly when
    the pack file is above 2GB. *)
Definition packidx_of_file (SHA1 : list Z -> list Z) (fs : filesystem)
    (path : string) (p : got_packidx_v2_hdr) : Prop :=
  betoh32 (magic p) = GOT_PACKIDX_V2_MAGIC /\
  betoh32 (version p) = GOT_PACKIDX_VERSION /\
  verify_fanout_table (fanout_table p) = Ok tt /\
  packidx_sized p /\
  memcmp (packidx_sha1 (trailer p)) (SHA1 (packidx_content p))
    (Z.to_nat SHA1_DIGEST_LENGTH) = 0 /\
  (exists size, get_packfile_size fs path = Ok size /\
     (large_offsets p = None <-> size <= 0x80000000)) /\
  exists rest,
    fs_file fs path
    = Some (packidx_content p ++ packidx_sha1 (trailer p) ++ rest).

(** A directory entry that the search passes over: its name is not that of
    an index, or the index opens and does not hold the id. *)
Definition search_passes (SHA1 : list Z -> list Z) (fs : filesystem)
    (path_packdir : string) (id : got_object_id) (d_name : string) : Prop :=
  is_packidx_filename d_name (Z.of_nat (String.length d_name)) = false \/
  exists packidx,
    got_packidx_open SHA1 fs (path_packdir ++ "/" ++ d_name) = Ok packidx /\
    get_object_idx packidx id = Some (Ok (-1)).

(** A base type function for the examples ([got_delta_chain_get_base_type]
    is lib/delta.c's): the type of the last entry of the chain. *)
Definition last_entry_type (deltas : got_delta_chain) : result Z :=
  match rev (entries deltas) with
  | d :: _ => Ok (delta_type d)
  | [] => Err GOT_ERR_NOT_IMPL
  end.

(** The objects that opening the second and the first id of that index
    gives: the blob at offset 40 and the deltified object at offset 80. *)
Definition path_pack_S1 : string :=
  ("objects/pack/" ++ name_S1 ++ GOT_PACKFILE_SUFFIX)%string.

Definition obj_S1_blob : got_object :=
  mk_object GOT_OBJ_TYPE_BLOB GOT_OBJ_FLAG_PACKED 0 2 id_42_00 path_pack_S1 41
    (mk_chain 0 []).

Definition obj_S1_delta : got_object :=
  mk_object GOT_OBJ_TYPE_BLOB
    (Z.lor GOT_OBJ_FLAG_PACKED GOT_OBJ_FLAG_DELTIFIED) 0 0 id_00_01
    path_pack_S1 81
    (mk_chain 2 [mk_delta path_pack_S1 GOT_OBJ_TYPE_OFFSET_DELTA 80 5;
                 mk_delta path_pack_S1 GOT_OBJ_TYPE_BLOB 41 2]).

(** The commits of a queue, in its order. *)
Definition queued (q : commit_queue)
  : list (got_object_id * got_commit_object) :=
  map (fun e => (entry_id e, entry_commit e)) (head q).

(** The search expression matches the commit. *)
Definition commit_matches (regexec : string -> Z)
    (c : got_object_id * got_commit_object) : bool :=
  match match_commit regexec (fst c) (snd c) with
  | Ok have_match => negb (have_match =? 0)
  | _ => false
  end.

(** A search expression for the examples ([regexec] is the C library's):
    it matches the string [fix] and nothing else. *)
Definition regexec_fix (s : string) : Z :=
  if String.eqb s "fix" then 0 else 1.

Definition commit_init : got_object_id * got_commit_object :=
  (id_00_01, mk_commit "alice" "alice" "init").
Definition commit_fix : got_object_id * got_commit_object :=
  (id_42_00, mk_commit "bob" "bob" "fix").
Definition commit_more : got_object_id * got_commit_object :=
  (id_42_ff, mk_commit "bob" "bob" "more").

(** The string holds a tab. *)
Fixpoint has_tab (s : string) : bool :=
  match s with
  | EmptyString => false
  | String c s' => Ascii.eqb c char_tab || has_tab s'
  end.

(** Every element is kept or replaced by a dot. *)
Definition kept_or_dot (wline wline' : list Z) : Prop :=
  List.length wline' = List.length wline /\
  forall j w, nth_error wline j = Some w ->
              nth_error wline' j = Some w \/ nth_error wline' j = Some wchar_dot.

(** What [mbs2ws] gives: an array of [wlen + 1] wide characters that ends
    with a NUL, [wlen] being below INT_MAX. *)
Definition mbs2ws_ok (mbs2ws : string -> result (list Z * Z)) : Prop :=
  forall s,
    mbs2ws s <> Undefined /\
    forall wline wlen,
      mbs2ws s = Ok (wline, wlen) ->
      0 <= wlen < INT_MAX /\
      Z.of_nat (List.length wline) = wlen + 1 /\
      nth_error wline (Z.to_nat wlen) = Some wchar_NUL.

(** A conversion for the examples ([mbstowcs] is the C library's): the
    codes of the characters, for a string of fewer than 1000 characters. *)
Definition mbs2ws_ascii (s : string) : result (list Z * Z) :=
  if (String.length s <? 1000)%nat
  then Ok (map (fun c => Z.of_nat (nat_of_ascii c)) (list_ascii_of_string s)
           ++ [wchar_NUL],
           Z.of_nat (String.length s))
  else Err GOT_ERR_NO_MEM.

(** In a list of chain entries, the entry after an offset delta is in the
    pack file of the delta. *)
Fixpoint offset_bases_same_pack (l : list got_delta) : Prop :=
  match l with
  | d1 :: ((d2 :: _) as rest) =>
      (delta_type d1 = GOT_OBJ_TYPE_OFFSET_DELTA ->
       delta_path_packfile d2 = delta_path_packfile d1) /\
      offset_bases_same_pack rest
  | _ => True
  end.

(** A pack file of three records, and its index.  The record at offset 12
    is a ref-delta that names [id_42_00] as its base, the record at offset
    33 is a ref-delta that names [id_00_01] as its base, and the record at
    offset 54 is an offset-delta whose negative offset, 42, leads to the
    record at 12.  The index gives the offset 12 for [id_00_01], 33 for
    [id_42_00] and 54 for [id_ff]: each of the two ref-deltas has the other
    one as its base. *)
Definition pack_ring : list Z :=
  [0x50; 0x41; 0x43; 0x4b; 0; 0; 0; 2; 0; 0; 0; 3]
  ++ [0x75] ++ sha1 id_42_00
  ++ [0x75] ++ sha1 id_00_01
  ++ [0x65; 0x2a] ++ repeat 0 10.

Definition packidx_ring (digest : list Z) : got_packidx_v2_hdr :=
  mk_packidx (htobe32 GOT_PACKIDX_V2_MAGIC) (htobe32 GOT_PACKIDX_VERSION)
    (repeat (htobe32 1) 0x42 ++ repeat (htobe32 2) (0xff - 0x42)
     ++ [htobe32 3])
    [id_00_01; id_42_00; id_ff]
    [htobe32 0; htobe32 0; htobe32 0]
    [htobe32 12; htobe32 33; htobe32 54]
    None
    (mk_trailer (repeat 0 20) digest).

(** The index with the checksum of its content, for the digest function
    [SHA1], and the pack directory that holds it beside the pack file. *)
Definition packidx_ring_sum (SHA1 : list Z -> list Z) : got_packidx_v2_hdr :=
  packidx_ring (SHA1 (packidx_content (packidx_ring []))).

Definition path_packidx_S1 : string :=
  ("objects/pack/" ++ name_S1 ++ GOT_PACKIDX_SUFFIX)%string.

Definition fs_ring (SHA1 : list Z -> list Z) : filesystem :=
  mk_fs (fun path =>
           if String.eqb path path_packidx_S1
           then Some (packidx_content (packidx_ring_sum SHA1)
                      ++ packidx_sha1 (trailer (packidx_ring_sum SHA1)))
           else if String.eqb path path_pack_S1
           then Some pack_ring
           else None)
        (fun path =>
           if String.eqb path "objects/pack"
           then Some ["."; ".."; name_S1 ++ GOT_PACKFILE_SUFFIX;
                      name_S1 ++ GOT_PACKIDX_SUFFIX]%string
           else None)
        true.

(** The ref-delta whose base id is at the position of the stream [packfile]
    has its base in the record at [base_offset] of the pack file
    [base_path], whose bytes are [data]: the id is found in an index of the
    pack directory, the index gives [base_offset] for it, and [base_path] is
    the pack file of this index. *)
Definition ref_delta_base (SHA1 : list Z -> list Z) (fs : filesystem)
    (repo : got_repository) (packfile : FILE) (base_path : string)
    (data : list Z) (base_offset : Z) : Prop :=
  exists id_bytes packfile' packidx idx,
    fread_item 20 packfile = Some (id_bytes, packfile') /\
    search_packidx SHA1 fs repo (mk_id id_bytes) = Some (Ok (packidx, idx)) /\
    get_object_offset packidx idx = Ok base_offset /\
    base_offset <> -1 /\
    get_packfile_path repo packidx = Ok base_path /\
    fs_file fs base_path = Some data.

(** The value of a negative offset as the pack format defines it, for the
    bytes of the offset: [o = b0 & 0x7f] and, for each further byte [b],
    [o = ((o + 1) << 7) | (b & 0x7f)].  The value is an integer without
    bound (no [int64_t] is involved). *)
Fixpoint negative_offset_more (o : Z) (bytes : list Z) : Z :=
  match bytes with
  | [] => o
  | b :: bytes' =>
      negative_offset_more (Z.lor (Z.shiftl (o + 1) 7) (Z.land b 0x7f)) bytes'
  end.

Definition negative_offset_value (bytes : list Z) : Z :=
  match bytes with
  | [] => 0
  | b0 :: bytes' => negative_offset_more (Z.land b0 0x7f) bytes'
  end.

(** The bytes of the stream [f] from its position on, [len] of them. *)
Definition bytes_at (f : FILE) (len : Z) : list Z :=
  firstn (Z.to_nat len) (skipn (Z.to_nat (f_pos f)) (f_data f)).

(** * Properties *)

(** ** Machine integers *)

Lemma wrap_i32_small (z : Z) : - 2 ^ 31 <= z < 2 ^ 31 -> wrap_i32 z = z.
Proof.
  intros H. unfold wrap_i32. rewrite Z.mod_small; lia.
Qed.

Lemma wrap_i64_small (z : Z) : - 2 ^ 63 <= z < 2 ^ 63 -> wrap_i64 z = z.
Proof.
  intros H. unfold wrap_i64. rewrite Z.mod_small; lia.
Qed.

Lemma wrap_u64_small (z : Z) : 0 <= z < 2 ^ 64 -> wrap_u64 z = z.
Proof.
  intros H. unfold wrap_u64. apply Z.mod_small; lia.
Qed.

Lemma wrap_u8_small (z : Z) : 0 <= z < 256 -> wrap_u8 z = z.
Proof.
  intros H. unfold wrap_u8. apply Z.mod_small. change (2 ^ 8) with 256. lia.
Qed.

(** ** Signals and the main loop *)

Lemma tog_fatal_signal_received_spec (s : tog_signals) :
  tog_fatal_signal_received s = 0 <->
  tog_sigpipe_received s = 0 /\ tog_sigint_received s = 0.
Proof.
  unfold tog_fatal_signal_received, c_or.
  destruct (Z.eqb_spec (tog_sigpipe_received s) 0) as [-> | Hp];
    destruct (Z.eqb_spec (tog_sigint_received s) 0) as [-> | Hi];
    cbn; split; try discriminate; try tauto; intros [? ?]; congruence.
Qed.

(** C7: with only the SIGTERM flag set, [tog_fatal_signal_received] is 0, the
    guard of the main loop holds, and a loop whose turns change nothing is
    still running after any number of turns. *)
Theorem view_loop_ignores_sigterm :
  let st := mk_loop_state [tt] 0 (tog_sigterm no_signals) in
  tog_sigterm_received (signals st) = 1 /\
  tog_fatal_signal_received (signals st) = 0 /\
  view_loop_guard st = true /\
  forall fuel, view_loop fuel (fun s => Ok s) st = None.
Proof.
  cbn zeta. repeat split.
  induction fuel as [| fuel IH]; [reflexivity | exact IH].
Qed.

(** ** Numeric key prefix *)

(** Up to seven digits in all are accumulated to their decimal value. *)
Lemma get_compound_key_loop_short (ds : list Z) :
  forall (m : nat) (n d : Z) (keys : list Z),
    Forall (fun d => 0 <= d <= 9) ds ->
    0 <= d <= 9 ->
    0 <= n < 10 ^ Z.of_nat m ->
    (m + 1 + List.length ds <= 7)%nat ->
    ends_count keys ->
    get_compound_key_loop (map (fun d => char_0 + d) ds ++ keys) n (char_0 + d)
    = (decimal_from n (d :: ds), fst (wgetch keys), snd (wgetch keys)).
Proof.
  induction ds as [| d' ds IH]; intros m n d keys Hds Hd Hn Hlen Hend.
  - cbn [map app List.length] in *.
    assert (Hpow : 10 ^ Z.of_nat m <= 10 ^ 6).
    { apply Z.pow_le_mono_r; lia. }
    assert (Hstep : (if n >=? 9999999 then 9999999
                     else wrap_i32 (n * 10 + (char_0 + d - char_0)))
                    = n * 10 + d).
    { destruct (Z.geb_spec n 9999999); [lia |].
      replace (char_0 + d - char_0) with d by lia.
      apply wrap_i32_small; lia. }
    destruct keys as [| k keys]; cbn [get_compound_key_loop].
    + rewrite Hstep. reflexivity.
    + cbn in Hend. unfold is_digit_key in Hend. rewrite Hend, Hstep. reflexivity.
  - cbn [map app List.length] in *.
    assert (Hpow : 10 ^ Z.of_nat m <= 10 ^ 5).
    { apply Z.pow_le_mono_r; lia. }
    assert (Hstep : (if n >=? 9999999 then 9999999
                     else wrap_i32 (n * 10 + (char_0 + d - char_0)))
                    = n * 10 + d).
    { destruct (Z.geb_spec n 9999999); [lia |].
      replace (char_0 + d - char_0) with d by lia.
      apply wrap_i32_small; lia. }
    inversion Hds as [| ? ? Hd' Hds']; subst.
    cbn [get_compound_key_loop]. rewrite Hstep.
    assert (Hdig : (char_0 + d' >=? char_0) && (char_0 + d' <=? char_9)
                   && negb (char_0 + d' =? ERR) = true).
    { unfold char_0, char_9, ERR.
      destruct (Z.geb_spec (48 + d') 48); [| lia].
      destruct (Z.leb_spec (48 + d') 57); [| lia].
      destruct (Z.eqb_spec (48 + d') (-1)); [lia | reflexivity]. }
    rewrite Hdig.
    rewrite (IH (S m) (n * 10 + d) d' keys); auto; try lia.
    rewrite Nat2Z.inj_succ, Z.pow_succ_r by lia. lia.
Qed.

(** C8: eight digit keys and then [j].  The count stored is the decimal
    value 12345678, above the cap of 9999999. *)
Theorem get_compound_key_eight_digits :
  let keys := [49; 50; 51; 52; 53; 54; 55; 56; 106] in
  view_input_key (mk_view 0 0) keys = (mk_view 106 12345678, 106, []) /\
  count (fst (fst (view_input_key (mk_view 0 0) keys))) > 9999999.
Proof.
  cbn zeta. split; [vm_compute; reflexivity | vm_compute; reflexivity].
Qed.

(** ** Blame cancellation *)

(** With the flag set a run of [blame_cb] leaves the shared memory as it
    is, whatever its arguments and whatever the calls it makes return. *)
Lemma blame_cb_quit_no_write (calls : cb_calls) (a : tog_blame_cb_args)
    (n lineno : Z) (id : got_object_id) :
  quit a <> 0 -> snd (blame_cb calls a n lineno id) = a.
Proof.
  intros Hq. unfold blame_cb.
  destruct (negb (n =? nlines a) || (negb (lineno =? -1) && (lineno <? 1))
            || (lineno >? nlines a)); [reflexivity |].
  destruct (negb (lock_errcode calls =? 0)); [reflexivity |].
  destruct (Z.eqb_spec (quit a) 0) as [E | _]; [contradiction |].
  cbn [negb]. destruct (negb (unlock_errcode calls =? 0)); reflexivity.
Qed.

Lemma blame_cb_quit_err (calls : cb_calls) (a : tog_blame_cb_args)
    (n lineno : Z) (id : got_object_id) :
  quit a <> 0 -> cb_call_ok a (Ev_blame_cb calls n lineno id) ->
  fst (blame_cb calls a n lineno id) = Some GOT_ERR_ITER_COMPLETED.
Proof.
  intros Hq (Hn & Hl & Hle & Hlock & Hunlock). unfold blame_cb.
  subst n. rewrite Z.eqb_refl, Hlock, Hunlock. cbn [negb orb].
  assert (Hrange : negb (lineno =? -1) && (lineno <? 1) || (lineno >? nlines a)
                   = false).
  { destruct (Z.gtb_spec lineno (nlines a)); [lia |].
    rewrite orb_false_r.
    destruct Hl as [-> | Hl]; [reflexivity |].
    destruct (Z.ltb_spec lineno 1); [lia |].
    apply andb_false_r. }
  rewrite Hrange.
  destruct (Z.eqb_spec (quit a) 0) as [E | _]; [contradiction |].
  reflexivity.
Qed.

Lemma blame_step_quit (a : tog_blame_cb_args) (ev : blame_event) :
  quit a <> 0 ->
  lines (snd (blame_step a ev)) = lines a /\
  nlines (snd (blame_step a ev)) = nlines a /\
  quit (snd (blame_step a ev)) <> 0.
Proof.
  intros Hq. destruct ev as [| calls n lineno id]; cbn [blame_step].
  - cbn. repeat split. discriminate.
  - rewrite blame_cb_quit_no_write by exact Hq. auto.
Qed.

(** Once the flag is set, no event changes the lines, and the flag stays
    set. *)
Lemma blame_run_quit (evs : list blame_event) :
  forall a, quit a <> 0 ->
    lines (snd (blame_run a evs)) = lines a /\
    nlines (snd (blame_run a evs)) = nlines a /\
    quit (snd (blame_run a evs)) <> 0.
Proof.
  induction evs as [| ev evs IH]; intros a Hq; [cbn; auto |].
  cbn [blame_run].
  destruct (blame_step_quit a ev Hq) as (Hl & Hn & Hq').
  destruct (blame_step a ev) as [err a'] eqn:Hstep. cbn [snd] in *.
  destruct (IH a' Hq') as (Hl' & Hn' & Hq'').
  destruct (blame_run a' evs) as [errs a''] eqn:Hrun. cbn [snd] in *.
  repeat split; congruence.
Qed.

Lemma blame_run_quit_errs (evs : list blame_event) :
  forall a k calls n lineno id,
    quit a <> 0 ->
    nth_error evs k = Some (Ev_blame_cb calls n lineno id) ->
    cb_call_ok a (Ev_blame_cb calls n lineno id) ->
    nth_error (fst (blame_run a evs)) k = Some (Some GOT_ERR_ITER_COMPLETED).
Proof.
  induction evs as [| ev evs IH]; intros a k calls n lineno id Hq Hk Hok.
  - destruct k; discriminate.
  - cbn [blame_run].
    destruct (blame_step_quit a ev Hq) as (Hl & Hn & Hq').
    destruct (blame_step a ev) as [err a'] eqn:Hstep. cbn [snd] in *.
    specialize (IH a').
    destruct (blame_run a' evs) as [errs a''] eqn:Hrun. cbn [fst] in *.
    destruct k as [| k]; cbn [nth_error] in *.
    + injection Hk as ->. cbn [blame_step] in Hstep.
      pose proof (blame_cb_quit_err calls a n lineno id Hq Hok) as Herr.
      rewrite Hstep in Herr. cbn [fst] in Herr. subst err. reflexivity.
    + apply (IH k calls n lineno id Hq' Hk).
      cbn [cb_call_ok] in *. rewrite Hn. exact Hok.
Qed.

Lemma blame_run_app (l1 l2 : list blame_event) :
  forall a, snd (blame_run a (l1 ++ l2))
            = snd (blame_run (snd (blame_run a l1)) l2).
Proof.
  induction l1 as [| ev l1 IH]; intros a; [reflexivity |].
  cbn [app blame_run].
  destruct (blame_step a ev) as [err a'].
  specialize (IH a').
  destruct (blame_run a' (l1 ++ l2)) as [errs a''].
  destruct (blame_run a' l1) as [errs1 a1]. cbn [snd] in *. exact IH.
Qed.

(** C9: after the UI thread has set the flag, whatever events follow, the
    lines stay as they were when the flag was set; and every call of the
    callback that [got_blame] makes then returns GOT_ERR_ITER_COMPLETED,
    which [blame_thread] passes on and [stop_blame] turns into success. *)
Theorem blame_done_stops_annotation :
  forall (a : tog_blame_cb_args) (pre post : list blame_event),
    let a1 := snd (blame_run a (pre ++ [Ev_set_done])) in
    lines (snd (blame_run a1 post)) = lines a1 /\
    forall k calls n lineno id,
      nth_error post k = Some (Ev_blame_cb calls n lineno id) ->
      cb_call_ok a1 (Ev_blame_cb calls n lineno id) ->
      exists err,
        nth_error (fst (blame_run a1 post)) k = Some err /\
        err = Some GOT_ERR_ITER_COMPLETED /\
        stop_blame_err (blame_thread_err err) = None.
Proof.
  intros a pre post a1.
  assert (Hq : quit a1 <> 0).
  { unfold a1. rewrite blame_run_app. cbn. discriminate. }
  split.
  - apply (blame_run_quit post a1 Hq).
  - intros k calls n lineno id Hk Hok.
    exists (Some GOT_ERR_ITER_COMPLETED). split; [| split; reflexivity].
    apply (blame_run_quit_errs post a1 k calls n lineno id Hq Hk Hok).
Qed.

(** One line annotated, the flag set, then two more calls of the callback:
    line 2 stays unannotated and both calls return GOT_ERR_ITER_COMPLETED. *)
Lemma blame_done_stops_annotation_witness :
  let a := mk_cb_args [mk_blame_line 0 None; mk_blame_line 0 None] 2 0 in
  let id := mk_id (repeat 7 20) in
  let calls := mk_cb_calls 0 0 true in
  let pre := [Ev_blame_cb calls 2 1 id] in
  let post := [Ev_blame_cb calls 2 2 id; Ev_blame_cb calls 2 (-1) id] in
  let a1 := snd (blame_run a (pre ++ [Ev_set_done])) in
  lines a1 = [mk_blame_line 1 (Some id); mk_blame_line 0 None] /\
  lines (snd (blame_run a1 post)) = lines a1 /\
  exists err,
    nth_error (fst (blame_run a1 post)) 0 = Some err /\
    err = Some GOT_ERR_ITER_COMPLETED /\
    stop_blame_err (blame_thread_err err) = None.
Proof.
  cbn zeta. split; [reflexivity |].
  pose proof (blame_done_stops_annotation
                (mk_cb_args [mk_blame_line 0 None; mk_blame_line 0 None] 2 0)
                [Ev_blame_cb (mk_cb_calls 0 0 true) 2 1 (mk_id (repeat 7 20))]
                [Ev_blame_cb (mk_cb_calls 0 0 true) 2 2 (mk_id (repeat 7 20));
                 Ev_blame_cb (mk_cb_calls 0 0 true) 2 (-1) (mk_id (repeat 7 20))])
    as [Hlines Herr].
  split; [exact Hlines |].
  apply (Herr 0%nat (mk_cb_calls 0 0 true) 2 2 (mk_id (repeat 7 20)));
    [reflexivity | cbn; lia].
Defined.

(** ** Commit queue *)

Lemma queue_ok_append (q : commit_queue) (id : got_object_id)
    (commit : got_commit_object) :
  queue_ok q -> Z.of_nat (List.length (head q)) < INT_MAX ->
  queue_ok (mk_queue (wrap_i32 (ncommits q + 1))
              (head q ++ [mk_entry id commit (ncommits q)])).
Proof.
  intros [Hn Hidx] Hlen. unfold INT_MAX in Hlen. split; cbn [ncommits head].
  - rewrite length_app, Nat2Z.inj_add. cbn [List.length].
    rewrite wrap_i32_small; lia.
  - intros j e Hj.
    destruct (Nat.lt_ge_cases j (List.length (head q))) as [Hlt | Hge].
    + rewrite nth_error_app1 in Hj by exact Hlt. apply Hidx, Hj.
    + rewrite nth_error_app2 in Hj by exact Hge.
      destruct (j - List.length (head q))%nat as [| r] eqn:Hr.
      * cbn in Hj. injection Hj as <-. cbn [idx]. lia.
      * destruct r; discriminate.
Qed.

Section CommitQueue.

Variable regexec : string -> Z.

(** A call of [queue_commits] appends to the queue: the entries there stay,
    at most the supplied commits are added, and the queue stays in order. *)
Lemma queue_commits_loop_ok (g : list (got_object_id * got_commit_object)) :
  forall q searching search_next_done,
    queue_ok q ->
    Z.of_nat (List.length (head q) + List.length g) <= INT_MAX ->
    let q' := commits (snd (queue_commits_loop regexec g q searching
                              search_next_done)) in
    queue_ok q' /\
    (List.length (head q') <= List.length (head q) + List.length g)%nat /\
    exists new, head q' = head q ++ new.
Proof.
  induction g as [| [id commit] g IH]; intros q searching search_next_done Hok Hlen.
  - cbn. repeat split; try apply Hok; try lia. exists []. now rewrite app_nil_r.
  - cbn [queue_commits_loop alloc_commit_queue_entry entry_id entry_commit].
    cbn [List.length] in Hlen.
    assert (Hok' : queue_ok (mk_queue (wrap_i32 (ncommits q + 1))
                     (head q ++ [mk_entry id commit (ncommits q)]))).
    { apply queue_ok_append; [exact Hok | lia]. }
    set (q1 := mk_queue (wrap_i32 (ncommits q + 1))
                 (head q ++ [mk_entry id commit (ncommits q)])) in *.
    assert (Hlen1 : List.length (head q1) = S (List.length (head q))).
    { unfold q1. cbn [head]. rewrite length_app. cbn. lia. }
    assert (Hstop : queue_ok q1 /\
              (List.length (head q1) <= List.length (head q) + S (List.length g))%nat /\
              exists new, head q1 = head q ++ new).
    { repeat split; try apply Hok'; [lia |]. eexists. reflexivity. }
    assert (Hgo : forall d,
              let q' := commits (snd (queue_commits_loop regexec g q1 searching d)) in
              queue_ok q' /\
              (List.length (head q') <= List.length (head q) + S (List.length g))%nat /\
              exists new, head q' = head q ++ new).
    { intros d. destruct (IH q1 searching d Hok') as (H1 & H2 & new & H3); [lia |].
      cbn zeta. repeat split; try apply H1; [lia |].
      exists ([mk_entry id commit (ncommits q)] ++ new).
      rewrite H3. unfold q1. cbn [head]. now rewrite <- app_assoc. }
    cbn [List.length].
    destruct ((searching =? TOG_SEARCH_FORWARD) && (search_next_done =? 0)) eqn:Hs.
    + unfold match_commit.
      destruct ((regexec (commit_author commit) =? 0)
                || (regexec (commit_committer commit) =? 0)
                || (regexec (got_sha1_digest_to_str (sha1 id)) =? 0)
                || (regexec (commit_logmsg commit) =? 0)); cbn [negb Z.eqb].
      * cbn [fst snd]. unfold TOG_SEARCH_HAVE_MORE. cbn [Z.eqb].
        rewrite andb_false_r. exact Hstop.
      * rewrite Hs. apply Hgo.
    + rewrite Hs. cbn. exact Hstop.
Qed.

(** [free_commits] empties the queue and leaves [ncommits] at 0. *)
Lemma free_commits_loop_ok (fuel : nat) :
  forall q, ncommits q = Z.of_nat (List.length (head q)) ->
            (List.length (head q) < fuel)%nat ->
            Z.of_nat (List.length (head q)) <= INT_MAX ->
            free_commits_loop fuel q = Some commit_queue_init.
Proof.
  induction fuel as [| fuel IH]; intros q Hn Hfuel Hlen; [lia |].
  destruct q as [n l]. cbn [head ncommits] in *. cbn [free_commits_loop head].
  destruct l as [| e l].
  - cbn in Hn. subst n. reflexivity.
  - cbn [pop_commit head ncommits]. cbn [List.length] in *.
    unfold INT_MAX in Hlen.
    apply IH; cbn [head ncommits]; try lia.
    + rewrite wrap_i32_small; lia.
    + unfold INT_MAX. lia.
Qed.

Lemma queue_ok_init : queue_ok commit_queue_init.
Proof.
  split; [reflexivity |]. intros [| j] e H; discriminate.
Qed.

Lemma queue_run_ok (ops : list queue_op) :
  forall q, queue_ok q ->
            Z.of_nat (List.length (head q) + ops_supply ops) <= INT_MAX ->
            exists q', queue_run regexec q ops = Some q' /\ queue_ok q'.
Proof.
  induction ops as [| op ops IH]; intros q Hok Hlen.
  - exists q. split; [reflexivity | exact Hok].
  - cbn [queue_run]. destruct op as [g s d |]; cbn [queue_step ops_supply] in *.
    + unfold queue_commits. cbn [graph commits searching search_next_done].
      destruct (queue_commits_loop_ok g q s d Hok) as (H1 & H2 & _); [lia |].
      apply IH; [exact H1 | lia].
    + unfold free_commits. rewrite free_commits_loop_ok; try lia; [| apply Hok].
      apply IH; [apply queue_ok_init |].
      cbn [commit_queue_init head List.length Nat.add]. lia.
Qed.

End CommitQueue.

(** C10: from the empty queue of [open_log_view], after any sequence of
    calls of [queue_commits] and [free_commits] that supplies at most INT_MAX
    commits, the queue is there, the entry at position [j] has [idx] [j] and
    [ncommits] is the number of entries; and a call of [queue_commits] keeps
    the entries of such a queue and adds entries after them. *)
Theorem commit_queue_idx_contiguous :
  forall (regexec : string -> Z),
    (forall ops : list queue_op,
        Z.of_nat (ops_supply ops) <= INT_MAX ->
        exists q, queue_run regexec commit_queue_init ops = Some q /\ queue_ok q) /\
    (forall q g searching search_next_done,
        queue_ok q ->
        Z.of_nat (List.length (head q) + List.length g) <= INT_MAX ->
        let q' := commits (snd (queue_commits regexec
                                  (mk_log_args g q searching search_next_done))) in
        queue_ok q' /\ exists new, head q' = head q ++ new).
Proof.
  intros regexec. split.
  - intros ops Hsup. apply queue_run_ok; [apply queue_ok_init | exact Hsup].
  - intros q g s d Hok Hlen. cbn zeta. unfold queue_commits.
    cbn [graph commits searching search_next_done].
    destruct (queue_commits_loop_ok regexec g q s d Hok Hlen)
      as (H1 & _ & H3).
    split; assumption.
Qed.

(** Three commits loaded in two calls, the queue cleared, one more commit
    loaded. *)
Lemma commit_queue_idx_contiguous_witness :
  let regexec := fun _ : string => 1 in
  let c := mk_commit "a" "a" "m" in
  let ops := [Op_queue_commits [(mk_id [1], c); (mk_id [2], c)] 1 0;
              Op_queue_commits [(mk_id [3], c)] 0 0;
              Op_free_commits;
              Op_queue_commits [(mk_id [4], c)] 0 0] in
  (exists q, queue_run regexec commit_queue_init ops = Some q /\ queue_ok q) /\
  let q' := commits (snd (queue_commits regexec
                            (mk_log_args [(mk_id [5], c)] commit_queue_init 0 0))) in
  queue_ok q' /\ exists new, head q' = head commit_queue_init ++ new.
Proof.
  cbn zeta. split.
  - apply (proj1 (commit_queue_idx_contiguous (fun _ : string => 1))).
    unfold INT_MAX. cbn. lia.
  - apply (proj2 (commit_queue_idx_contiguous (fun _ : string => 1))).
    + apply queue_ok_init.
    + unfold INT_MAX. cbn. lia.
Defined.

(** ** Object record header *)

Lemma fgetc_at (f : FILE) (b : Z) :
  0 <= f_pos f ->
  nth_error (f_data f) (Z.to_nat (f_pos f)) = Some b ->
  fgetc f = Some (wrap_u8 b, mkFILE (f_data f) (f_pos f + 1)).
Proof.
  intros Hpos Hb. unfold fgetc.
  destruct (Z.ltb_spec (f_pos f) 0); [lia |]. now rewrite Hb.
Qed.

(** As long as the bytes read have the continuation bit set and fewer than
    ten were read, the loop goes on to the next byte. *)
Lemma parse_object_type_and_size_loop_more (n : nat) :
  forall fuel i t s f,
    0 <= i -> i + Z.of_nat n <= 10 -> 0 <= f_pos f ->
    (forall k, (k < n)%nat ->
       exists b, nth_error (f_data f) (Z.to_nat (f_pos f) + k) = Some b /\
                 Z.land (wrap_u8 b) GOT_PACK_OBJ_SIZE_MORE <> 0) ->
    exists t' s',
      parse_object_type_and_size_loop (n + fuel) i t s f
      = parse_object_type_and_size_loop fuel (i + Z.of_nat n) t' s'
          (mkFILE (f_data f) (f_pos f + Z.of_nat n)).
Proof.
  induction n as [| n IH]; intros fuel i t s f Hi Hn Hpos Hmore.
  - exists t, s. cbn [Nat.add Z.of_nat]. rewrite !Z.add_0_r.
    destruct f; reflexivity.
  - cbn [Nat.add parse_object_type_and_size_loop].
    destruct (Z.gtb_spec i 9); [lia |].
    destruct (Hmore 0%nat) as (b & Hb & Hbit); [lia |].
    rewrite Nat.add_0_r in Hb.
    rewrite (fgetc_at f b Hpos Hb).
    destruct (Z.eqb_spec (Z.land (wrap_u8 b) GOT_PACK_OBJ_SIZE_MORE) 0);
      [contradiction |].
    set (ts := if i =? 0 then _ else _). destruct ts as [t1 s1].
    destruct (IH fuel (i + 1) t1 s1 (mkFILE (f_data f) (f_pos f + 1)))
      as (t' & s' & Heq); cbn [f_data f_pos]; try lia.
    + intros k Hk. destruct (Hmore (S k)) as (b' & Hb' & Hbit'); [lia |].
      exists b'. split; [| exact Hbit'].
      rewrite <- Hb'. f_equal. lia.
    + exists t', s'. rewrite Heq. cbn [f_data f_pos].
      replace (i + 1 + Z.of_nat n) with (i + Z.of_nat (S n)) by lia.
      replace (f_pos f + 1 + Z.of_nat n) with (f_pos f + Z.of_nat (S n)) by lia.
      reflexivity.
Qed.

(** C5, as the code has it: when the continuation bit is set on each of the
    first ten bytes of the header, [parse_object_type_and_size] fails with
    GOT_ERR_NO_SPACE; no header of more than ten bytes is accepted. *)
Theorem parse_object_type_and_size_long_header :
  forall f : FILE,
    0 <= f_pos f ->
    (forall k, (k < 10)%nat ->
       exists b, nth_error (f_data f) (Z.to_nat (f_pos f) + k) = Some b /\
                 Z.land (wrap_u8 b) GOT_PACK_OBJ_SIZE_MORE <> 0) ->
    parse_object_type_and_size f = Some (Err GOT_ERR_NO_SPACE).
Proof.
  intros f Hpos Hmore. unfold parse_object_type_and_size.
  destruct (parse_object_type_and_size_loop_more 10 1 0 0 0 f)
    as (t' & s' & Heq); try lia; [exact Hmore |].
  change 11%nat with (10 + 1)%nat. rewrite Heq. reflexivity.
Qed.

(** Ten bytes with the continuation bit set, then a byte without it. *)
Lemma parse_object_type_and_size_long_header_witness :
  parse_object_type_and_size (mkFILE (repeat 0x80 10 ++ [0x01]) 0)
  = Some (Err GOT_ERR_NO_SPACE).
Proof.
  apply parse_object_type_and_size_long_header; cbn [f_pos f_data]; [lia |].
  intros k Hk. exists 0x80.
  do 10 (destruct k as [| k]; [split; [reflexivity | discriminate] |]). lia.
Defined.

(** C5 does not hold as the spec states it: a header of ten bytes, the
    continuation bit set on the first nine, is accepted (a blob of size 1). *)
Lemma parse_object_type_and_size_ten_bytes :
  parse_object_type_and_size
    (mkFILE [0xb1; 0x80; 0x80; 0x80; 0x80; 0x80; 0x80; 0x80; 0x80; 0x00] 0)
  = Some (Ok (GOT_OBJ_TYPE_BLOB, 1, 10,
              mkFILE [0xb1; 0x80; 0x80; 0x80; 0x80; 0x80; 0x80; 0x80; 0x80; 0x00] 10)).
Proof.
  vm_compute. reflexivity.
Qed.

(** [parse_object_type_and_size] always returns: eleven turns are enough. *)
Lemma parse_object_type_and_size_loop_total (fuel : nat) :
  forall i t s f, (0 < fuel)%nat -> 10 - i < Z.of_nat fuel ->
    parse_object_type_and_size_loop fuel i t s f <> None.
Proof.
  induction fuel as [| fuel IH]; intros i t s f Hi Hfuel; [lia |].
  cbn [parse_object_type_and_size_loop].
  destruct (Z.gtb_spec i 9); [discriminate |].
  destruct (fgetc f) as [[b f'] |]; [| discriminate].
  set (ts := if i =? 0 then _ else _). destruct ts as [t1 s1].
  destruct (_ =? 0); [discriminate |].
  apply IH; lia.
Qed.

Lemma parse_object_type_and_size_total (f : FILE) :
  parse_object_type_and_size f <> None.
Proof.
  apply parse_object_type_and_size_loop_total; cbn; lia.
Qed.

(** ** Offset-delta base *)

Lemma parse_negative_offset_loop_total (fuel : nat) :
  forall i o f, (0 < fuel)%nat -> 9 - i < Z.of_nat fuel ->
    parse_negative_offset_loop fuel i o f <> None.
Proof.
  induction fuel as [| fuel IH]; intros i o f Hi Hfuel; [lia |].
  cbn [parse_negative_offset_loop].
  destruct (Z.gtb_spec i 8); [discriminate |].
  destruct (fgetc f) as [[b f'] |]; [| discriminate].
  destruct (_ =? 0); [discriminate |].
  apply IH; lia.
Qed.

Lemma parse_negative_offset_total (f : FILE) :
  parse_negative_offset f <> None.
Proof.
  apply parse_negative_offset_loop_total; cbn; lia.
Qed.

(** ** Pack index lookup *)

Lemma memcmp_refl (n : nat) : forall a, memcmp a a n = 0.
Proof.
  induction n as [| n IH]; intros a; [reflexivity |].
  destruct a as [| x a]; [reflexivity |].
  cbn [memcmp]. rewrite Z.eqb_refl. apply IH.
Qed.

Lemma memcmp_eq (n : nat) :
  forall a b, List.length a = n -> List.length b = n ->
              memcmp a b n = 0 -> a = b.
Proof.
  induction n as [| n IH]; intros a b Ha Hb Hcmp.
  - destruct a, b; try discriminate. reflexivity.
  - destruct a as [| x a], b as [| y b]; try discriminate.
    cbn [memcmp] in Hcmp. cbn [List.length] in *.
    destruct (Z.eqb_spec x y) as [-> | Hne]; [| lia].
    f_equal. apply IH; congruence.
Qed.

(** A lookup that finds an index finds the id there. *)
Lemma get_object_idx_loop_sound (fuel : nat) :
  forall p id totobj i r,
    get_object_idx_loop fuel p id totobj i = Some (Ok r) -> r <> -1 ->
    exists oid, nth_error (sorted_ids p) (Z.to_nat r) = Some oid /\
                got_object_id_cmp id oid = 0.
Proof.
  induction fuel as [| fuel IH]; intros p id totobj i r Hr Hfound; [discriminate |].
  cbn [get_object_idx_loop] in Hr.
  destruct (wrap_u32 i <? totobj); [| congruence].
  destruct (i <? 0); [discriminate |].
  destruct (nth_error (sorted_ids p) (Z.to_nat i)) as [oid |] eqn:Hoid;
    [| discriminate].
  destruct (Z.eqb_spec (got_object_id_cmp id oid) 0) as [Hz | Hnz].
  - injection Hr as <-. exists oid. split; assumption.
  - destruct (got_object_id_cmp id oid >? 0); [congruence |].
    apply (IH _ _ _ _ _ Hr Hfound).
Qed.

Lemma get_object_idx_sound (p : got_packidx_v2_hdr) (id : got_object_id) (r : Z) :
  get_object_idx p id = Some (Ok r) -> r <> -1 ->
  exists oid, nth_error (sorted_ids p) (Z.to_nat r) = Some oid /\
              got_object_id_cmp id oid = 0.
Proof.
  unfold get_object_idx. apply get_object_idx_loop_sound.
Qed.

(** An id that is not in the index is not found. *)
Lemma get_object_idx_loop_absent (fuel : nat) :
  forall p id totobj i,
    totobj = Z.of_nat (List.length (sorted_ids p)) -> totobj < 2 ^ 31 ->
    - 2 ^ 31 <= i < 2 ^ 31 ->
    (i < 0 \/ totobj - i < Z.of_nat fuel) -> (0 < fuel)%nat ->
    (forall oid, In oid (sorted_ids p) -> got_object_id_cmp id oid <> 0) ->
    get_object_idx_loop fuel p id totobj i = Some (Ok (-1)).
Proof.
  induction fuel as [| fuel IH]; intros p id totobj i Htot Hsmall Hi Hfuel Hpos Habs;
    [lia |].
  cbn [get_object_idx_loop].
  destruct (Z.ltb_spec (wrap_u32 i) totobj) as [Hlt | Hge]; [| reflexivity].
  assert (Hi0 : 0 <= i).
  { destruct (Z.lt_ge_cases i 0) as [Hneg | ?]; [| assumption].
    exfalso. unfold wrap_u32 in Hlt.
    replace i with (i + 2 ^ 32 + (-1) * 2 ^ 32) in Hlt by lia.
    rewrite Z.mod_add in Hlt by lia. rewrite Z.mod_small in Hlt; lia. }
  unfold wrap_u32 in Hlt. rewrite Z.mod_small in Hlt by lia.
  destruct (Z.ltb_spec i 0); [lia |].
  destruct (nth_error (sorted_ids p) (Z.to_nat i)) as [oid |] eqn:Hoid.
  - destruct (Z.eqb_spec (got_object_id_cmp id oid) 0) as [Hz | Hnz].
    + exfalso. apply (Habs oid); [| exact Hz]. eapply nth_error_In, Hoid.
    + destruct (got_object_id_cmp id oid >? 0); [reflexivity |].
      rewrite wrap_i32_small by lia.
      apply IH; auto; lia.
  - apply nth_error_None in Hoid. lia.
Qed.

Lemma get_object_idx_absent (p : got_packidx_v2_hdr) (id : got_object_id) :
  betoh32 (word_at (fanout_table p) 0xff) = Z.of_nat (List.length (sorted_ids p)) ->
  Z.of_nat (List.length (sorted_ids p)) < 2 ^ 31 ->
  (forall oid, In oid (sorted_ids p) -> got_object_id_cmp id oid <> 0) ->
  get_object_idx p id = Some (Ok (-1)).
Proof.
  intros Htot Hsmall Habs. unfold get_object_idx. rewrite Htot.
  set (i := if _ >? 0 then _ else 0).
  assert (Hi : - 2 ^ 31 <= i < 2 ^ 31).
  { unfold i. destruct (_ >? 0); [| lia].
    unfold wrap_i32. pose proof (Z.mod_pos_bound
      (betoh32 (word_at (fanout_table p)
         (wrap_u8 (nth 0 (sha1 id) 0) - 1)) + 2 ^ 31) (2 ^ 32)). lia. }
  apply get_object_idx_loop_absent; auto; try lia.
Qed.

(** C1: in the well-formed index of scenario S1 the id 42..ff is at index 2,
    the second of its bucket; the lookup compares it with the first id of the
    bucket, finds it above that id, leaves the loop and returns -1.  The
    first id of the bucket is found, and an id that is in no bucket is not. *)
Theorem get_object_idx_second_in_bucket :
  packidx_wf packidx_S1 = true /\
  nth_error (sorted_ids packidx_S1) 2 = Some id_42_ff /\
  get_object_idx packidx_S1 id_42_ff = Some (Ok (-1)) /\
  get_object_idx packidx_S1 id_42_00 = Some (Ok 1) /\
  get_object_idx packidx_S1 id_ff = Some (Ok (-1)).
Proof.
  repeat split; vm_compute; reflexivity.
Qed.

(** ** Extraction of plain objects *)

Lemma firstn_plus {A : Type} (a b : nat) :
  forall l : list A, firstn (a + b) l = firstn a l ++ firstn b (skipn a l).
Proof.
  induction a as [| a IH]; intros l; [reflexivity |].
  destruct l as [| x l]; cbn [Nat.add firstn skipn app].
  - now rewrite firstn_nil.
  - now rewrite IH.
Qed.

Lemma fread_item_ok (len : Z) (f : FILE) :
  0 <= f_pos f -> 0 <= len ->
  f_pos f + len <= Z.of_nat (List.length (f_data f)) ->
  fread_item len f
  = Some (firstn (Z.to_nat len) (skipn (Z.to_nat (f_pos f)) (f_data f)),
          mkFILE (f_data f) (f_pos f + len)).
Proof.
  intros Hpos Hlen Hfit. unfold fread_item.
  destruct (Z.ltb_spec (f_pos f) 0); [lia |].
  destruct (Z.ltb_spec len 0); [lia |]. cbn [orb].
  rewrite length_skipn.
  destruct (Z.leb_spec len
              (Z.of_nat (List.length (f_data f) - Z.to_nat (f_pos f))));
    [reflexivity | lia].
Qed.

Lemma fread_item_short (len : Z) (f : FILE) :
  0 <= f_pos f -> 0 < len ->
  f_pos f + len > Z.of_nat (List.length (f_data f)) ->
  fread_item len f = None.
Proof.
  intros Hpos Hlen Hfit. unfold fread_item.
  destruct ((f_pos f <? 0) || (len <? 0)); [reflexivity |].
  rewrite length_skipn.
  destruct (Z.leb_spec len
              (Z.of_nat (List.length (f_data f) - Z.to_nat (f_pos f))));
    [lia | reflexivity].
Qed.

Lemma MIN_spec (a b : Z) : MIN a b = Z.min a b.
Proof.
  unfold MIN. destruct (Z.ltb_spec a b); lia.
Qed.

(** With [size] bytes left in the pack file, the loop copies them to the end
    of the output stream, 2048 at a time, and rewinds. *)
Lemma dump_plain_object_loop_ok (fuel : nat) :
  forall infile size outfile,
    0 <= size < 2 ^ 64 -> 0 <= f_pos infile ->
    f_pos infile + size <= Z.of_nat (List.length (f_data infile)) ->
    size < Z.of_nat fuel ->
    f_pos outfile = Z.of_nat (List.length (f_data outfile)) ->
    dump_plain_object_loop fuel infile size outfile
    = Some (Ok (mkFILE (f_data infile) (f_pos infile + size),
                mkFILE (f_data outfile
                        ++ firstn (Z.to_nat size)
                             (skipn (Z.to_nat (f_pos infile)) (f_data infile)))
                       0)).
Proof.
  induction fuel as [| fuel IH]; intros infile size outfile Hsize Hpos Hfit Hfuel Hout;
    [lia |].
  cbn [dump_plain_object_loop].
  destruct (Z.gtb_spec size 0) as [Hgt | Hle].
  - rewrite MIN_spec. set (len := Z.min size 2048).
    assert (Hlen : 1 <= len <= size) by (unfold len; lia).
    rewrite fread_item_ok by lia.
    set (chunk := firstn (Z.to_nat len)
                    (skipn (Z.to_nat (f_pos infile)) (f_data infile))).
    assert (Hchunk : List.length chunk = Z.to_nat len).
    { unfold chunk. apply firstn_length_le. rewrite length_skipn. lia. }
    unfold fwrite_item. rewrite Hout, Nat2Z.id.
    rewrite firstn_all, skipn_all2, app_nil_r by lia.
    rewrite wrap_u64_small by lia.
    rewrite IH; cbn [f_data f_pos]; try lia.
    + unfold rewind. cbn [f_data f_pos]. do 3 f_equal.
      * f_equal. lia.
      * rewrite <- app_assoc. f_equal.
        replace (Z.to_nat size) with (Z.to_nat len + Z.to_nat (size - len))%nat
          by lia.
        rewrite firstn_plus. unfold chunk. f_equal. f_equal.
        rewrite skipn_skipn. do 2 f_equal. lia.
    + rewrite length_app, Hchunk. lia.
  - replace size with 0 by lia. cbn [Z.to_nat firstn].
    rewrite app_nil_r, Z.add_0_r. unfold rewind. destruct infile; reflexivity.
Qed.

(** With fewer than [size] bytes left, it fails with GOT_ERR_BAD_PACKFILE. *)
Lemma dump_plain_object_loop_short (fuel : nat) :
  forall infile size outfile,
    0 < size < 2 ^ 64 -> 0 <= f_pos infile ->
    f_pos infile + size > Z.of_nat (List.length (f_data infile)) ->
    size < Z.of_nat fuel ->
    dump_plain_object_loop fuel infile size outfile
    = Some (Err GOT_ERR_BAD_PACKFILE).
Proof.
  induction fuel as [| fuel IH]; intros infile size outfile Hsize Hpos Hfit Hfuel;
    [lia |].
  cbn [dump_plain_object_loop].
  destruct (Z.gtb_spec size 0) as [Hgt | Hle]; [| lia].
  rewrite MIN_spec. set (len := Z.min size 2048).
  assert (Hlen : 1 <= len <= size) by (unfold len; lia).
  destruct (Z.le_gt_cases (f_pos infile + len)
              (Z.of_nat (List.length (f_data infile)))) as [Hin | Hout].
  - rewrite fread_item_ok by lia. unfold fwrite_item.
    rewrite wrap_u64_small by lia.
    apply IH; cbn [f_data f_pos]; lia.
  - rewrite fread_item_short by lia. reflexivity.
Qed.

(** C2, as the code has it: for a packed commit, tree or blob, the stream returned
    holds the [size] bytes that are in the pack file at the object's offset,
    as they are, and is rewound; when the size is not 0 and fewer bytes are
    left in the file the extraction fails with GOT_ERR_BAD_PACKFILE. *)
Theorem got_packfile_extract_object_plain :
  forall got_object_open got_delta_apply
         (fs : filesystem) (obj : got_object) (repo : got_repository)
         (data : list Z),
    Z.land (obj_flags obj) GOT_OBJ_FLAG_PACKED <> 0 ->
    obj_type obj = GOT_OBJ_TYPE_COMMIT \/ obj_type obj = GOT_OBJ_TYPE_TREE
      \/ obj_type obj = GOT_OBJ_TYPE_BLOB ->
    fs_tmp fs = true ->
    fs_file fs (obj_path_packfile obj) = Some data ->
    0 <= obj_pack_offset obj ->
    0 <= obj_size obj < 2 ^ 64 ->
    got_packfile_extract_object got_object_open got_delta_apply fs obj repo
    = Some (if (obj_size obj =? 0)
               || (obj_pack_offset obj + obj_size obj <=? Z.of_nat (List.length data))
            then Ok (mkFILE (firstn (Z.to_nat (obj_size obj))
                               (skipn (Z.to_nat (obj_pack_offset obj)) data)) 0)
            else Err GOT_ERR_BAD_PACKFILE).
Proof.
  intros goo gda fs obj repo data Hflags Htype Htmp Hfile Hoff Hsize.
  unfold got_packfile_extract_object.
  destruct (Z.eqb_spec (Z.land (obj_flags obj) GOT_OBJ_FLAG_PACKED) 0);
    [contradiction |].
  unfold got_opentemp, fopen, fseeko. rewrite Htmp, Hfile.
  destruct (Z.ltb_spec (obj_pack_offset obj) 0); [lia |].
  assert (Hplain : (obj_type obj =? GOT_OBJ_TYPE_COMMIT)
                   || (obj_type obj =? GOT_OBJ_TYPE_TREE)
                   || (obj_type obj =? GOT_OBJ_TYPE_BLOB) = true).
  { destruct Htype as [-> | [-> | ->]]; reflexivity. }
  rewrite Hplain. unfold dump_plain_object. cbn [f_data f_pos].
  destruct (Z.eqb_spec (obj_size obj) 0) as [Hzero | Hnz]; cbn [orb].
  { rewrite Hzero. reflexivity. }
  destruct (Z.leb_spec (obj_pack_offset obj + obj_size obj)
              (Z.of_nat (List.length data))) as [Hfit | Hshort].
  - rewrite dump_plain_object_loop_ok; cbn [f_data f_pos List.length]; try lia.
    reflexivity.
  - rewrite dump_plain_object_loop_short; cbn [f_data f_pos]; try lia.
    reflexivity.
Qed.

(** The blob of [pack_one_blob]: the stream holds the first byte of the
    deflated payload. *)
Lemma got_packfile_extract_object_plain_witness :
  got_packfile_extract_object (fun _ _ => Err GOT_ERR_NO_OBJ)
    (fun _ _ _ _ _ => Err GOT_ERR_NOT_IMPL)
    fs_one_blob obj_one_blob (mk_repo "objects/pack")
  = Some (Ok (mkFILE [0x78] 0)).
Proof.
  apply (got_packfile_extract_object_plain _ _ fs_one_blob obj_one_blob
           (mk_repo "objects/pack") pack_one_blob).
  - vm_compute. discriminate.
  - right. right. reflexivity.
  - reflexivity.
  - reflexivity.
  - vm_compute. discriminate.
  - vm_compute. split; [discriminate | reflexivity].
Defined.

(** C2 does not hold as the spec states it: the payload of the blob
    inflates to the letter a, and the stream extracted holds the byte 0x78
    instead. *)
Lemma got_packfile_extract_object_not_inflated :
  inflate_stored (skipn 13 pack_one_blob) = Some [0x61] /\
  got_packfile_extract_object (fun _ _ => Err GOT_ERR_NO_OBJ)
    (fun _ _ _ _ _ => Err GOT_ERR_NOT_IMPL)
    fs_one_blob obj_one_blob (mk_repo "objects/pack")
  = Some (Ok (mkFILE [0x78] 0)) /\
  [0x78] <> [0x61].
Proof.
  repeat split; try (vm_compute; reflexivity). discriminate.
Qed.

(** ** Opening a pack index *)

(** [verify_fanout_table] reads the entries 0 to 254 only. *)
Lemma verify_fanout_table_loop_ext (n : nat) :
  forall i t1 t2,
    (forall k, i <= k <= i + Z.of_nat n -> word_at t1 k = word_at t2 k) ->
    verify_fanout_table_loop n i t1 = verify_fanout_table_loop n i t2.
Proof.
  induction n as [| n IH]; intros i t1 t2 Hext; [reflexivity |].
  cbn [verify_fanout_table_loop].
  rewrite (Hext i), (Hext (i + 1)) by lia.
  destruct (_ >? _); [reflexivity |].
  apply IH. intros k Hk. apply Hext. lia.
Qed.

Lemma verify_fanout_table_ext (t1 t2 : list (list Z)) :
  (forall k, 0 <= k <= 254 -> word_at t1 k = word_at t2 k) ->
  verify_fanout_table t1 = verify_fanout_table t2.
Proof.
  intros Hext. apply verify_fanout_table_loop_ext.
  intros k Hk. apply Hext. cbn in Hk. lia.
Qed.

Lemma length_20 (d : list Z) :
  List.length d = 20%nat ->
  exists d0 d1 d2 d3 d4 d5 d6 d7 d8 d9 d10 d11 d12 d13 d14 d15 d16 d17 d18 d19,
    d = [d0; d1; d2; d3; d4; d5; d6; d7; d8; d9;
         d10; d11; d12; d13; d14; d15; d16; d17; d18; d19].
Proof.
  intros H.
  do 20 (destruct d as [| ? d]; [discriminate |]).
  destruct d; [| discriminate].
  repeat eexists.
Qed.

(** C4: whatever the digest function, the index file whose fan-out table
    falls from 1 at entry 254 to 0 at entry 255, with its checksum right, is
    opened without error: [verify_fanout_table] accepts the table. *)
Theorem got_packidx_open_fanout_drop :
  forall SHA1 : list Z -> list Z,
    (forall bytes, List.length (SHA1 bytes) = 20%nat) ->
    let digest := SHA1 packidx_body_fanout_drop in
    let p := packidx_fanout_drop digest in
    got_packidx_open SHA1 (fs_fanout_drop digest) "objects/pack/pack-a.idx"
    = Ok p /\
    verify_fanout_table (fanout_table p) = Ok tt /\
    betoh32 (word_at (fanout_table p) 254) = 1 /\
    betoh32 (word_at (fanout_table p) 255) = 0.
Proof.
  intros SHA1 Hlen. cbn zeta.
  split; [| repeat split; vm_compute; reflexivity].
  destruct (length_20 _ (Hlen packidx_body_fanout_drop))
    as (d0 & d1 & d2 & d3 & d4 & d5 & d6 & d7 & d8 & d9 & d10 & d11 & d12 & d13
        & d14 & d15 & d16 & d17 & d18 & d19 & Hd).
  assert (Hm : memcmp [d0; d1; d2; d3; d4; d5; d6; d7; d8; d9;
                       d10; d11; d12; d13; d14; d15; d16; d17; d18; d19]
                 (SHA1 packidx_body_fanout_drop) 20 = 0).
  { rewrite Hd. apply memcmp_refl. }
  rewrite Hd. clear Hd. unfold got_packidx_open.
  revert Hm. generalize memcmp. intros mc Hm.
  vm_compute in Hm. vm_compute. rewrite Hm. reflexivity.
Qed.

Lemma got_packidx_open_fanout_drop_witness :
  got_packidx_open sum_digest
    (fs_fanout_drop (sum_digest packidx_body_fanout_drop))
    "objects/pack/pack-a.idx"
  = Ok (packidx_fanout_drop (sum_digest packidx_body_fanout_drop)).
Proof.
  apply (got_packidx_open_fanout_drop sum_digest).
  intros bytes. apply repeat_length.
Defined.

(** ** The loops that take fuel have enough of it *)

Lemma wrap_i32_range (z : Z) : - 2 ^ 31 <= wrap_i32 z < 2 ^ 31.
Proof.
  unfold wrap_i32. pose proof (Z.mod_pos_bound (z + 2 ^ 31) (2 ^ 32)). lia.
Qed.

Lemma get_object_idx_loop_total (fuel : nat) :
  forall p id totobj i,
    - 2 ^ 31 <= i < 2 ^ 31 ->
    (i < 0 \/ totobj - i < Z.of_nat fuel) -> (0 < fuel)%nat ->
    get_object_idx_loop fuel p id totobj i <> None.
Proof.
  induction fuel as [| fuel IH]; intros p id totobj i Hi Hfuel Hpos; [lia |].
  cbn [get_object_idx_loop].
  destruct (Z.ltb_spec (wrap_u32 i) totobj) as [Hlt | Hge]; [| discriminate].
  destruct (Z.ltb_spec i 0) as [Hneg | Hnn]; [discriminate |].
  unfold wrap_u32 in Hlt. rewrite Z.mod_small in Hlt by lia.
  destruct (nth_error (sorted_ids p) (Z.to_nat i)) as [oid |]; [| discriminate].
  destruct (got_object_id_cmp id oid =? 0); [discriminate |].
  destruct (got_object_id_cmp id oid >? 0); [discriminate |].
  apply IH; [apply wrap_i32_range | | lia].
  destruct (Z.lt_ge_cases (i + 1) (2 ^ 31)) as [Hsmall | Hbig].
  - right. rewrite wrap_i32_small by lia. lia.
  - left. replace (i + 1) with (2 ^ 31) by lia. vm_compute. reflexivity.
Qed.

Lemma get_object_idx_total (p : got_packidx_v2_hdr) (id : got_object_id) :
  get_object_idx p id <> None.
Proof.
  unfold get_object_idx.
  set (totobj := betoh32 (word_at (fanout_table p) 0xff)).
  assert (Htot : 0 <= totobj).
  { unfold totobj, betoh32, wrap_u32. apply Z.mod_pos_bound. lia. }
  set (i := if _ >? 0 then _ else 0).
  assert (Hi : - 2 ^ 31 <= i < 2 ^ 31).
  { unfold i. destruct (_ >? 0); [apply wrap_i32_range | lia]. }
  apply get_object_idx_loop_total; [exact Hi | | lia].
  destruct (Z.lt_ge_cases i 0); [left; assumption | right; lia].
Qed.

Lemma search_packidx_total (SHA1 : list Z -> list Z) (fs : filesystem)
    (repo : got_repository) (id : got_object_id) :
  search_packidx SHA1 fs repo id <> None.
Proof.
  unfold search_packidx.
  destruct (fs_dir fs (path_objects_pack repo)) as [dents |]; [| discriminate].
  induction dents as [| d dents IH]; [discriminate |].
  cbn [search_packidx_loop].
  destruct (negb (is_packidx_filename d _)); [exact IH |].
  destruct (got_packidx_open SHA1 fs _) as [px | e |]; try discriminate.
  pose proof (get_object_idx_total px id) as Hidx.
  destruct (get_object_idx px id) as [[ix | e |] |]; try discriminate;
    [| contradiction].
  destruct (negb (ix =? -1)); [discriminate | exact IH].
Qed.

(** Finding the base of a delta always returns: only the recursion of
    [resolve_delta_chain] can go on without end. *)
Lemma delta_base_total (SHA1 : list Z -> list Z) (fs : filesystem)
    (repo : got_repository) (packfile : FILE) (path : string) (t off : Z) :
  delta_base SHA1 fs repo packfile path t off <> None.
Proof.
  unfold delta_base.
  destruct (t =? GOT_OBJ_TYPE_OFFSET_DELTA).
  - unfold resolve_offset_delta, parse_offset_delta.
    pose proof (parse_negative_offset_total packfile) as Hneg.
    destruct (parse_negative_offset packfile) as [[[[o l] f1] | e |] |];
      try discriminate; [| contradiction].
    destruct (wrap_i64 (off - o) <=? 0); [discriminate |].
    destruct (fseeko f1 (wrap_i64 (off - o))) as [f2 |]; [| discriminate].
    pose proof (parse_object_type_and_size_total f2) as Hhdr.
    destruct (parse_object_type_and_size f2)
      as [[[[[bt bs] bl] f3] | e |] |]; try discriminate. contradiction.
  - unfold resolve_ref_delta.
    destruct (fread_item 20 packfile) as [[idb f1] |]; [| discriminate].
    pose proof (search_packidx_total SHA1 fs repo (mk_id idb)) as Hsearch.
    destruct (search_packidx SHA1 fs repo (mk_id idb)) as [[[px ix] | e |] |];
      try discriminate; [| contradiction].
    destruct (get_object_offset px ix) as [base | e |]; try discriminate.
    destruct (base =? -1); [discriminate |].
    destruct (get_packfile_path repo px) as [pb | e |]; try discriminate.
    destruct (fopen fs pb) as [f2 |]; [| discriminate].
    destruct (fseeko f2 base) as [f3 |]; [| discriminate].
    pose proof (parse_object_type_and_size_total f3) as Hhdr.
    destruct (parse_object_type_and_size f3)
      as [[[[[bt bs] bl] f4] | e |] |]; try discriminate. contradiction.
Qed.

(** ** Delta chains *)

Section DeltaChain.

Variable SHA1 : list Z -> list Z.
Variable fs : filesystem.
Variable repo : got_repository.

(** One level of the recursion: the entry is appended; a plain type ends the
    chain, a delta type goes on with the call [delta_base] gives. *)
Lemma resolve_delta_chain_step (fuel : nat) (deltas : got_delta_chain)
    (packfile : FILE) (path : string) (t off size : Z) :
  resolve_delta_chain SHA1 (S fuel) fs deltas repo packfile path t off size
  = let deltas' := mk_chain (wrap_i32 (nentries deltas + 1))
                     (entries deltas ++ [got_delta_open path t off size]) in
    if is_plain_type t then Some (Ok deltas')
    else if is_delta_type t then
      match delta_base SHA1 fs repo packfile path t off with
      | None => None
      | Some Undefined => Some Undefined
      | Some (Err e) => Some (Err e)
      | Some (Ok bc) =>
          resolve_delta_chain SHA1 fuel fs deltas' repo (bc_packfile bc)
            (bc_path_packfile bc) (bc_type bc) (bc_offset bc) (bc_size bc)
      end
    else Some (Err GOT_ERR_NOT_IMPL).
Proof.
  cbn [resolve_delta_chain]. cbn zeta.
  destruct (is_plain_type t); [reflexivity |].
  unfold is_delta_type, delta_base.
  destruct (t =? GOT_OBJ_TYPE_OFFSET_DELTA); cbn [orb].
  - unfold resolve_offset_delta.
    destruct (parse_offset_delta packfile off) as [[[base f1] | e |] |];
      try reflexivity.
    destruct (fseeko f1 base) as [f2 |]; [| reflexivity].
    destruct (parse_object_type_and_size f2)
      as [[[[[bt bs] bl] f3] | e |] |]; reflexivity.
  - destruct (t =? GOT_OBJ_TYPE_REF_DELTA); [| reflexivity].
    unfold resolve_ref_delta.
    destruct (fread_item 20 packfile) as [[idb f1] |]; [| reflexivity].
    destruct (search_packidx SHA1 fs repo (mk_id idb)) as [[[px ix] | e |] |];
      try reflexivity.
    destruct (get_object_offset px ix) as [base | e |]; try reflexivity.
    destruct (base =? -1); [reflexivity |].
    destruct (get_packfile_path repo px) as [pb | e |]; try reflexivity.
    destruct (fopen fs pb) as [f2 |]; [| reflexivity].
    destruct (fseeko f2 base) as [f3 |]; [| reflexivity].
    destruct (parse_object_type_and_size f3)
      as [[[[[bt bs] bl] f4] | e |] |]; reflexivity.
Qed.

Lemma delta_type_not_plain (t : Z) :
  is_delta_type t = true -> is_plain_type t = false.
Proof.
  unfold is_delta_type, is_plain_type.
  destruct (Z.eqb_spec t GOT_OBJ_TYPE_OFFSET_DELTA) as [-> | ?]; [reflexivity |].
  destruct (Z.eqb_spec t GOT_OBJ_TYPE_REF_DELTA) as [-> | ?]; [reflexivity |].
  discriminate.
Qed.

Lemma resolve_delta_chain_shape (fuel : nat) :
  forall deltas packfile path t off size chain,
    resolve_delta_chain SHA1 fuel fs deltas repo packfile path t off size
    = Some (Ok chain) ->
    exists added,
      entries chain = entries deltas ++ added /\
      chain_added added (got_delta_open path t off size).
Proof.
  induction fuel as [| fuel IH]; intros deltas packfile path t off size chain Hres;
    [discriminate |].
  rewrite resolve_delta_chain_step in Hres. cbn zeta in Hres.
  destruct (is_plain_type t) eqn:Hplain.
  - injection Hres as <-. cbn [entries].
    exists [got_delta_open path t off size]. split; [reflexivity |].
    split; [reflexivity |].
    exists [], (got_delta_open path t off size). repeat split; auto.
  - destruct (is_delta_type t) eqn:Hdelta; [| discriminate].
    destruct (delta_base SHA1 fs repo packfile path t off) as [[bc | e |] |];
      try discriminate.
    destruct (IH _ _ _ _ _ _ _ Hres) as (added & Hent & Hhd & mid & last & Hadd
                                         & Hlast & Hmid).
    cbn [entries] in Hent.
    exists (got_delta_open path t off size :: added).
    split; [rewrite Hent, <- app_assoc; reflexivity |].
    split; [reflexivity |].
    exists (got_delta_open path t off size :: mid), last.
    repeat split; [rewrite Hadd; reflexivity | exact Hlast |].
    constructor; [exact Hdelta | exact Hmid].
Qed.


(** The resolution returns when the chain of base references is finite. *)
Lemma chain_ends_returns packfile path t off :
  chain_ends SHA1 fs repo packfile path t off ->
  exists fuel, forall deltas size, exists r,
    resolve_delta_chain SHA1 fuel fs deltas repo packfile path t off size = Some r.
Proof.
  induction 1 as [packfile path t off Hnd
                 | packfile path t off r Hd Hbase Hfail
                 | packfile path t off bc Hd Hbase Hends IH].
  - exists 1%nat. intros deltas size. rewrite resolve_delta_chain_step. cbn zeta.
    rewrite Hnd. destruct (is_plain_type t); eexists; reflexivity.
  - exists 1%nat. intros deltas size. rewrite resolve_delta_chain_step. cbn zeta.
    rewrite Hd, Hbase.
    destruct (is_plain_type t); [eexists; reflexivity |].
    destruct r as [bc | e |]; [exfalso; apply (Hfail bc); reflexivity | |];
      eexists; reflexivity.
  - destruct IH as [fuel IH]. exists (S fuel). intros deltas size.
    rewrite resolve_delta_chain_step. cbn zeta. rewrite Hd, Hbase.
    destruct (is_plain_type t); [eexists; reflexivity |].
    apply IH.
Qed.

(** And only then. *)
Lemma returns_chain_ends (fuel : nat) :
  forall deltas packfile path t off size r,
    resolve_delta_chain SHA1 fuel fs deltas repo packfile path t off size = Some r ->
    chain_ends SHA1 fs repo packfile path t off.
Proof.
  induction fuel as [| fuel IH]; intros deltas packfile path t off size r Hres;
    [discriminate |].
  rewrite resolve_delta_chain_step in Hres. cbn zeta in Hres.
  destruct (is_delta_type t) eqn:Hd; [| apply chain_ends_here, Hd].
  rewrite (delta_type_not_plain t Hd) in Hres.
  destruct (delta_base SHA1 fs repo packfile path t off) as [[bc | e |] |] eqn:Hbase.
  - eapply chain_ends_next; [exact Hd | exact Hbase |]. eapply IH, Hres.
  - eapply chain_ends_fail; [exact Hd | exact Hbase | discriminate].
  - eapply chain_ends_fail; [exact Hd | exact Hbase | discriminate].
  - discriminate.
Qed.

End DeltaChain.

(** [resolve_offset_delta] gives the next level the offset at which the
    record header of the base ends ([base_offset + base_tslen]), where
    [open_offset_delta_object] gives the offset of the record: from the
    second level on, the base of an offset delta is taken from the end of
    its record header.  In [pack_cycle] this leads from the delta whose
    stream is at 13 to that delta again. *)
Lemma resolve_delta_chain_cycle_loop (fuel : nat) :
  forall deltas size,
    resolve_delta_chain sum_digest fuel fs_empty deltas (mk_repo "objects/pack")
      (mkFILE pack_cycle 13) "objects/pack/pack-a.pack"
      GOT_OBJ_TYPE_OFFSET_DELTA 13 size = None.
Proof.
  induction fuel as [| fuel IH]; intros deltas size; [reflexivity |].
  rewrite resolve_delta_chain_step. cbn zeta.
  change (is_plain_type GOT_OBJ_TYPE_OFFSET_DELTA) with false.
  change (is_delta_type GOT_OBJ_TYPE_OFFSET_DELTA) with true.
  replace (delta_base sum_digest fs_empty (mk_repo "objects/pack")
             (mkFILE pack_cycle 13) "objects/pack/pack-a.pack"
             GOT_OBJ_TYPE_OFFSET_DELTA 13)
    with (Some (Ok (mk_base_call (mkFILE pack_cycle 13)
                      "objects/pack/pack-a.pack" GOT_OBJ_TYPE_OFFSET_DELTA 13 0)))
    by (vm_compute; reflexivity).
  cbn [bc_packfile bc_path_packfile bc_type bc_offset bc_size]. apply IH.
Qed.

(** So the resolution of the offset-delta at offset 14 of [pack_cycle] does
    not return, whatever the fuel, though by the format its base, the record
    at offset 12, has its own base at offset 11. *)
Lemma pack_cycle_diverges :
  ~ exists fuel r,
      resolve_delta_chain sum_digest fuel fs_empty (mk_chain 0 [])
        (mk_repo "objects/pack") (mkFILE pack_cycle 15)
        "objects/pack/pack-a.pack" GOT_OBJ_TYPE_OFFSET_DELTA 14 0 = Some r.
Proof.
  intros (fuel & r & Hres). destruct fuel as [| fuel]; [discriminate |].
  rewrite resolve_delta_chain_step in Hres. cbn zeta in Hres.
  change (is_plain_type GOT_OBJ_TYPE_OFFSET_DELTA) with false in Hres.
  change (is_delta_type GOT_OBJ_TYPE_OFFSET_DELTA) with true in Hres.
  replace (delta_base sum_digest fs_empty (mk_repo "objects/pack")
             (mkFILE pack_cycle 15) "objects/pack/pack-a.pack"
             GOT_OBJ_TYPE_OFFSET_DELTA 14)
    with (Some (Ok (mk_base_call (mkFILE pack_cycle 13)
                      "objects/pack/pack-a.pack" GOT_OBJ_TYPE_OFFSET_DELTA 13 0)))
    in Hres by (vm_compute; reflexivity).
  cbn [bc_packfile bc_path_packfile bc_type bc_offset bc_size] in Hres.
  rewrite resolve_delta_chain_cycle_loop in Hres. discriminate.
Qed.

(** ** Further facts *)

(** A fall of the fan-out table between two of the entries 0 to 254 is
    refused. *)
Lemma verify_fanout_table_loop_rejects (n : nat) :
  forall i j tbl,
    i <= j < i + Z.of_nat n ->
    betoh32 (word_at tbl j) > betoh32 (word_at tbl (j + 1)) ->
    verify_fanout_table_loop n i tbl = Err GOT_ERR_BAD_PACKIDX.
Proof.
  induction n as [| n IH]; intros i j tbl Hj Hfall; [lia |].
  cbn [verify_fanout_table_loop].
  destruct (Z.gtb_spec (betoh32 (word_at tbl i)) (betoh32 (word_at tbl (i + 1))))
    as [Hgt | Hle]; [reflexivity |].
  apply (IH (i + 1) j); [| exact Hfall].
  destruct (Z.eq_dec i j) as [-> | Hne]; lia.
Qed.

Lemma verify_fanout_table_rejects (tbl : list (list Z)) (j : Z) :
  0 <= j <= 253 ->
  betoh32 (word_at tbl j) > betoh32 (word_at tbl (j + 1)) ->
  verify_fanout_table tbl = Err GOT_ERR_BAD_PACKIDX.
Proof.
  intros Hj Hfall. apply (verify_fanout_table_loop_rejects _ 0 j); [| exact Hfall].
  cbn. lia.
Qed.

(** A negative offset of at most eight bytes is decoded without overflow:
    the value is below 2^57, so that [off - o] is a value of [off_t] for
    every offset [off] of a file. *)
Lemma parse_negative_offset_loop_bound (fuel : nat) :
  forall i o f o' len f',
    0 <= i ->
    (i = 0 \/ 0 <= o <= 2 ^ (7 * i + 1) - 3) ->
    parse_negative_offset_loop fuel i o f = Some (Ok (o', len, f')) ->
    i < len /\ (len <= 8 -> 0 <= o' <= 2 ^ (7 * len + 1) - 3).
Proof.
  induction fuel as [| fuel IH]; intros i o f o' len f' Hi Hinv Hres;
    [discriminate |].
  cbn [parse_negative_offset_loop] in Hres.
  destruct (Z.gtb_spec i 8) as [Hgt | Hle]; [discriminate |].
  destruct (fgetc f) as [[b f1] |]; [| discriminate].
  set (v := Z.land b GOT_PACK_OBJ_DELTA_OFF_VAL_MASK) in *.
  assert (Hv : 0 <= v < 128).
  { unfold v. change GOT_PACK_OBJ_DELTA_OFF_VAL_MASK with (Z.ones 7).
    rewrite Z.land_ones by lia. apply Z.mod_pos_bound. reflexivity. }
  set (o1 := if i =? 0 then v
             else wrap_i64 (wrap_i64 (Z.shiftl (wrap_i64 (o + 1)) 7) + v)) in *.
  assert (Hpow : 2 ^ (7 * (i + 1) + 1) = 2 ^ (7 * i + 1) * 128).
  { replace (7 * (i + 1) + 1) with (7 * i + 1 + 7) by lia.
    rewrite Z.pow_add_r by lia. reflexivity. }
  assert (Ho1 : i + 1 <= 8 -> 0 <= o1 <= 2 ^ (7 * (i + 1) + 1) - 3).
  { intros Hi8. unfold o1.
    destruct (Z.eqb_spec i 0) as [-> | Hnz].
    { change (2 ^ (7 * (0 + 1) + 1)) with 256. lia. }
    destruct Hinv as [? | Ho]; [lia |].
    assert (Hmono : 2 ^ (7 * i + 1) <= 2 ^ 50).
    { apply Z.pow_le_mono_r; lia. }
    rewrite (wrap_i64_small (o + 1)) by lia.
    rewrite Z.shiftl_mul_pow2 by lia. change (2 ^ 7) with 128.
    rewrite (wrap_i64_small ((o + 1) * 128)) by lia.
    rewrite wrap_i64_small by lia. lia. }
  destruct (Z.land b GOT_PACK_OBJ_DELTA_OFF_MORE =? 0).
  - injection Hres as <- <- <-. split; [lia |].
    rewrite Z.mul_1_r. exact Ho1.
  - destruct (Z.le_gt_cases (i + 1) 8) as [Hi8 | Hi9].
    + destruct (IH (i + 1) o1 f1 o' len f') as [Hlen Hbound];
        [lia | right; apply Ho1, Hi8 | exact Hres |].
      split; [lia | exact Hbound].
    + (* nine bytes were read: the next turn fails *)
      exfalso. destruct fuel as [| fuel']; [discriminate |].
      cbn [parse_negative_offset_loop] in Hres.
      destruct (Z.gtb_spec (i + 1) 8); [discriminate | lia].
Qed.

Lemma parse_negative_offset_bound (f f' : FILE) (o len : Z) :
  parse_negative_offset f = Some (Ok (o, len, f')) ->
  len <= 8 -> 0 <= o < 2 ^ 57.
Proof.
  intros Hres Hlen.
  destruct (parse_negative_offset_loop_bound 10 0 0 f o len f') as [Hpos Hbound];
    [lia | left; reflexivity | exact Hres |].
  specialize (Hbound Hlen).
  assert (2 ^ (7 * len + 1) <= 2 ^ 57) by (apply Z.pow_le_mono_r; lia).
  lia.
Qed.

(** Within [free_commits], after one [pop_commit], the entry at the head has
    [idx] 1: the queue is in order again when the loop has emptied it. *)
Lemma pop_commit_alone :
  let c := mk_commit "a" "a" "m" in
  pop_commit (mk_queue 2 [mk_entry (mk_id [1]) c 0; mk_entry (mk_id [2]) c 1])
  = Some (mk_queue 1 [mk_entry (mk_id [2]) c 1]).
Proof.
  reflexivity.
Qed.

(** The defect of the lookup in general: when the id at which the scan
    starts, the first of the bucket, is below the id looked for, the lookup
    returns -1 at once; an id is found only as the first of its bucket. *)
Lemma get_object_idx_above_first (p : got_packidx_v2_hdr) (id oid : got_object_id) :
  let id0 := wrap_u8 (nth 0 (sha1 id) 0) in
  let totobj := betoh32 (word_at (fanout_table p) 0xff) in
  let start := if id0 >? 0
               then wrap_i32 (betoh32 (word_at (fanout_table p) (id0 - 1)))
               else 0 in
  0 <= start < totobj ->
  nth_error (sorted_ids p) (Z.to_nat start) = Some oid ->
  got_object_id_cmp id oid > 0 ->
  get_object_idx p id = Some (Ok (-1)).
Proof.
  cbn zeta. intros Hstart Hoid Hcmp. unfold get_object_idx.
  cbn [get_object_idx_loop].
  set (start := if _ >? 0 then _ else 0) in *.
  set (totobj := betoh32 (word_at (fanout_table p) 255)) in *.
  assert (Htot : totobj < 2 ^ 32).
  { unfold totobj, betoh32, wrap_u32. apply Z.mod_pos_bound. lia. }
  unfold wrap_u32. rewrite Z.mod_small by lia.
  destruct (Z.ltb_spec start totobj); [| lia].
  destruct (Z.ltb_spec start 0); [lia |].
  rewrite Hoid.
  destruct (Z.eqb_spec (got_object_id_cmp id oid) 0); [lia |].
  destruct (Z.gtb_spec (got_object_id_cmp id oid) 0); [reflexivity | lia].
Qed.

(** * More properties of lib/pack.c *)

(** ** Lookup in an index *)

Lemma got_object_id_cmp_eq (id oid : got_object_id) :
  List.length (sha1 id) = 20%nat -> List.length (sha1 oid) = 20%nat ->
  got_object_id_cmp id oid = 0 -> oid = id.
Proof.
  intros Hid Hoid Hcmp. destruct id as [a], oid as [b]. cbn [sha1] in *.
  f_equal. symmetry. apply (memcmp_eq 20); assumption.
Qed.

Lemma got_object_id_cmp_refl (id : got_object_id) : got_object_id_cmp id id = 0.
Proof.
  apply memcmp_refl.
Qed.

Lemma get_object_idx_loop_found (fuel : nat) :
  forall p id totobj i r,
    get_object_idx_loop fuel p id totobj i = Some (Ok r) -> r <> -1 ->
    0 <= r /\
    exists oid, nth_error (sorted_ids p) (Z.to_nat r) = Some oid /\
                got_object_id_cmp id oid = 0.
Proof.
  induction fuel as [| fuel IH]; intros p id totobj i r Hr Hfound; [discriminate |].
  cbn [get_object_idx_loop] in Hr.
  destruct (wrap_u32 i <? totobj); [| congruence].
  destruct (Z.ltb_spec i 0) as [Hneg | Hnn]; [discriminate |].
  destruct (nth_error (sorted_ids p) (Z.to_nat i)) as [oid |] eqn:Hoid;
    [| discriminate].
  destruct (Z.eqb_spec (got_object_id_cmp id oid) 0) as [Hz | Hnz].
  - injection Hr as <-. split; [exact Hnn |]. exists oid. split; assumption.
  - destruct (got_object_id_cmp id oid >? 0); [congruence |].
    apply (IH _ _ _ _ _ Hr Hfound).
Qed.

(** X1: an index that [get_object_idx] returns, other than -1, is an index
    of [sorted_ids], and the id there is the id looked for. *)
Theorem get_object_idx_found_id :
  forall (p : got_packidx_v2_hdr) (id : got_object_id) (r : Z),
    get_object_idx p id = Some (Ok r) -> r <> -1 ->
    List.length (sha1 id) = 20%nat ->
    (forall oid, In oid (sorted_ids p) -> List.length (sha1 oid) = 20%nat) ->
    0 <= r < Z.of_nat (List.length (sorted_ids p)) /\
    nth_error (sorted_ids p) (Z.to_nat r) = Some id.
Proof.
  intros p id r Hr Hfound Hid Hids. unfold get_object_idx in Hr.
  destruct (get_object_idx_loop_found _ _ _ _ _ _ Hr Hfound)
    as (Hpos & oid & Hoid & Hcmp).
  assert (Hin : In oid (sorted_ids p)) by (eapply nth_error_In, Hoid).
  rewrite (got_object_id_cmp_eq id oid Hid (Hids oid Hin) Hcmp) in Hoid.
  split; [| exact Hoid].
  split; [exact Hpos |].
  assert (Z.to_nat r < List.length (sorted_ids p))%nat; [| lia].
  apply nth_error_Some. rewrite Hoid. discriminate.
Qed.

Lemma get_object_idx_found_id_witness :
  0 <= 1 < Z.of_nat (List.length (sorted_ids packidx_S1)) /\
  nth_error (sorted_ids packidx_S1) (Z.to_nat 1) = Some id_42_00.
Proof.
  apply (get_object_idx_found_id packidx_S1 id_42_00 1).
  - vm_compute. reflexivity.
  - discriminate.
  - reflexivity.
  - intros oid [<- | [<- | [<- | []]]]; reflexivity.
Defined.

(** X2: an id that is not among the ids of the index is not found: the
    lookup returns -1 (for an index whose last fan-out entry is the number
    of its ids, below 2^31). *)
Theorem get_object_idx_not_found :
  forall (p : got_packidx_v2_hdr) (id : got_object_id),
    betoh32 (word_at (fanout_table p) 0xff)
    = Z.of_nat (List.length (sorted_ids p)) ->
    Z.of_nat (List.length (sorted_ids p)) < 2 ^ 31 ->
    List.length (sha1 id) = 20%nat ->
    (forall oid, In oid (sorted_ids p) -> List.length (sha1 oid) = 20%nat) ->
    ~ In id (sorted_ids p) ->
    get_object_idx p id = Some (Ok (-1)).
Proof.
  intros p id Htot Hsmall Hid Hids Hnotin.
  apply get_object_idx_absent; [exact Htot | exact Hsmall |].
  intros oid Hin Hcmp. apply Hnotin.
  rewrite <- (got_object_id_cmp_eq id oid Hid (Hids oid Hin) Hcmp). exact Hin.
Qed.

Lemma get_object_idx_not_found_witness :
  get_object_idx packidx_S1 id_ff = Some (Ok (-1)).
Proof.
  apply get_object_idx_not_found.
  - vm_compute. reflexivity.
  - vm_compute. reflexivity.
  - reflexivity.
  - intros oid [<- | [<- | [<- | []]]]; reflexivity.
  - intros [H | [H | [H | []]]]; discriminate.
Defined.

(** X3: when the id at which the scan starts, the first id of the bucket, is
    lexically below the id looked for, [get_object_idx] returns -1 without
    looking at the ids that follow. *)
Theorem get_object_idx_stops_at_first :
  forall (p : got_packidx_v2_hdr) (id oid : got_object_id),
    let id0 := wrap_u8 (nth 0 (sha1 id) 0) in
    let totobj := betoh32 (word_at (fanout_table p) 0xff) in
    let start := if id0 >? 0
                 then wrap_i32 (betoh32 (word_at (fanout_table p) (id0 - 1)))
                 else 0 in
    0 <= start < totobj ->
    nth_error (sorted_ids p) (Z.to_nat start) = Some oid ->
    got_object_id_cmp id oid > 0 ->
    get_object_idx p id = Some (Ok (-1)).
Proof.
  intros p id oid. apply get_object_idx_above_first.
Qed.

Lemma get_object_idx_stops_at_first_witness :
  get_object_idx packidx_S1 id_42_ff = Some (Ok (-1)).
Proof.
  apply (get_object_idx_stops_at_first packidx_S1 id_42_ff id_42_00).
  - vm_compute. split; [discriminate | reflexivity].
  - reflexivity.
  - vm_compute. reflexivity.
Defined.

(** ** The fan-out table *)

Lemma verify_fanout_table_loop_ok (n : nat) :
  forall i tbl,
    verify_fanout_table_loop n i tbl = Ok tt <->
    (forall j, i <= j < i + Z.of_nat n ->
               betoh32 (word_at tbl j) <= betoh32 (word_at tbl (j + 1))).
Proof.
  induction n as [| n IH]; intros i tbl.
  - split; [intros _ j Hj; lia | reflexivity].
  - cbn [verify_fanout_table_loop].
    destruct (Z.gtb_spec (betoh32 (word_at tbl i)) (betoh32 (word_at tbl (i + 1))))
      as [Hgt | Hle].
    + split; [discriminate |]. intros H. specialize (H i). lia.
    + rewrite IH. split.
      * intros H j Hj. destruct (Z.eq_dec j i) as [-> | Hne]; [exact Hle |].
        apply H. lia.
      * intros H j Hj. apply H. lia.
Qed.

Lemma verify_fanout_table_loop_results (n : nat) :
  forall i tbl,
    verify_fanout_table_loop n i tbl = Ok tt \/
    verify_fanout_table_loop n i tbl = Err GOT_ERR_BAD_PACKIDX.
Proof.
  induction n as [| n IH]; intros i tbl; [left; reflexivity |].
  cbn [verify_fanout_table_loop].
  destruct (_ >? _); [right; reflexivity | apply IH].
Qed.

(** X4: [verify_fanout_table] accepts a table exactly when its entries 0 to
    254 do not fall, and fails with GOT_ERR_BAD_PACKIDX otherwise; the last
    entry, 255, is compared with nothing. *)
Theorem verify_fanout_table_spec :
  forall tbl : list (list Z),
    (verify_fanout_table tbl = Ok tt <->
     forall j, 0 <= j <= 253 ->
               betoh32 (word_at tbl j) <= betoh32 (word_at tbl (j + 1))) /\
    (verify_fanout_table tbl = Ok tt \/
     verify_fanout_table tbl = Err GOT_ERR_BAD_PACKIDX).
Proof.
  intros tbl. split.
  - unfold verify_fanout_table. rewrite verify_fanout_table_loop_ok.
    change (Z.of_nat (Z.to_nat (0xff - 1))) with 254.
    split; intros H j Hj; apply H; lia.
  - apply verify_fanout_table_loop_results.
Qed.

(** ** Record headers and negative offsets *)

Lemma lor_below_pow2 (a b n : Z) :
  0 <= n -> 0 <= a < 2 ^ n -> 0 <= b < 2 ^ n -> 0 <= Z.lor a b < 2 ^ n.
Proof.
  intros Hn Ha Hb. split; [apply Z.lor_nonneg; lia |].
  destruct (Z.eq_dec (Z.lor a b) 0) as [-> | Hnz].
  { apply Z.pow_pos_nonneg; lia. }
  assert (Hpos : 0 < Z.lor a b).
  { pose proof (proj2 (Z.lor_nonneg a b) (conj (proj1 Ha) (proj1 Hb))). lia. }
  assert (Hn0 : 0 < n).
  { destruct (Z.eq_dec n 0) as [-> | ?]; [| lia].
    change (2 ^ 0) with 1 in *.
    replace a with 0 in Hnz by lia. replace b with 0 in Hnz by lia.
    contradiction. }
  apply Z.log2_lt_pow2; [exact Hpos |].
  rewrite Z.log2_lor by lia.
  assert (Hla : Z.log2 a < n).
  { destruct (Z.eq_dec a 0) as [-> | ?]; [cbn; lia |].
    apply Z.log2_lt_pow2; lia. }
  assert (Hlb : Z.log2 b < n).
  { destruct (Z.eq_dec b 0) as [-> | ?]; [cbn; lia |].
    apply Z.log2_lt_pow2; lia. }
  lia.
Qed.

Lemma wrap_u64_range (z : Z) : 0 <= wrap_u64 z < 2 ^ 64.
Proof.
  unfold wrap_u64. apply Z.mod_pos_bound. reflexivity.
Qed.

Lemma type_bits_range (b : Z) :
  0 <= Z.shiftr (Z.land b GOT_PACK_OBJ_SIZE0_TYPE_MASK)
         GOT_PACK_OBJ_SIZE0_TYPE_MASK_SHIFT <= 7.
Proof.
  unfold GOT_PACK_OBJ_SIZE0_TYPE_MASK, GOT_PACK_OBJ_SIZE0_TYPE_MASK_SHIFT.
  rewrite Z.shiftr_land. change (Z.shiftr 0x70 4) with (Z.ones 3).
  rewrite Z.land_ones by lia.
  pose proof (Z.mod_pos_bound (Z.shiftr b 4) (2 ^ 3) eq_refl).
  change (2 ^ 3) with 8 in *. lia.
Qed.

Lemma size0_bits_range (b : Z) : 0 <= Z.land b GOT_PACK_OBJ_SIZE0_VAL_MASK < 16.
Proof.
  change GOT_PACK_OBJ_SIZE0_VAL_MASK with (Z.ones 4).
  rewrite Z.land_ones by lia. apply Z.mod_pos_bound. reflexivity.
Qed.

Lemma fgetc_inv (f f' : FILE) (b : Z) :
  fgetc f = Some (b, f') ->
  0 <= f_pos f /\ f' = mkFILE (f_data f) (f_pos f + 1) /\
  exists b0, nth_error (f_data f) (Z.to_nat (f_pos f)) = Some b0 /\
             b = wrap_u8 b0.
Proof.
  unfold fgetc. destruct (Z.ltb_spec (f_pos f) 0); [discriminate |].
  destruct (nth_error (f_data f) (Z.to_nat (f_pos f))) as [b0 |];
    [| discriminate].
  intros Heq. injection Heq as <- <-. repeat split; [assumption |].
  exists b0. split; reflexivity.
Qed.

Lemma parse_object_type_and_size_loop_facts (fuel : nat) :
  forall i t s f t' s' len f',
    0 <= i -> 0 <= t <= 7 -> 0 <= s < 2 ^ 64 ->
    parse_object_type_and_size_loop fuel i t s f = Some (Ok (t', s', len, f')) ->
    i < len <= 10 /\ 0 <= t' <= 7 /\ 0 <= s' < 2 ^ 64 /\
    f' = mkFILE (f_data f) (f_pos f + (len - i)) /\
    exists b, nth_error (f_data f) (Z.to_nat (f_pos f + (len - i) - 1)) = Some b /\
              Z.land (wrap_u8 b) GOT_PACK_OBJ_SIZE_MORE = 0.
Proof.
  induction fuel as [| fuel IH]; intros i t s f t' s' len f' Hi Ht Hs Hres;
    [discriminate |].
  cbn [parse_object_type_and_size_loop] in Hres.
  destruct (Z.gtb_spec i 9) as [Hgt | Hle]; [discriminate |].
  destruct (fgetc f) as [[b f1] |] eqn:Hget; [| discriminate].
  destruct (fgetc_inv _ _ _ Hget) as (Hpos & -> & b0 & Hb0 & ->).
  set (ts := if i =? 0 then _ else _) in Hres.
  assert (Hts : 0 <= fst ts <= 7 /\ 0 <= snd ts < 2 ^ 64).
  { unfold ts. destruct (i =? 0); cbn [fst snd].
    - split; [apply type_bits_range |].
      pose proof (size0_bits_range (wrap_u8 b0)). lia.
    - split; [exact Ht |].
      apply lor_below_pow2; [lia | exact Hs | apply wrap_u64_range]. }
  destruct ts as [t1 s1]. cbn [fst snd] in Hts.
  destruct (Z.eqb_spec (Z.land (wrap_u8 b0) GOT_PACK_OBJ_SIZE_MORE) 0) as [Hlast | Hmore].
  - injection Hres as <- <- <- <-. rewrite Z.mul_1_r.
    replace (i + 1 - i) with 1 by lia.
    repeat split; try lia.
    exists b0. split; [| exact Hlast].
    rewrite <- Hb0. f_equal. lia.
  - assert (Hi1 : 0 <= i + 1) by lia.
    destruct (IH _ _ _ _ _ _ _ _ Hi1 (proj1 Hts) (proj2 Hts) Hres)
      as (Hlen & Ht' & Hs' & Hf' & b & Hb & Hbit).
    cbn [f_data f_pos] in *.
    repeat split; try lia.
    + rewrite Hf'. f_equal. lia.
    + exists b. split; [| exact Hbit].
      rewrite <- Hb. f_equal. lia.
Qed.

(** X5: when [parse_object_type_and_size] succeeds, the header it read is 1
    to 10 bytes long, its last byte has no continuation bit, the type is a
    number from 0 to 7, the size is below 2^64, and the stream stands just
    after the header. *)
Theorem parse_object_type_and_size_result :
  forall (f f' : FILE) (t s len : Z),
    parse_object_type_and_size f = Some (Ok (t, s, len, f')) ->
    1 <= len <= 10 /\ 0 <= t <= 7 /\ 0 <= s < 2 ^ 64 /\
    f' = mkFILE (f_data f) (f_pos f + len) /\
    exists b, nth_error (f_data f) (Z.to_nat (f_pos f + len - 1)) = Some b /\
              Z.land (wrap_u8 b) GOT_PACK_OBJ_SIZE_MORE = 0.
Proof.
  intros f f' t s len Hres. unfold parse_object_type_and_size in Hres.
  assert (H0 : 0 <= 0) by lia.
  assert (H07 : 0 <= 0 <= 7) by lia.
  assert (H064 : 0 <= 0 < 2 ^ 64) by lia.
  destruct (parse_object_type_and_size_loop_facts _ _ _ _ _ _ _ _ _
              H0 H07 H064 Hres)
    as (Hlen & Ht & Hs & Hf & b & Hb & Hbit).
  rewrite Z.sub_0_r in *.
  repeat split; try lia; [exact Hf |]. exists b. split; assumption.
Qed.

Lemma parse_object_type_and_size_result_witness :
  1 <= 2 <= 10 /\ 0 <= 3 <= 7 /\ 0 <= 0x15 < 2 ^ 64 /\
  mkFILE [0xb5; 0x01; 0x78] 2 = mkFILE (f_data (mkFILE [0xb5; 0x01; 0x78] 0))
                                  (f_pos (mkFILE [0xb5; 0x01; 0x78] 0) + 2) /\
  exists b, nth_error (f_data (mkFILE [0xb5; 0x01; 0x78] 0))
              (Z.to_nat (f_pos (mkFILE [0xb5; 0x01; 0x78] 0) + 2 - 1)) = Some b /\
            Z.land (wrap_u8 b) GOT_PACK_OBJ_SIZE_MORE = 0.
Proof.
  apply (parse_object_type_and_size_result (mkFILE [0xb5; 0x01; 0x78] 0)).
  vm_compute. reflexivity.
Defined.

(** The size is put together with shifts of an [int]: in a header of six
    bytes the last byte is shifted by 32 bits, which the processor takes as
    0, and a header of five bytes whose last byte has the value 0x40 gives
    the size [2^64 - 2^31], the [int] [-2^31] as a [uint64_t]. *)
Lemma parse_object_type_and_size_int_shift :
  parse_object_type_and_size (mkFILE [0x90; 0x80; 0x80; 0x80; 0x80; 0x01] 0)
  = Some (Ok (GOT_OBJ_TYPE_COMMIT, 1, 6,
              mkFILE [0x90; 0x80; 0x80; 0x80; 0x80; 0x01] 6)) /\
  parse_object_type_and_size (mkFILE [0x90; 0x80; 0x80; 0x80; 0x40] 0)
  = Some (Ok (GOT_OBJ_TYPE_COMMIT, 2 ^ 64 - 2 ^ 31, 5,
              mkFILE [0x90; 0x80; 0x80; 0x80; 0x40] 5)).
Proof.
  split; vm_compute; reflexivity.
Qed.

Lemma parse_negative_offset_loop_pos (fuel : nat) :
  forall i o f o' len f',
    parse_negative_offset_loop fuel i o f = Some (Ok (o', len, f')) ->
    i < len <= 9 /\ f' = mkFILE (f_data f) (f_pos f + (len - i)) /\
    exists b, nth_error (f_data f) (Z.to_nat (f_pos f + (len - i) - 1)) = Some b /\
              Z.land (wrap_u8 b) GOT_PACK_OBJ_DELTA_OFF_MORE = 0.
Proof.
  induction fuel as [| fuel IH]; intros i o f o' len f' Hres; [discriminate |].
  cbn [parse_negative_offset_loop] in Hres.
  destruct (Z.gtb_spec i 8) as [Hgt | Hle]; [discriminate |].
  destruct (fgetc f) as [[b f1] |] eqn:Hget; [| discriminate].
  destruct (fgetc_inv _ _ _ Hget) as (Hpos & -> & b0 & Hb0 & ->).
  destruct (Z.eqb_spec (Z.land (wrap_u8 b0) GOT_PACK_OBJ_DELTA_OFF_MORE) 0)
    as [Hlast | Hmore].
  - injection Hres as <- <- <-. rewrite Z.mul_1_r.
    replace (i + 1 - i) with 1 by lia.
    repeat split; try lia.
    exists b0. split; [| exact Hlast].
    rewrite <- Hb0. f_equal. lia.
  - destruct (IH _ _ _ _ _ _ Hres) as (Hlen & Hf' & b & Hb & Hbit).
    cbn [f_data f_pos] in *.
    repeat split; try lia.
    + rewrite Hf'. f_equal. lia.
    + exists b. split; [| exact Hbit].
      rewrite <- Hb. f_equal. lia.
Qed.

(** X6: when [parse_negative_offset] succeeds, it read 1 to 9 bytes, the
    last of them without continuation bit, and the stream stands just after
    them; a value of at most 8 bytes is decoded without overflow and lies
    between 0 and 2^57. *)
Theorem parse_negative_offset_result :
  forall (f f' : FILE) (o len : Z),
    parse_negative_offset f = Some (Ok (o, len, f')) ->
    1 <= len <= 9 /\
    f' = mkFILE (f_data f) (f_pos f + len) /\
    (exists b, nth_error (f_data f) (Z.to_nat (f_pos f + len - 1)) = Some b /\
               Z.land (wrap_u8 b) GOT_PACK_OBJ_DELTA_OFF_MORE = 0) /\
    (len <= 8 -> 0 <= o < 2 ^ 57).
Proof.
  intros f f' o len Hres.
  destruct (parse_negative_offset_loop_pos _ _ _ _ _ _ _ Hres)
    as (Hlen & Hf & b & Hb & Hbit).
  rewrite Z.sub_0_r in *.
  split; [lia |]. split; [exact Hf |].
  split; [exists b; split; assumption |].
  intros Hle. exact (parse_negative_offset_bound _ _ _ _ Hres Hle).
Qed.

Lemma parse_negative_offset_result_witness :
  1 <= 2 <= 9 /\
  mkFILE [0x81; 0x00; 0x78] 2
  = mkFILE (f_data (mkFILE [0x81; 0x00; 0x78] 0))
      (f_pos (mkFILE [0x81; 0x00; 0x78] 0) + 2) /\
  (exists b, nth_error (f_data (mkFILE [0x81; 0x00; 0x78] 0))
               (Z.to_nat (f_pos (mkFILE [0x81; 0x00; 0x78] 0) + 2 - 1)) = Some b /\
             Z.land (wrap_u8 b) GOT_PACK_OBJ_DELTA_OFF_MORE = 0) /\
  (2 <= 8 -> 0 <= 256 < 2 ^ 57).
Proof.
  apply (parse_negative_offset_result (mkFILE [0x81; 0x00; 0x78] 0)).
  vm_compute. reflexivity.
Defined.

Lemma parse_negative_offset_loop_more (n : nat) :
  forall fuel i o f,
    0 <= i -> i + Z.of_nat n <= 9 -> 0 <= f_pos f ->
    (forall k, (k < n)%nat ->
       exists b, nth_error (f_data f) (Z.to_nat (f_pos f) + k) = Some b /\
                 Z.land (wrap_u8 b) GOT_PACK_OBJ_DELTA_OFF_MORE <> 0) ->
    exists o',
      parse_negative_offset_loop (n + fuel) i o f
      = parse_negative_offset_loop fuel (i + Z.of_nat n) o'
          (mkFILE (f_data f) (f_pos f + Z.of_nat n)).
Proof.
  induction n as [| n IH]; intros fuel i o f Hi Hn Hpos Hmore.
  - exists o. cbn [Nat.add Z.of_nat]. rewrite !Z.add_0_r.
    destruct f; reflexivity.
  - cbn [Nat.add parse_negative_offset_loop].
    destruct (Z.gtb_spec i 8); [lia |].
    destruct (Hmore 0%nat) as (b & Hb & Hbit); [lia |].
    rewrite Nat.add_0_r in Hb.
    rewrite (fgetc_at f b Hpos Hb).
    destruct (Z.eqb_spec (Z.land (wrap_u8 b) GOT_PACK_OBJ_DELTA_OFF_MORE) 0);
      [contradiction |].
    set (o1 := if i =? 0 then _ else _).
    destruct (IH fuel (i + 1) o1 (mkFILE (f_data f) (f_pos f + 1)))
      as (o' & Heq); cbn [f_data f_pos]; try lia.
    + intros k Hk. destruct (Hmore (S k)) as (b' & Hb' & Hbit'); [lia |].
      exists b'. split; [| exact Hbit'].
      rewrite <- Hb'. f_equal. lia.
    + exists o'. rewrite Heq. cbn [f_data f_pos].
      replace (i + 1 + Z.of_nat n) with (i + Z.of_nat (S n)) by lia.
      replace (f_pos f + 1 + Z.of_nat n) with (f_pos f + Z.of_nat (S n)) by lia.
      reflexivity.
Qed.

(** X7: a negative offset of more than nine bytes is refused: when the
    continuation bit is set on each of the first nine bytes,
    [parse_negative_offset] fails with GOT_ERR_NO_SPACE, and so does
    [parse_offset_delta], whatever the offset of the delta. *)
Theorem parse_negative_offset_long :
  forall (f : FILE) (off : Z),
    0 <= f_pos f ->
    (forall k, (k < 9)%nat ->
       exists b, nth_error (f_data f) (Z.to_nat (f_pos f) + k) = Some b /\
                 Z.land (wrap_u8 b) GOT_PACK_OBJ_DELTA_OFF_MORE <> 0) ->
    parse_negative_offset f = Some (Err GOT_ERR_NO_SPACE) /\
    parse_offset_delta f off = Some (Err GOT_ERR_NO_SPACE).
Proof.
  intros f off Hpos Hmore.
  assert (Hneg : parse_negative_offset f = Some (Err GOT_ERR_NO_SPACE)).
  { unfold parse_negative_offset.
    destruct (parse_negative_offset_loop_more 9 1 0 0 f) as (o' & Heq);
      try lia; [exact Hmore |].
    change 10%nat with (9 + 1)%nat. rewrite Heq. reflexivity. }
  split; [exact Hneg |]. unfold parse_offset_delta. rewrite Hneg. reflexivity.
Qed.

Lemma parse_negative_offset_long_witness :
  parse_negative_offset (mkFILE (repeat 0xff 9 ++ [0x00]) 0)
  = Some (Err GOT_ERR_NO_SPACE) /\
  parse_offset_delta (mkFILE (repeat 0xff 9 ++ [0x00]) 0) 1000
  = Some (Err GOT_ERR_NO_SPACE).
Proof.
  apply parse_negative_offset_long; cbn [f_pos f_data]; [lia |].
  intros k Hk. exists 0xff.
  do 9 (destruct k as [| k]; [split; [reflexivity | discriminate] |]). lia.
Defined.

Lemma land_wrap_u8_7f (b : Z) : Z.land (wrap_u8 b) 0x7f = Z.land b 0x7f.
Proof.
  unfold wrap_u8. change 0x7f with (Z.ones 7). rewrite !Z.land_ones by lia.
  apply Z.mod_mod_divide. exists 2. reflexivity.
Qed.

Lemma bytes_at_cons (f : FILE) (b : Z) (len : Z) :
  0 <= f_pos f -> 0 < len ->
  nth_error (f_data f) (Z.to_nat (f_pos f)) = Some b ->
  bytes_at f len = b :: bytes_at (mkFILE (f_data f) (f_pos f + 1)) (len - 1).
Proof.
  intros Hpos Hlen Hb. unfold bytes_at. cbn [f_data f_pos].
  replace (Z.to_nat len) with (S (Z.to_nat (len - 1))) by lia.
  replace (Z.to_nat (f_pos f + 1)) with (S (Z.to_nat (f_pos f))) by lia.
  generalize dependent (Z.to_nat (f_pos f)). intros n.
  generalize (f_data f). induction n as [| n IH]; intros l Hb.
  - destruct l as [| x l]; [discriminate |]. cbn in Hb. injection Hb as ->.
    reflexivity.
  - destruct l as [| x l]; [discriminate |]. cbn in Hb.
    cbn [skipn]. rewrite (IH l Hb). reflexivity.
Qed.

Lemma parse_negative_offset_loop_value (fuel : nat) :
  forall i o f o' len f',
    1 <= i -> 0 <= o <= 2 ^ (7 * i + 1) - 3 ->
    parse_negative_offset_loop fuel i o f = Some (Ok (o', len, f')) ->
    len <= 8 ->
    o' = negative_offset_more o (bytes_at f (len - i)).
Proof.
  induction fuel as [| fuel IH]; intros i o f o' len f' Hi Ho Hres Hlen;
    [discriminate |].
  pose proof (parse_negative_offset_loop_pos _ _ _ _ _ _ _ Hres) as (Hil & _).
  cbn [parse_negative_offset_loop] in Hres.
  destruct (Z.gtb_spec i 8) as [Hgt | Hle]; [discriminate |].
  destruct (fgetc f) as [[b f1] |] eqn:Hget; [| discriminate].
  destruct (fgetc_inv _ _ _ Hget) as (Hpos & -> & b0 & Hb0 & ->).
  rewrite (bytes_at_cons f b0 (len - i) Hpos ltac:(lia) Hb0).
  cbn [negative_offset_more].
  destruct (Z.eqb_spec i 0) as [Hi0 | _]; [lia |].
  change GOT_PACK_OBJ_DELTA_OFF_VAL_MASK with 0x7f in Hres.
  rewrite land_wrap_u8_7f in Hres.
  set (v := Z.land b0 0x7f) in *.
  assert (Hv : 0 <= v < 128).
  { unfold v. change 0x7f with (Z.ones 7).
    rewrite Z.land_ones by lia. apply Z.mod_pos_bound. reflexivity. }
  assert (Hmono : 2 ^ (7 * i + 1) <= 2 ^ 50).
  { apply Z.pow_le_mono_r; lia. }
  assert (Hpow : 2 ^ (7 * (i + 1) + 1) = 2 ^ (7 * i + 1) * 128).
  { replace (7 * (i + 1) + 1) with (7 * i + 1 + 7) by lia.
    rewrite Z.pow_add_r by lia. reflexivity. }
  rewrite (wrap_i64_small (o + 1)) in Hres by lia.
  rewrite Z.shiftl_mul_pow2 in * by lia. change (2 ^ 7) with 128 in *.
  rewrite (wrap_i64_small ((o + 1) * 128)) in Hres by lia.
  rewrite wrap_i64_small in Hres by lia.
  assert (Hlor : Z.lor ((o + 1) * 128) v = (o + 1) * 128 + v).
  { assert (Hland : Z.land ((o + 1) * 128) v = 0);
      [| rewrite <- (Z.lxor_lor _ _ Hland); symmetry;
         apply Z.add_nocarry_lxor; exact Hland].
    apply Z.bits_inj'. intros n Hn. rewrite Z.land_spec, Z.bits_0.
    destruct (Z.lt_ge_cases n 7) as [Hlt | Hge].
    - change 128 with (2 ^ 7). rewrite Z.mul_pow2_bits_low by lia. reflexivity.
    - unfold v. change 0x7f with (Z.ones 7). rewrite Z.land_spec.
      rewrite (Z.ones_spec_high 7 n) by lia.
      rewrite Bool.andb_false_r, Bool.andb_false_r. reflexivity. }
  rewrite Hlor.
  destruct (Z.eqb_spec (Z.land (wrap_u8 b0) GOT_PACK_OBJ_DELTA_OFF_MORE) 0)
    as [Hlast | Hmore].
  - injection Hres as <- <- <-.
    replace ((i + 1) * 1 - i - 1) with 0 by lia.
    unfold bytes_at. cbn [Z.to_nat firstn negative_offset_more]. reflexivity.
  - destruct (Z.le_gt_cases (i + 1) 8) as [Hi8 | Hi9].
    + assert (Ho1 : 0 <= (o + 1) * 128 + v <= 2 ^ (7 * (i + 1) + 1) - 3) by lia.
      rewrite (IH (i + 1) _ _ o' len f' ltac:(lia) Ho1 Hres Hlen).
      replace (len - (i + 1)) with (len - i - 1) by lia. reflexivity.
    + pose proof (parse_negative_offset_loop_pos _ _ _ _ _ _ _ Hres) as (Hil' & _).
      lia.
Qed.

Lemma parse_negative_offset_value (f f' : FILE) (o len : Z) :
  parse_negative_offset f = Some (Ok (o, len, f')) ->
  len <= 8 ->
  o = negative_offset_value (bytes_at f len).
Proof.
  intros Hres Hlen. unfold parse_negative_offset in Hres.
  pose proof (parse_negative_offset_loop_pos _ _ _ _ _ _ _ Hres) as (Hil & _).
  change 10%nat with (S 9) in Hres.
  cbn [parse_negative_offset_loop] in Hres.
  destruct (Z.gtb_spec 0 8) as [Hgt | _]; [lia |].
  destruct (fgetc f) as [[b f1] |] eqn:Hget; [| discriminate].
  destruct (fgetc_inv _ _ _ Hget) as (Hpos & -> & b0 & Hb0 & ->).
  rewrite (bytes_at_cons f b0 len Hpos ltac:(lia) Hb0).
  cbn [negative_offset_value].
  change (0 =? 0) with true in Hres. cbn iota in Hres.
  change GOT_PACK_OBJ_DELTA_OFF_VAL_MASK with 0x7f in Hres.
  rewrite land_wrap_u8_7f in Hres.
  assert (Hv : 0 <= Z.land b0 0x7f < 128).
  { change 0x7f with (Z.ones 7).
    rewrite Z.land_ones by lia. apply Z.mod_pos_bound. reflexivity. }
  destruct (Z.eqb_spec (Z.land (wrap_u8 b0) GOT_PACK_OBJ_DELTA_OFF_MORE) 0)
    as [Hlast | Hmore].
  - injection Hres as <- <- <-. reflexivity.
  - change (0 + 1) with 1 in Hres.
    apply (parse_negative_offset_loop_value 9 1 _ _ o len f');
      [lia | change (2 ^ (7 * 1 + 1)) with 256; lia | exact Hres | exact Hlen].
Qed.

(** For a negative offset of at most eight bytes, whose value by the format
    is [o], [parse_offset_delta] checks the base offset: with the delta at
    the file offset [off] it fails with GOT_ERR_BAD_PACKFILE when
    [off - o <= 0] and gives [off - o] otherwise. *)
Lemma parse_offset_delta_short (f f' : FILE) (off o len : Z) :
  parse_negative_offset f = Some (Ok (o, len, f')) ->
  len <= 8 -> 0 <= off <= INT64_MAX ->
  o = negative_offset_value (bytes_at f len) /\
  parse_offset_delta f off
  = Some (if off - o <=? 0 then Err GOT_ERR_BAD_PACKFILE
          else Ok (off - o, f')).
Proof.
  intros Hparse Hlen Hoff.
  split; [exact (parse_negative_offset_value _ _ _ _ Hparse Hlen) |].
  pose proof (parse_negative_offset_bound _ _ _ _ Hparse Hlen) as Hbound.
  unfold parse_offset_delta. rewrite Hparse. unfold INT64_MAX in Hoff.
  assert (2 ^ 57 < 2 ^ 63) by (apply Z.pow_lt_mono_r; lia).
  rewrite wrap_i64_small by lia. destruct (off - o <=? 0); reflexivity.
Qed.

(** C6: the guard of [parse_negative_offset] lets an offset of nine bytes
    through, whose value need not fit in 64 bits.  The offset
    [ff ff ff ff ff ff ff ff 7f] has the value 9295997013522923647, above
    every file offset; in [int64_t] the code gets -9150747060186627969, and
    for a delta at offset 1000 [parse_offset_delta] accepts the base offset
    9150747060186628969 in place of failing with GOT_ERR_BAD_PACKFILE. *)
Theorem parse_offset_delta_nine_bytes :
  let bytes := repeat 0xff 8 ++ [0x7f] in
  let o := negative_offset_value bytes in
  o = 9295997013522923647 /\ 1000 - o <= 0 /\
  parse_negative_offset (mkFILE bytes 0)
  = Some (Ok (-9150747060186627969, 9, mkFILE bytes 9)) /\
  parse_offset_delta (mkFILE bytes 0) 1000
  = Some (Ok (9150747060186628969, mkFILE bytes 9)).
Proof.
  cbv zeta. repeat split; vm_compute; try reflexivity. discriminate.
Qed.

(** X8: a record header or a negative offset that the end of the file cuts
    off, every byte that is there having its continuation bit set, is
    reported with GOT_ERR_BAD_PACKIDX; so is a read at or past the end. *)
Theorem parse_at_end_of_file :
  forall (f : FILE) (n : nat),
    0 <= f_pos f ->
    Z.of_nat (List.length (f_data f)) <= f_pos f + Z.of_nat n ->
    (n <= 8)%nat ->
    (forall k, (k < n)%nat ->
       exists b, nth_error (f_data f) (Z.to_nat (f_pos f) + k) = Some b /\
                 Z.land (wrap_u8 b) 0x80 <> 0) ->
    parse_object_type_and_size f = Some (Err GOT_ERR_BAD_PACKIDX) /\
    parse_negative_offset f = Some (Err GOT_ERR_BAD_PACKIDX).
Proof.
  intros f n Hpos Hend Hn Hmore.
  assert (Heof : fgetc (mkFILE (f_data f) (f_pos f + Z.of_nat n)) = None).
  { unfold fgetc. cbn [f_data f_pos].
    destruct (Z.ltb_spec (f_pos f + Z.of_nat n) 0); [reflexivity |].
    destruct (nth_error (f_data f) (Z.to_nat (f_pos f + Z.of_nat n))) eqn:Hnth;
      [| reflexivity].
    assert (Z.to_nat (f_pos f + Z.of_nat n) < List.length (f_data f))%nat.
    { apply nth_error_Some. rewrite Hnth. discriminate. }
    lia. }
  split.
  - unfold parse_object_type_and_size.
    destruct (parse_object_type_and_size_loop_more n (11 - n) 0 0 0 f)
      as (t' & s' & Heq); try lia; [exact Hmore |].
    replace 11%nat with (n + (11 - n))%nat by lia. rewrite Heq.
    destruct (11 - n)%nat as [| fuel] eqn:Hfuel; [lia |].
    cbn [parse_object_type_and_size_loop].
    destruct (Z.gtb_spec (0 + Z.of_nat n) 9); [lia |].
    rewrite Heof. reflexivity.
  - unfold parse_negative_offset.
    destruct (parse_negative_offset_loop_more n (10 - n) 0 0 f)
      as (o' & Heq); try lia; [exact Hmore |].
    replace 10%nat with (n + (10 - n))%nat by lia. rewrite Heq.
    destruct (10 - n)%nat as [| fuel] eqn:Hfuel; [lia |].
    cbn [parse_negative_offset_loop].
    destruct (Z.gtb_spec (0 + Z.of_nat n) 8); [lia |].
    rewrite Heof. reflexivity.
Qed.

Lemma parse_at_end_of_file_witness :
  parse_object_type_and_size (mkFILE [0x00; 0xb5; 0x80] 1)
  = Some (Err GOT_ERR_BAD_PACKIDX) /\
  parse_negative_offset (mkFILE [0x00; 0xb5; 0x80] 1)
  = Some (Err GOT_ERR_BAD_PACKIDX).
Proof.
  apply (parse_at_end_of_file (mkFILE [0x00; 0xb5; 0x80] 1) 2);
    cbn [f_pos f_data List.length]; try lia.
  intros k Hk.
  destruct k as [| k]; [exists 0xb5; split; [reflexivity | discriminate] |].
  destruct k as [| k]; [exists 0x80; split; [reflexivity | discriminate] |].
  lia.
Defined.

(** ** Offsets of the index *)

Lemma land_mask31_range (z : Z) :
  0 <= Z.land z GOT_PACKIDX_OFFSET_VAL_MASK < 2 ^ 31.
Proof.
  change GOT_PACKIDX_OFFSET_VAL_MASK with (Z.ones 31).
  rewrite Z.land_ones by lia. apply Z.mod_pos_bound. reflexivity.
Qed.

Lemma get_object_offset_bounds :
  forall (packidx : got_packidx_v2_hdr) (idx r : Z),
    get_object_offset packidx idx = Ok r ->
    (r = -1 \/ 0 <= r <= INT64_MAX) /\
    (large_offsets packidx = None -> r = -1 \/ 0 <= r < 2 ^ 31).
Proof.
  intros p idx r. unfold get_object_offset.
  destruct ((idx <? 0) || (Z.of_nat (List.length (offsets p)) <=? idx));
    [discriminate |].
  set (offset := betoh32 (word_at (offsets p) idx)).
  pose proof (land_mask31_range offset) as Hmask.
  destruct (Z.land offset GOT_PACKIDX_OFFSET_VAL_IS_LARGE_IDX =? 0); cbn [negb].
  - intros Hres. injection Hres as <-. unfold INT64_MAX. split; [right | right]; lia.
  - destruct (large_offsets p) as [large |].
    + destruct ((Z.land offset GOT_PACKIDX_OFFSET_VAL_MASK <? 0)
                || (Z.land offset GOT_PACKIDX_OFFSET_VAL_MASK
                    >? betoh32 (word_at (fanout_table p) 255))).
      { intros Hres. injection Hres as <-. split; [left; reflexivity | discriminate]. }
      destruct (Z.of_nat (List.length large)
                <=? Z.land offset GOT_PACKIDX_OFFSET_VAL_MASK); [discriminate |].
      set (loffset := betoh64 _).
      assert (Hl : 0 <= loffset < 2 ^ 64) by apply wrap_u64_range.
      intros Hres. injection Hres as <-.
      split; [| discriminate].
      destruct (Z.gtb_spec loffset INT64_MAX); [left; reflexivity | right; lia].
    + intros Hres. injection Hres as <-. split; left; reflexivity.
Qed.

(** X9: [get_object_offset] gives -1 or an offset that is not negative: a
    31-bit value from the offsets table, or a value of the large offsets
    table that is at most INT64_MAX; without a large offsets table every
    offset is below 2^31. *)
Theorem get_object_offset_range :
  forall (packidx : got_packidx_v2_hdr) (idx r : Z),
    get_object_offset packidx idx = Ok r ->
    (r = -1 \/ 0 <= r <= INT64_MAX) /\
    (large_offsets packidx = None -> r = -1 \/ 0 <= r < 2 ^ 31).
Proof.
  exact get_object_offset_bounds.
Qed.

Lemma get_object_offset_range_witness :
  (40 = -1 \/ 0 <= 40 <= INT64_MAX) /\
  (large_offsets packidx_S1 = None -> 40 = -1 \/ 0 <= 40 < 2 ^ 31).
Proof.
  apply (get_object_offset_range packidx_S1 1 40). reflexivity.
Defined.

(** X10: with a large offsets table of one entry per object, as
    [got_packidx_open] reads it, [get_object_offset] reads outside of the
    table exactly when the entry of the offsets table has the large flag and
    an index equal to the object count: the index is checked with
    [idx > totobj]. *)
Theorem get_object_offset_large_at_count :
  forall (packidx : got_packidx_v2_hdr) (idx : Z) (large : list (list Z)),
    0 <= idx < Z.of_nat (List.length (offsets packidx)) ->
    large_offsets packidx = Some large ->
    Z.of_nat (List.length large) = betoh32 (word_at (fanout_table packidx) 0xff) ->
    (get_object_offset packidx idx = Undefined <->
     Z.land (betoh32 (word_at (offsets packidx) idx))
       GOT_PACKIDX_OFFSET_VAL_IS_LARGE_IDX <> 0 /\
     Z.land (betoh32 (word_at (offsets packidx) idx))
       GOT_PACKIDX_OFFSET_VAL_MASK = Z.of_nat (List.length large)).
Proof.
  intros p idx large Hidx Hlarge Hlen. unfold get_object_offset.
  destruct (Z.ltb_spec idx 0); [lia |].
  destruct (Z.leb_spec (Z.of_nat (List.length (offsets p))) idx); [lia |].
  cbn [orb]. rewrite Hlarge, <- Hlen.
  set (offset := betoh32 (word_at (offsets p) idx)).
  pose proof (land_mask31_range offset) as Hmask.
  destruct (Z.eqb_spec (Z.land offset GOT_PACKIDX_OFFSET_VAL_IS_LARGE_IDX) 0)
    as [Hflag | Hflag]; cbn [negb].
  - split; [discriminate | intros [Hno _]; contradiction].
  - destruct (Z.ltb_spec (Z.land offset GOT_PACKIDX_OFFSET_VAL_MASK) 0); [lia |].
    cbn [orb].
    destruct (Z.gtb_spec (Z.land offset GOT_PACKIDX_OFFSET_VAL_MASK)
                (Z.of_nat (List.length large))) as [Hgt | Hle].
    + split; [discriminate | intros [_ Heq]; lia].
    + destruct (Z.leb_spec (Z.of_nat (List.length large))
                  (Z.land offset GOT_PACKIDX_OFFSET_VAL_MASK)) as [Hge | Hlt].
      * split; [intros _; split; [exact Hflag | lia] | reflexivity].
      * split; [discriminate | intros [_ Heq]; lia].
Qed.

Lemma get_object_offset_large_at_count_witness :
  get_object_offset packidx_large_at_count 0 = Undefined.
Proof.
  apply (get_object_offset_large_at_count packidx_large_at_count 0
           [[0; 0; 0; 1; 0; 0; 0; 0]]);
    [cbn; lia | reflexivity | reflexivity |].
  split; [vm_compute; discriminate | reflexivity].
Defined.

(** ** File names *)

Lemma string_app_assoc (a b c : string) :
  ((a ++ b) ++ c = a ++ (b ++ c))%string.
Proof.
  induction a as [| x a IH]; [reflexivity |]. cbn. rewrite IH. reflexivity.
Qed.

Lemma string_length_app (a b : string) :
  String.length (a ++ b) = (String.length a + String.length b)%nat.
Proof.
  induction a as [| x a IH]; [reflexivity |]. cbn. rewrite IH. reflexivity.
Qed.

Lemma string_prefix_app (p s : string) :
  String.prefix p s = true <-> exists r, s = (p ++ r)%string.
Proof.
  revert s. induction p as [| a p IH]; intros s.
  - destruct s; cbn; (split; [intros _; eexists; reflexivity | reflexivity]).
  - destruct s as [| b s]; cbn.
    + split; [discriminate | intros [r Hr]; discriminate].
    + destruct (ascii_dec a b) as [-> | Hne].
      * rewrite IH. split; intros [r Hr]; exists r; congruence.
      * split; [discriminate | intros [r Hr]; congruence].
Qed.

Lemma string_split_at (n : nat) (s : string) :
  (n <= String.length s)%nat ->
  exists a b, s = (a ++ b)%string /\ String.length a = n.
Proof.
  revert s. induction n as [| n IH]; intros s Hn.
  - exists EmptyString, s. split; reflexivity.
  - destruct s as [| c s]; cbn in Hn; [lia |].
    destruct (IH s) as (a & b & -> & Ha); [lia |].
    exists (String c a), b. split; [reflexivity | cbn; congruence].
Qed.

Lemma substring_all (m : nat) (s : string) :
  (String.length s <= m)%nat -> String.substring 0 m s = s.
Proof.
  revert m. induction s as [| c s IH]; intros m Hm.
  - destruct m; reflexivity.
  - destruct m as [| m]; cbn in Hm; [lia |]. cbn. rewrite IH by lia. reflexivity.
Qed.

Lemma substring_app_tail (a b : string) (m : nat) :
  (String.length b <= m)%nat ->
  String.substring (String.length a) m (a ++ b) = b.
Proof.
  intros Hm. induction a as [| c a IH]; cbn.
  - apply substring_all, Hm.
  - exact IH.
Qed.

(** X11: a directory entry is taken for a pack index exactly when its name
    is [pack-], any 40 characters, and [.idx]; the 40 characters are not
    looked at. *)
Theorem is_packidx_filename_spec :
  forall name : string,
    is_packidx_filename name (Z.of_nat (String.length name)) = true <->
    exists hex : string,
      String.length hex = 40%nat /\
      name = (GOT_PACK_PREFIX ++ hex ++ GOT_PACKIDX_SUFFIX)%string.
Proof.
  intros name. unfold is_packidx_filename.
  change GOT_PACKIDX_NAMELEN with 49.
  change (String.length GOT_PACK_PREFIX + Z.to_nat (SHA1_DIGEST_STRING_LENGTH - 1))%nat
    with 45%nat.
  split.
  - destruct (Z.eqb_spec (Z.of_nat (String.length name)) 49) as [Hlen | Hlen];
      cbn [negb]; [| discriminate].
    destruct (String.prefix GOT_PACK_PREFIX name) eqn:Hpre; cbn [negb];
      [| discriminate].
    apply string_prefix_app in Hpre. destruct Hpre as [r ->].
    rewrite string_length_app in Hlen. cbn in Hlen.
    destruct (string_split_at 40 r) as (hex & b & -> & Hhex); [lia |].
    rewrite string_length_app in Hlen.
    rewrite <- string_app_assoc.
    replace 45%nat with (String.length (GOT_PACK_PREFIX ++ hex)%string)
      by (rewrite string_length_app, Hhex; reflexivity).
    rewrite substring_app_tail
      by (rewrite !string_length_app; cbn; lia).
    destruct (String.eqb_spec b GOT_PACKIDX_SUFFIX) as [-> | Hne]; cbn [negb];
      [| discriminate].
    intros _. exists hex. split; [exact Hhex |]. apply string_app_assoc.
  - intros (hex & Hhex & ->).
    rewrite !string_length_app, Hhex. cbn [String.length GOT_PACK_PREFIX
      GOT_PACKIDX_SUFFIX Nat.add Z.of_nat Pos.of_succ_nat Pos.succ Z.eqb Pos.eqb negb].
    assert (Hpre : String.prefix GOT_PACK_PREFIX
                     (GOT_PACK_PREFIX ++ hex ++ GOT_PACKIDX_SUFFIX) = true).
    { apply string_prefix_app. eexists. reflexivity. }
    rewrite Hpre. cbn [negb].
    rewrite <- string_app_assoc.
    replace 45%nat with (String.length (GOT_PACK_PREFIX ++ hex)%string)
      by (rewrite string_length_app, Hhex; reflexivity).
    rewrite substring_app_tail by (cbn; lia).
    rewrite String.eqb_refl. reflexivity.
Qed.

Lemma substring_app_head (a b : string) (k : nat) :
  String.substring 0 (String.length a + k) (a ++ b)
  = (a ++ String.substring 0 k b)%string.
Proof.
  induction a as [| c a IH]; [reflexivity |].
  cbn [String.length Nat.add String.append String.substring].
  rewrite IH. reflexivity.
Qed.

Lemma cut_at_last_dot_app (base ext : string) :
  cut_at_last_dot ext = None ->
  cut_at_last_dot (base ++ String "."%char ext) = Some base.
Proof.
  intros Hext. induction base as [| c base IH].
  - cbn [String.append cut_at_last_dot]. rewrite Hext. reflexivity.
  - cbn [String.append cut_at_last_dot]. rewrite IH. reflexivity.
Qed.

(** X12: for the path of an index [base.idx] of at most PATH_MAX
    characters, [get_packfile_size] gives the size of the file [base.pack],
    or the error of [stat]; at exactly PATH_MAX characters the copy of the
    path has lost its last character, and the result is the same. *)
Theorem get_packfile_size_of_idx :
  forall (fs : filesystem) (base : string),
    Z.of_nat (String.length (base ++ GOT_PACKIDX_SUFFIX)) <= PATH_MAX ->
    get_packfile_size fs (base ++ GOT_PACKIDX_SUFFIX)
    = match stat_size fs (base ++ GOT_PACKFILE_SUFFIX) with
      | Some size => Ok size
      | None => Err GOT_ERR_ERRNO
      end.
Proof.
  intros fs base Hlen. unfold get_packfile_size.
  destruct (Z.gtb_spec (Z.of_nat (String.length (base ++ GOT_PACKIDX_SUFFIX)))
              PATH_MAX) as [Hgt | _]; [lia |].
  assert (Hcut : cut_at_last_dot (strlcpy_PATH_MAX (base ++ GOT_PACKIDX_SUFFIX))
                 = Some base).
  { unfold strlcpy_PATH_MAX.
    rewrite string_length_app in Hlen. unfold PATH_MAX in *.
    cbn [GOT_PACKIDX_SUFFIX String.length] in Hlen.
    destruct (Nat.eq_dec (String.length base) 1020) as [Heq | Hne].
    - replace (Z.to_nat (1024 - 1)) with (String.length base + 3)%nat
        by (rewrite Heq; reflexivity).
      rewrite substring_app_head.
      apply cut_at_last_dot_app. reflexivity.
    - rewrite substring_all
        by (rewrite string_length_app; cbn [GOT_PACKIDX_SUFFIX String.length]; lia).
      apply cut_at_last_dot_app. reflexivity. }
  rewrite Hcut. reflexivity.
Qed.

Lemma get_packfile_size_of_idx_witness :
  get_packfile_size fs_one_blob ("objects/pack/pack-a" ++ GOT_PACKIDX_SUFFIX)
  = match stat_size fs_one_blob ("objects/pack/pack-a" ++ GOT_PACKFILE_SUFFIX) with
    | Some size => Ok size
    | None => Err GOT_ERR_ERRNO
    end.
Proof.
  apply get_packfile_size_of_idx. vm_compute. discriminate.
Defined.

(** ** Reading an index file *)

Lemma fread_item_inv (len : Z) (f f' : FILE) (b : list Z) :
  fread_item len f = Some (b, f') ->
  0 <= f_pos f /\ 0 <= len /\
  b = firstn (Z.to_nat len) (skipn (Z.to_nat (f_pos f)) (f_data f)) /\
  List.length b = Z.to_nat len /\
  f' = mkFILE (f_data f) (f_pos f + len).
Proof.
  unfold fread_item.
  destruct (Z.ltb_spec (f_pos f) 0); [discriminate |].
  destruct (Z.ltb_spec len 0); [discriminate |]. cbn [orb].
  destruct (Z.leb_spec len
              (Z.of_nat (List.length (skipn (Z.to_nat (f_pos f)) (f_data f)))));
    [| discriminate].
  intros Heq. injection Heq as <- <-.
  repeat split; try lia. rewrite length_firstn. lia.
Qed.

(** What was read so far is the part of the file before the position. *)
Lemma fread_item_read (len : Z) (f f' : FILE) (b : list Z) :
  fread_item len f = Some (b, f') ->
  f_data f' = f_data f /\ 0 <= f_pos f' /\
  firstn (Z.to_nat (f_pos f')) (f_data f')
  = firstn (Z.to_nat (f_pos f)) (f_data f) ++ b.
Proof.
  intros Hread.
  destruct (fread_item_inv _ _ _ _ Hread) as (Hpos & Hlen & -> & _ & ->).
  cbn [f_data f_pos]. repeat split; [lia |].
  rewrite Z2Nat.inj_add by lia. apply firstn_plus.
Qed.

Lemma length_chunks {A : Type} (k n : nat) :
  forall l : list A, List.length (chunks k n l) = n.
Proof.
  induction n as [| n IH]; intros l; [reflexivity |].
  cbn [chunks List.length]. rewrite IH. reflexivity.
Qed.

Lemma concat_chunks {A : Type} (k n : nat) :
  forall l : list A, List.concat (chunks k n l) = firstn (k * n) l.
Proof.
  induction n as [| n IH]; intros l.
  - rewrite Nat.mul_0_r. reflexivity.
  - cbn [chunks List.concat]. rewrite IH.
    replace (k * S n)%nat with (k + k * n)%nat by lia.
    symmetry. apply firstn_plus.
Qed.

Lemma Forall_chunks {A : Type} (k n : nat) :
  forall l : list A,
    (k * n <= List.length l)%nat ->
    Forall (fun w => List.length w = k) (chunks k n l).
Proof.
  induction n as [| n IH]; intros l Hl; [constructor |].
  cbn [chunks]. constructor.
  - rewrite length_firstn. lia.
  - apply IH. rewrite length_skipn. lia.
Qed.

Lemma firstn_length_app {A : Type} (a b : list A) :
  firstn (List.length a) (a ++ b) = a.
Proof.
  induction a as [| x a IH]; [reflexivity |]. cbn. rewrite IH. reflexivity.
Qed.

Lemma skipn_length_app {A : Type} (a b : list A) :
  skipn (List.length a) (a ++ b) = b.
Proof.
  induction a as [| x a IH]; [reflexivity |]. exact IH.
Qed.

Lemma chunks_concat {A : Type} (k : nat) (ws : list (list A)) (rest : list A) :
  Forall (fun w => List.length w = k) ws ->
  chunks k (List.length ws) (List.concat ws ++ rest) = ws.
Proof.
  induction 1 as [| w ws Hw Hws IH]; [reflexivity |].
  cbn [List.length chunks List.concat]. rewrite <- app_assoc, <- Hw.
  rewrite firstn_length_app, skipn_length_app, Hw, IH. reflexivity.
Qed.

Lemma fread_items_inv (size nitems : Z) (f f' : FILE) (items : list (list Z)) :
  0 <= size -> 0 <= nitems ->
  fread_items size nitems f = Some (items, f') ->
  List.length items = Z.to_nat nitems /\
  Forall (fun w => List.length w = Z.to_nat size) items /\
  f_data f' = f_data f /\ 0 <= f_pos f' /\
  firstn (Z.to_nat (f_pos f')) (f_data f')
  = firstn (Z.to_nat (f_pos f)) (f_data f) ++ List.concat items.
Proof.
  intros Hsize Hn. unfold fread_items.
  destruct (fread_item (size * nitems) f) as [[bytes f1] |] eqn:Hread;
    [| discriminate].
  intros Heq. injection Heq as <- <-.
  destruct (fread_item_read _ _ _ _ Hread) as (Hdata & Hpos & Hfirst).
  destruct (fread_item_inv _ _ _ _ Hread) as (_ & _ & _ & Hlen & _).
  rewrite Z2Nat.inj_mul in Hlen by lia.
  split; [apply length_chunks |].
  split; [apply Forall_chunks; lia |].
  split; [exact Hdata |]. split; [exact Hpos |].
  rewrite Hfirst. f_equal. rewrite concat_chunks.
  symmetry. apply firstn_all2. lia.
Qed.

Lemma fread_item_facts (len : Z) (f f' : FILE) (b : list Z) :
  fread_item len f = Some (b, f') ->
  List.length b = Z.to_nat len /\
  f_data f' = f_data f /\ 0 <= f_pos f' /\
  firstn (Z.to_nat (f_pos f')) (f_data f')
  = firstn (Z.to_nat (f_pos f)) (f_data f) ++ b.
Proof.
  intros Hread.
  destruct (fread_item_inv _ _ _ _ Hread) as (_ & _ & _ & Hlen & _).
  split; [exact Hlen |]. apply (fread_item_read _ _ _ _ Hread).
Qed.

Lemma map_sha1_mk_id (ids : list (list Z)) : map sha1 (map mk_id ids) = ids.
Proof.
  induction ids as [| d ids IH]; [reflexivity |]. cbn. rewrite IH. reflexivity.
Qed.

Lemma Forall_sha1_mk_id (n : nat) (ids : list (list Z)) :
  Forall (fun w => List.length w = n) ids ->
  Forall (fun id => List.length (sha1 id) = n) (map mk_id ids).
Proof.
  induction 1; constructor; assumption.
Qed.

(** The last read of [got_packidx_open]: the two digests of the trailer. *)
Lemma fread_trailer (f f' : FILE) (tr : list (list Z)) (ctx : list Z) :
  fread_items 20 2 f = Some (tr, f') ->
  firstn (Z.to_nat (f_pos f)) (f_data f) = ctx ->
  List.length (word_at tr 0) = 20%nat /\ List.length (word_at tr 1) = 20%nat /\
  exists rest, f_data f = ctx ++ word_at tr 0 ++ word_at tr 1 ++ rest.
Proof.
  intros Hread Hctx.
  destruct (fread_items_inv 20 2 f f' tr) as (Hlen & Hall & Hdata & Hpos & Hfirst);
    [lia | lia | exact Hread |].
  destruct tr as [| a [| b [| c tr]]]; try discriminate.
  change (word_at [a; b] 0) with a. change (word_at [a; b] 1) with b.
  inversion Hall as [| ? ? Ha Hall']. inversion Hall' as [| ? ? Hb _].
  split; [exact Ha |]. split; [exact Hb |].
  rewrite Hdata, Hctx in Hfirst.
  exists (skipn (Z.to_nat (f_pos f')) (f_data f)).
  rewrite <- (firstn_skipn (Z.to_nat (f_pos f')) (f_data f)) at 1.
  rewrite Hfirst. cbn [List.concat].
  rewrite app_nil_r, <- !app_assoc. reflexivity.
Qed.

Lemma got_packidx_open_content (SHA1 : list Z -> list Z) (fs : filesystem)
    (path : string) (p : got_packidx_v2_hdr) :
  got_packidx_open SHA1 fs path = Ok p -> packidx_of_file SHA1 fs path p.
Proof.
  unfold packidx_of_file, got_packidx_open, fopen.
  destruct (fs_file fs path) as [data |] eqn:Hfile; [| discriminate].
  destruct (get_packfile_size fs path) as [size | e |] eqn:Hsize; try discriminate.
  destruct (fread_item 4 _) as [[p_magic f1] |] eqn:R1; [| discriminate].
  destruct (Z.eqb_spec (betoh32 p_magic) GOT_PACKIDX_V2_MAGIC) as [Hmagic |];
    cbn [negb]; [| discriminate].
  destruct (fread_item 4 f1) as [[p_version f2] |] eqn:R2; [| discriminate].
  destruct (Z.eqb_spec (betoh32 p_version) GOT_PACKIDX_VERSION) as [Hversion |];
    cbn [negb]; [| discriminate].
  destruct (fread_items 4 256 f2) as [[p_fanout f3] |] eqn:R3; [| discriminate].
  destruct (verify_fanout_table p_fanout) as [[] | e |] eqn:Hverify;
    try discriminate.
  set (nobj := betoh32 (word_at p_fanout 255)).
  assert (Hnobj : 0 <= nobj) by apply Z.mod_pos_bound, eq_refl.
  destruct (fread_items 20 nobj f3) as [[ids f4] |] eqn:R4; [| discriminate].
  destruct (fread_items 4 nobj f4) as [[p_crc32 f5] |] eqn:R5; [| discriminate].
  destruct (fread_items 4 nobj f5) as [[p_offsets f6] |] eqn:R6; [| discriminate].
  cbn zeta.
  destruct (fread_item_facts _ _ _ _ R1) as (L1 & D1 & P1 & F1).
  destruct (fread_item_facts _ _ _ _ R2) as (L2 & D2 & P2 & F2).
  destruct (fread_items_inv 4 256 f2 f3 p_fanout ltac:(lia) ltac:(lia) R3)
    as (L3 & A3 & D3 & P3 & F3).
  destruct (fread_items_inv 20 nobj f3 f4 ids ltac:(lia) Hnobj R4)
    as (L4 & A4 & D4 & P4 & F4).
  destruct (fread_items_inv 4 nobj f4 f5 p_crc32 ltac:(lia) Hnobj R5)
    as (L5 & A5 & D5 & P5 & F5).
  destruct (fread_items_inv 4 nobj f5 f6 p_offsets ltac:(lia) Hnobj R6)
    as (L6 & A6 & D6 & P6 & F6).
  cbn [f_data f_pos] in F1. cbn [Z.to_nat firstn app] in F1.
  rewrite F1 in F2. rewrite F2 in F3. rewrite F3 in F4. rewrite F4 in F5.
  rewrite F5 in F6.
  assert (D : f_data f6 = data).
  { rewrite D6, D5, D4, D3, D2, D1. reflexivity. }
  destruct (Z.leb_spec size 2147483648) as [Hsmall | Hbig].
  - destruct (fread_items 20 2 f6) as [[tr f7] |] eqn:R7; [| discriminate].
    destruct (fread_trailer _ _ _ _ R7 F6) as (La & Lb & rest & Hrest).
    cbn [packidx_sha1 packfile_sha1].
    match goal with
    | |- context [negb (?c =? 0)] => destruct (Z.eqb_spec c 0) as [Hsum |]
    end; cbn [negb]; [| discriminate].
    intros Heq. injection Heq as <-.
    unfold packidx_sized, packidx_content.
    cbn [magic version fanout_table sorted_ids crc32 offsets large_offsets
         trailer packidx_sha1 packfile_sha1].
    rewrite map_sha1_mk_id, length_map. fold nobj.
    split; [exact Hmagic |]. split; [exact Hversion |]. split; [exact Hverify |].
    split.
    { repeat split; try assumption; try discriminate.
      apply Forall_sha1_mk_id, A4. }
    split.
    { etransitivity; [| exact Hsum]. do 2 f_equal. cbn [app].
      rewrite <- !app_assoc. reflexivity. }
    split.
    { exists size. split; [reflexivity |]. split; [intros _; exact Hsmall | reflexivity]. }
    exists rest. rewrite <- D, Hrest. cbn [app].
    rewrite <- !app_assoc. reflexivity.
  - destruct (fread_items 8 nobj f6) as [[p_large f7] |] eqn:R7; [| discriminate].
    destruct (fread_items_inv 8 nobj f6 f7 p_large ltac:(lia) Hnobj R7)
      as (L7 & A7 & D7 & P7 & F7).
    rewrite F6 in F7.
    destruct (fread_items 20 2 f7) as [[tr f8] |] eqn:R8; [| discriminate].
    destruct (fread_trailer _ _ _ _ R8 F7) as (La & Lb & rest & Hrest).
    cbn [packidx_sha1 packfile_sha1].
    match goal with
    | |- context [negb (?c =? 0)] => destruct (Z.eqb_spec c 0) as [Hsum |]
    end; cbn [negb]; [| discriminate].
    intros Heq. injection Heq as <-.
    unfold packidx_sized, packidx_content.
    cbn [magic version fanout_table sorted_ids crc32 offsets large_offsets
         trailer packidx_sha1 packfile_sha1].
    rewrite map_sha1_mk_id, length_map. fold nobj.
    split; [exact Hmagic |]. split; [exact Hversion |]. split; [exact Hverify |].
    split.
    { repeat split; try assumption; try (apply Forall_sha1_mk_id, A4);
        match goal with H : Some _ = Some _ |- _ => injection H as <- end;
        assumption. }
    split.
    { etransitivity; [| exact Hsum]. do 2 f_equal. cbn [app].
      rewrite <- !app_assoc. reflexivity. }
    split.
    { exists size. split; [reflexivity |]. split; [discriminate | lia]. }
    exists rest. rewrite <- D, <- D7, Hrest. cbn [app].
    rewrite <- !app_assoc. reflexivity.
Qed.

Lemma length_concat_uniform {A : Type} (k : nat) (ws : list (list A)) :
  Forall (fun w => List.length w = k) ws ->
  List.length (List.concat ws) = (k * List.length ws)%nat.
Proof.
  induction 1 as [| w ws Hw _ IH]; [cbn; lia |].
  cbn [List.concat List.length]. rewrite length_app, IH, Hw. lia.
Qed.

Lemma fread_item_at (pre b post data : list Z) (pos len : Z) :
  data = pre ++ b ++ post ->
  pos = Z.of_nat (List.length pre) ->
  len = Z.of_nat (List.length b) ->
  fread_item len (mkFILE data pos) = Some (b, mkFILE data (pos + len)).
Proof.
  intros -> -> ->.
  rewrite fread_item_ok; cbn [f_data f_pos]; try lia.
  - rewrite !Nat2Z.id, skipn_length_app, firstn_length_app. reflexivity.
  - rewrite !length_app. lia.
Qed.

Lemma fread_items_at (pre : list Z) (ws : list (list Z)) (post data : list Z)
    (pos k n : Z) :
  data = pre ++ List.concat ws ++ post ->
  pos = Z.of_nat (List.length pre) ->
  0 <= k ->
  Forall (fun w => List.length w = Z.to_nat k) ws ->
  n = Z.of_nat (List.length ws) ->
  fread_items k n (mkFILE data pos) = Some (ws, mkFILE data (pos + k * n)).
Proof.
  intros Hdata Hpos Hk Hall ->. unfold fread_items.
  pose proof (length_concat_uniform _ _ Hall) as Hlen.
  rewrite (fread_item_at pre (List.concat ws) post data pos _ Hdata Hpos)
    by (rewrite Hlen; lia).
  rewrite Nat2Z.id. rewrite <- (app_nil_r (List.concat ws)).
  rewrite chunks_concat by exact Hall. reflexivity.
Qed.

Lemma got_packidx_open_of_content (SHA1 : list Z -> list Z) (fs : filesystem)
    (path : string) (p : got_packidx_v2_hdr) :
  packidx_of_file SHA1 fs path p -> got_packidx_open SHA1 fs path = Ok p.
Proof.
  intros (Hmagic & Hversion & Hverify & Hsized & Hsum & (size & Hsize & Hlarge)
     & rest & Hfile).
  destruct p as [m v F I C O L [T1 T2]].
  unfold packidx_sized, packidx_content in *.
  cbn [magic version fanout_table sorted_ids crc32 offsets large_offsets
       trailer packidx_sha1 packfile_sha1] in *.
  set (nobj := betoh32 (word_at F 255)) in *.
  assert (Hnobj : 0 <= nobj) by apply Z.mod_pos_bound, eq_refl.
  destruct Hsized as (Lm & Lv & LF & AF & LI & AI & LC & AC & LO & AO & HL & LT1 & LT2).
  unfold got_packidx_open, fopen. rewrite Hfile, Hsize.
  set (cL := match L with Some large => List.concat large | None => [] end) in *.
  set (cI := List.concat (map sha1 I)) in *.
  set (data := _ ++ T2 ++ rest).
  assert (Hd : data = m ++ v ++ List.concat F ++ cI ++ List.concat C
                      ++ List.concat O ++ cL ++ T1 ++ T2 ++ rest).
  { unfold data. rewrite <- !app_assoc. reflexivity. }
  clearbody data.
  assert (AI' : Forall (fun w => List.length w = 20%nat) (map sha1 I)).
  { clear -AI. induction AI; constructor; assumption. }
  assert (HI : map mk_id (map sha1 I) = I).
  { clear. induction I as [| [d] I IH]; [reflexivity |]. cbn. rewrite IH.
    reflexivity. }
  pose proof (length_concat_uniform _ _ AF) as LcF.
  pose proof (length_concat_uniform _ _ AI') as LcI.
  pose proof (length_concat_uniform _ _ AC) as LcC.
  pose proof (length_concat_uniform _ _ AO) as LcO.
  rewrite length_map in LcI. fold cI in LcI.
  rewrite (fread_item_at [] m
             (v ++ List.concat F ++ cI ++ List.concat C ++ List.concat O
              ++ cL ++ T1 ++ T2 ++ rest) data 0 4);
    [| exact Hd | reflexivity | lia].
  rewrite Hmagic, Z.eqb_refl. cbn [negb].
  rewrite (fread_item_at m v
             (List.concat F ++ cI ++ List.concat C ++ List.concat O
              ++ cL ++ T1 ++ T2 ++ rest) data (0 + 4) 4);
    [| exact Hd | lia | lia].
  rewrite Hversion, Z.eqb_refl. cbn [negb].
  rewrite (fread_items_at (m ++ v) F
             (cI ++ List.concat C ++ List.concat O ++ cL ++ T1 ++ T2 ++ rest)
             data);
    [| rewrite Hd, <- !app_assoc; reflexivity
     | rewrite length_app; lia | lia | exact AF | lia].
  rewrite Hverify. cbn zeta. fold nobj.
  rewrite (fread_items_at ((m ++ v) ++ List.concat F) (map sha1 I)
             (List.concat C ++ List.concat O ++ cL ++ T1 ++ T2 ++ rest)
             data);
    [| rewrite Hd, <- !app_assoc; reflexivity
     | rewrite !length_app; lia | lia | exact AI' | rewrite length_map; lia].
  rewrite (fread_items_at (((m ++ v) ++ List.concat F) ++ cI) C
             (List.concat O ++ cL ++ T1 ++ T2 ++ rest) data);
    [| rewrite Hd, <- !app_assoc; reflexivity
     | rewrite !length_app; lia | lia | exact AC | lia].
  rewrite (fread_items_at ((((m ++ v) ++ List.concat F) ++ cI) ++ List.concat C) O
             (cL ++ T1 ++ T2 ++ rest) data);
    [| rewrite Hd, <- !app_assoc; reflexivity
     | rewrite !length_app; lia | lia | exact AO | lia].
  rewrite HI.
  destruct (Z.leb_spec size 2147483648) as [Hsmall | Hbig].
  - assert (HLn : L = None) by (apply Hlarge; exact Hsmall).
    subst L. cbn [app] in cL. subst cL.
    rewrite (fread_items_at
               (((((m ++ v) ++ List.concat F) ++ cI) ++ List.concat C)
                ++ List.concat O) [T1; T2] rest data);
      [| rewrite Hd; cbn [List.concat]; rewrite app_nil_r, <- !app_assoc;
         reflexivity
       | rewrite !length_app; lia | lia
       | repeat constructor; assumption | reflexivity].
    change (word_at [T1; T2] 0) with T1. change (word_at [T1; T2] 1) with T2.
    cbn [packidx_sha1 packfile_sha1 app].
    cbn [app] in Hsum. rewrite <- !app_assoc. fold cI.
    rewrite Hsum. reflexivity.
  - destruct L as [large |]; [| exfalso; assert (size <= 2147483648) by
                                  (apply Hlarge; reflexivity); lia].
    destruct (HL large eq_refl) as [LL AL].
    pose proof (length_concat_uniform _ _ AL) as LcL.
    rewrite (fread_items_at
               (((((m ++ v) ++ List.concat F) ++ cI) ++ List.concat C)
                ++ List.concat O) large (T1 ++ T2 ++ rest) data);
      [| rewrite Hd, <- !app_assoc; reflexivity
       | rewrite !length_app; lia | lia | exact AL | lia].
    rewrite (fread_items_at
               ((((((m ++ v) ++ List.concat F) ++ cI) ++ List.concat C)
                 ++ List.concat O) ++ cL) [T1; T2] rest data);
      [| rewrite Hd; cbn [List.concat]; rewrite app_nil_r, <- !app_assoc;
         reflexivity
       | rewrite !length_app; unfold cL; lia | lia
       | repeat constructor; assumption | reflexivity].
    change (word_at [T1; T2] 0) with T1. change (word_at [T1; T2] 1) with T2.
    cbn [packidx_sha1 packfile_sha1 app].
    rewrite <- !app_assoc. fold cI. fold cL.
    rewrite Hsum. reflexivity.
Qed.

(** X13: [got_packidx_open] gives the index [p] exactly when the file holds
    it: the magic number and the version of format 2, a fan-out table that
    [verify_fanout_table] accepts, tables of one entry per object with
    entries of the sizes of the format, the content of [p] and then its
    checksum at the start of the file, a checksum that is the digest of all
    the content before it, and a large offsets table exactly when the pack
    file beside the index is above 2GB. *)
Theorem got_packidx_open_spec :
  forall (SHA1 : list Z -> list Z) (fs : filesystem) (path : string)
         (p : got_packidx_v2_hdr),
    got_packidx_open SHA1 fs path = Ok p <-> packidx_of_file SHA1 fs path p.
Proof.
  intros SHA1 fs path p. split.
  - apply got_packidx_open_content.
  - apply got_packidx_open_of_content.
Qed.

(** ** Search of the pack directory *)

Lemma search_packidx_loop_found (SHA1 : list Z -> list Z) (fs : filesystem)
    (path_packdir : string) (id : got_object_id) (dents : list string) :
  forall p idx,
    search_packidx_loop SHA1 fs path_packdir dents id = Some (Ok (p, idx)) ->
    idx <> -1 /\
    get_object_idx p id = Some (Ok idx) /\
    exists d_name,
      In d_name dents /\
      is_packidx_filename d_name (Z.of_nat (String.length d_name)) = true /\
      got_packidx_open SHA1 fs (path_packdir ++ "/" ++ d_name) = Ok p.
Proof.
  induction dents as [| d dents IH]; intros p idx Hres; [discriminate |].
  cbn [search_packidx_loop] in Hres.
  destruct (is_packidx_filename d _) eqn:Hname; cbn [negb] in Hres.
  - destruct (got_packidx_open SHA1 fs _) as [px | e |] eqn:Hopen;
      try discriminate.
    destruct (get_object_idx px id) as [[ix | e |] |] eqn:Hidx; try discriminate.
    destruct (Z.eqb_spec ix (-1)) as [Hmiss | Hhit]; cbn [negb] in Hres.
    + destruct (IH _ _ Hres) as (H1 & H2 & n & Hin & Hn & Ho).
      split; [exact H1 |]. split; [exact H2 |].
      exists n. split; [right; exact Hin |]. split; assumption.
    + injection Hres as <- <-.
      split; [exact Hhit |]. split; [exact Hidx |].
      exists d. split; [left; reflexivity |]. split; assumption.
  - destruct (IH _ _ Hres) as (H1 & H2 & n & Hin & Hn & Ho).
    split; [exact H1 |]. split; [exact H2 |].
    exists n. split; [right; exact Hin |]. split; assumption.
Qed.

Lemma search_packidx_found_id :
  forall (SHA1 : list Z -> list Z) (fs : filesystem) (repo : got_repository)
         (id : got_object_id) (p : got_packidx_v2_hdr) (idx : Z),
    search_packidx SHA1 fs repo id = Some (Ok (p, idx)) ->
    List.length (sha1 id) = 20%nat ->
    (exists dents d_name,
        fs_dir fs (path_objects_pack repo) = Some dents /\
        In d_name dents /\
        is_packidx_filename d_name (Z.of_nat (String.length d_name)) = true /\
        got_packidx_open SHA1 fs (path_objects_pack repo ++ "/" ++ d_name)
        = Ok p) /\
    nth_error (sorted_ids p) (Z.to_nat idx) = Some id /\
    0 <= idx < Z.of_nat (List.length (sorted_ids p)) /\
    List.length (offsets p) = List.length (sorted_ids p).
Proof.
  intros SHA1 fs repo id p idx Hres Hid. unfold search_packidx in Hres.
  destruct (fs_dir fs (path_objects_pack repo)) as [dents |] eqn:Hdir;
    [| discriminate].
  destruct (search_packidx_loop_found _ _ _ _ _ _ _ Hres)
    as (Hhit & Hidx & d_name & Hin & Hname & Hopen).
  destruct (got_packidx_open_content _ _ _ _ Hopen)
    as (_ & _ & _ & Hsized & _).
  destruct Hsized as (_ & _ & _ & _ & LI & AI & _ & _ & LO & _).
  unfold get_object_idx in Hidx.
  destruct (get_object_idx_loop_found _ _ _ _ _ _ Hidx Hhit)
    as (Hpos & oid & Hoid & Hcmp).
  assert (Hoid20 : List.length (sha1 oid) = 20%nat).
  { rewrite Forall_forall in AI. apply AI. eapply nth_error_In, Hoid. }
  rewrite (got_object_id_cmp_eq id oid Hid Hoid20 Hcmp) in Hoid.
  split; [exists dents, d_name; repeat split; assumption |].
  split; [exact Hoid |].
  split; [| rewrite LO, LI; reflexivity].
  split; [exact Hpos |].
  assert (Z.to_nat idx < List.length (sorted_ids p))%nat; [| lia].
  apply nth_error_Some. rewrite Hoid. discriminate.
Qed.

(** X14: what [search_packidx] finds: the index is that of an index file of
    the pack directory, the number is an index of its tables, and the id at
    this index is the id searched for. *)
Theorem search_packidx_found :
  forall (SHA1 : list Z -> list Z) (fs : filesystem) (repo : got_repository)
         (id : got_object_id) (p : got_packidx_v2_hdr) (idx : Z),
    search_packidx SHA1 fs repo id = Some (Ok (p, idx)) ->
    List.length (sha1 id) = 20%nat ->
    (exists dents d_name,
        fs_dir fs (path_objects_pack repo) = Some dents /\
        In d_name dents /\
        is_packidx_filename d_name (Z.of_nat (String.length d_name)) = true /\
        got_packidx_open SHA1 fs (path_objects_pack repo ++ "/" ++ d_name)
        = Ok p) /\
    nth_error (sorted_ids p) (Z.to_nat idx) = Some id /\
    0 <= idx < Z.of_nat (List.length (sorted_ids p)) /\
    List.length (offsets p) = List.length (sorted_ids p).
Proof.
  exact search_packidx_found_id.
Qed.

Lemma search_packidx_S1 :
  search_packidx sum_digest fs_S1 (mk_repo "objects/pack") id_42_00
  = Some (Ok (packidx_S1_sum, 1)).
Proof.
  vm_compute. reflexivity.
Qed.

Lemma search_packidx_found_witness :
  nth_error (sorted_ids packidx_S1_sum) (Z.to_nat 1) = Some id_42_00.
Proof.
  apply (search_packidx_found sum_digest fs_S1 (mk_repo "objects/pack")
           id_42_00 packidx_S1_sum 1);
    [exact search_packidx_S1 | reflexivity].
Defined.

Lemma search_packidx_loop_passes (SHA1 : list Z -> list Z) (fs : filesystem)
    (path_packdir : string) (id : got_object_id) (pre post : list string) :
  Forall (search_passes SHA1 fs path_packdir id) pre ->
  search_packidx_loop SHA1 fs path_packdir (pre ++ post) id
  = search_packidx_loop SHA1 fs path_packdir post id.
Proof.
  induction 1 as [| d pre Hd _ IH]; [reflexivity |].
  cbn [app search_packidx_loop].
  destruct Hd as [Hname | (px & Hopen & Hidx)].
  - rewrite Hname. exact IH.
  - destruct (is_packidx_filename d _); cbn [negb]; [| exact IH].
    rewrite Hopen, Hidx. exact IH.
Qed.

(** X15: the search goes through the pack directory in the order of
    [readdir]: entries that are not index files and indexes without the id
    are passed over; when they are all there is, the result is
    GOT_ERR_NO_OBJ; and an index file that fails to open ends the search
    with its error, whatever comes after it in the directory. *)
Theorem search_packidx_passes_over :
  forall (SHA1 : list Z -> list Z) (fs : filesystem) (repo : got_repository)
         (id : got_object_id) (pre post : list string),
    Forall (search_passes SHA1 fs (path_objects_pack repo) id) pre ->
    (fs_dir fs (path_objects_pack repo) = Some pre ->
     search_packidx SHA1 fs repo id = Some (Err GOT_ERR_NO_OBJ)) /\
    (forall d_name e,
        fs_dir fs (path_objects_pack repo) = Some (pre ++ d_name :: post) ->
        is_packidx_filename d_name (Z.of_nat (String.length d_name)) = true ->
        got_packidx_open SHA1 fs (path_objects_pack repo ++ "/" ++ d_name)
        = Err e ->
        search_packidx SHA1 fs repo id = Some (Err e)).
Proof.
  intros SHA1 fs repo id pre post Hpre. split.
  - intros Hdir. unfold search_packidx. rewrite Hdir.
    rewrite <- (app_nil_r pre).
    rewrite (search_packidx_loop_passes _ _ _ _ _ [] Hpre). reflexivity.
  - intros d_name e Hdir Hname Hopen. unfold search_packidx. rewrite Hdir.
    rewrite (search_packidx_loop_passes _ _ _ _ _ _ Hpre).
    cbn [search_packidx_loop]. rewrite Hname. cbn [negb].
    rewrite Hopen. reflexivity.
Qed.

Lemma search_packidx_passes_over_witness :
  search_packidx sum_digest fs_S1 (mk_repo "objects/pack") id_ff
  = Some (Err GOT_ERR_NO_OBJ).
Proof.
  apply (search_packidx_passes_over sum_digest fs_S1 (mk_repo "objects/pack")
           id_ff ["."; ".."; name_S1 ++ GOT_PACKFILE_SUFFIX;
                  name_S1 ++ GOT_PACKIDX_SUFFIX]%string []);
    [| reflexivity].
  do 3 (apply Forall_cons; [left; vm_compute; reflexivity |]).
  apply Forall_cons; [| apply Forall_nil].
  right. exists packidx_S1_sum. split; vm_compute; reflexivity.
Defined.

(** ** Opening a packed object *)

Lemma read_packfile_hdr_inv (f f' : FILE) (packidx : got_packidx_v2_hdr) :
  read_packfile_hdr f packidx = Ok f' ->
  f' = mkFILE (f_data f) (f_pos f + 12) /\
  f_pos f + 12 <= Z.of_nat (List.length (f_data f)).
Proof.
  unfold read_packfile_hdr, fread_items.
  destruct (fread_item (4 * 3) f) as [[bytes f1] |] eqn:Hread; [| discriminate].
  destruct (_ || _); [discriminate |].
  intros Heq. injection Heq as <-.
  destruct (fread_item_inv _ _ _ _ Hread) as (Hpos & _ & _ & _ & ->).
  split; [reflexivity |].
  unfold fread_item in Hread.
  destruct (Z.ltb_spec (f_pos f) 0); [lia |]. cbn [orb] in Hread.
  destruct (Z.ltb_spec (4 * 3) 0); [lia |].
  rewrite length_skipn in Hread.
  destruct (Z.leb_spec (4 * 3)
              (Z.of_nat (List.length (f_data f) - Z.to_nat (f_pos f))));
    [lia | discriminate].
Qed.

Section OpenObjectFacts.

Variable SHA1 : list Z -> list Z.
Variable got_delta_chain_get_base_type : got_delta_chain -> result Z.
Variable fs : filesystem.
Variable repo : got_repository.

(** What a successful [open_packed_object] went through. *)
Lemma open_packed_object_inv (fuel : nat) (packidx : got_packidx_v2_hdr)
    (idx : Z) (id : got_object_id) (obj : got_object) :
  open_packed_object SHA1 got_delta_chain_get_base_type fuel fs repo packidx
    idx id = Some (Ok obj) ->
  exists offset data type size tslen,
    get_object_offset packidx idx = Ok offset /\ 0 <= offset <= INT64_MAX /\
    get_packfile_path repo packidx = Ok (obj_path_packfile obj) /\
    fs_file fs (obj_path_packfile obj) = Some data /\
    parse_object_type_and_size (mkFILE data offset)
    = Some (Ok (type, size, tslen, mkFILE data (offset + tslen))) /\
    1 <= tslen <= 10 /\ 0 <= size < 2 ^ 64 /\
    offset + tslen <= Z.of_nat (List.length data) /\
    obj_id obj = id /\ obj_hdrlen obj = 0 /\
    obj_pack_offset obj = wrap_i64 (offset + tslen) /\
    ((is_plain_type type = true /\ type <> GOT_OBJ_TYPE_TAG /\
      obj_type obj = type /\ obj_flags obj = GOT_OBJ_FLAG_PACKED /\
      obj_size obj = size /\ obj_deltas obj = mk_chain 0 []) \/
     (type = GOT_OBJ_TYPE_OFFSET_DELTA /\
      obj_flags obj = Z.lor GOT_OBJ_FLAG_PACKED GOT_OBJ_FLAG_DELTIFIED /\
      obj_size obj = 0 /\
      resolve_delta_chain SHA1 fuel fs (mk_chain 0 []) repo
        (mkFILE data (offset + tslen)) (obj_path_packfile obj)
        GOT_OBJ_TYPE_OFFSET_DELTA offset size = Some (Ok (obj_deltas obj)) /\
      got_delta_chain_get_base_type (obj_deltas obj) = Ok (obj_type obj))).
Proof.
  unfold open_packed_object.
  destruct (get_object_offset packidx idx) as [offset | e |] eqn:Hoff;
    try discriminate.
  destruct (get_object_offset_bounds _ _ _ Hoff) as [Hrange _].
  destruct (Z.eqb_spec (wrap_u64 offset) (wrap_u64 (-1))) as [Hm1 | Hm1];
    [discriminate |].
  assert (Hpos : 0 <= offset <= INT64_MAX).
  { destruct Hrange as [-> | Hr]; [contradiction | exact Hr]. }
  unfold get_packfile_path at 1. unfold fopen.
  set (path := (path_objects_pack repo ++ _)%string).
  destruct (fs_file fs path) as [data |] eqn:Hfile; [| discriminate].
  destruct (read_packfile_hdr (mkFILE data 0) packidx) as [f1 | e |] eqn:Hhdr;
    try discriminate.
  destruct (read_packfile_hdr_inv _ _ _ Hhdr) as [-> _].
  unfold fseeko. destruct (Z.ltb_spec offset 0); [lia |]. cbn [f_data].
  destruct (parse_object_type_and_size (mkFILE data offset))
    as [[[[[type size] tslen] f2] | e |] |] eqn:Hparse; try discriminate.
  unfold parse_object_type_and_size in Hparse.
  assert (H0 : 0 <= 0) by lia.
  assert (H07 : 0 <= 0 <= 7) by lia.
  assert (H064 : 0 <= 0 < 2 ^ 64) by lia.
  destruct (parse_object_type_and_size_loop_facts _ _ _ _ _ _ _ _ _ H0 H07 H064
              Hparse) as (Hlen & Htype & Hsz & Hf2 & b & Hb & _).
  cbn [f_data f_pos] in Hf2, Hb. rewrite Z.sub_0_r in Hf2, Hb. subst f2.
  assert (Hfit : offset + tslen <= Z.of_nat (List.length data)).
  { assert (Z.to_nat (offset + tslen - 1) < List.length data)%nat; [| lia].
    apply nth_error_Some. rewrite Hb. discriminate. }
  fold (parse_object_type_and_size (mkFILE data offset)) in Hparse.
  destruct ((type =? GOT_OBJ_TYPE_COMMIT) || (type =? GOT_OBJ_TYPE_TREE)
            || (type =? GOT_OBJ_TYPE_BLOB)) eqn:Hplain.
  - unfold open_plain_object. intros Heq. injection Heq as <-.
    cbn [obj_path_packfile obj_id obj_hdrlen obj_pack_offset obj_type obj_flags
         obj_size obj_deltas].
    exists offset, data, type, size, tslen.
    repeat (split; [first [reflexivity | assumption | lia] |]).
    left. unfold is_plain_type. rewrite Hplain.
    repeat split.
    intros ->. discriminate.
  - destruct (Z.eqb_spec type GOT_OBJ_TYPE_OFFSET_DELTA) as [-> | _];
      [| discriminate].
    unfold open_offset_delta_object.
    destruct (resolve_delta_chain SHA1 fuel fs _ repo _ path _ offset size)
      as [[deltas | e |] |] eqn:Hchain; try discriminate.
    destruct (got_delta_chain_get_base_type deltas) as [rt | e |] eqn:Hbase;
      try discriminate.
    intros Heq. injection Heq as <-.
    cbn [obj_path_packfile obj_id obj_hdrlen obj_pack_offset obj_type obj_flags
         obj_size obj_deltas].
    exists offset, data, GOT_OBJ_TYPE_OFFSET_DELTA, size, tslen.
    repeat (split; [first [reflexivity | assumption | lia] |]).
    right. repeat split; assumption.
Qed.

(** X16: the object that [got_packfile_open_object] gives for an id: it has
    this id and is marked as packed; the id is in an index, at [idx], whose
    pack file is the object's and is there; the record header of the object
    is the one parsed at the offset the index gives for [idx], and the
    object's pack offset is the end of this header.  The object is either a
    commit, a tree or a blob, with the type and the size of the record
    header and no delta chain (a tag is never opened), or the header is the
    one of an offset delta and the object is marked as deltified, has size
    0, the type that [got_delta_chain_get_base_type] gives, and a chain that
    starts with the delta record (its offset, the size of its header) and
    has at least one more entry. *)
Theorem got_packfile_open_object_result :
  forall (fuel : nat) (id : got_object_id) (obj : got_object),
    got_packfile_open_object SHA1 got_delta_chain_get_base_type fuel fs id repo
    = Some (Ok obj) ->
    List.length (sha1 id) = 20%nat ->
    obj_id obj = id /\ obj_hdrlen obj = 0 /\
    Z.land (obj_flags obj) GOT_OBJ_FLAG_PACKED <> 0 /\
    exists packidx idx offset data type size tslen,
      search_packidx SHA1 fs repo id = Some (Ok (packidx, idx)) /\
      nth_error (sorted_ids packidx) (Z.to_nat idx) = Some id /\
      get_packfile_path repo packidx = Ok (obj_path_packfile obj) /\
      fs_file fs (obj_path_packfile obj) = Some data /\
      get_object_offset packidx idx = Ok offset /\
      parse_object_type_and_size (mkFILE data offset)
      = Some (Ok (type, size, tslen, mkFILE data (offset + tslen))) /\
      obj_pack_offset obj = wrap_i64 (offset + tslen) /\
      ((obj_flags obj = GOT_OBJ_FLAG_PACKED /\
        (type = GOT_OBJ_TYPE_COMMIT \/ type = GOT_OBJ_TYPE_TREE
         \/ type = GOT_OBJ_TYPE_BLOB) /\
        obj_type obj = type /\ obj_size obj = size /\
        obj_deltas obj = mk_chain 0 []) \/
       (type = GOT_OBJ_TYPE_OFFSET_DELTA /\
        obj_flags obj = Z.lor GOT_OBJ_FLAG_PACKED GOT_OBJ_FLAG_DELTIFIED /\
        obj_size obj = 0 /\
        got_delta_chain_get_base_type (obj_deltas obj) = Ok (obj_type obj) /\
        exists rest,
          entries (obj_deltas obj)
          = got_delta_open (obj_path_packfile obj) GOT_OBJ_TYPE_OFFSET_DELTA
              offset size :: rest /\
          rest <> [])).
Proof.
  intros fuel id obj Hopen Hid. unfold got_packfile_open_object in Hopen.
  destruct (search_packidx SHA1 fs repo id) as [[[packidx idx] | e |] |] eqn:Hsearch;
    try discriminate.
  destruct (open_packed_object_inv _ _ _ _ _ Hopen)
    as (offset & data & type & size & tslen & Hoff & Hpos & Hpath & Hfile
        & Hparse & Htslen & Hsize & Hfit & Hoid & Hhdr & Hpoff & Hcase).
  destruct (search_packidx_found_id SHA1 fs repo id packidx idx Hsearch Hid)
    as (_ & Hnth & _).
  split; [exact Hoid |]. split; [exact Hhdr |].
  split; [destruct Hcase as [(_ & _ & _ & -> & _) | (_ & -> & _)]; discriminate |].
  exists packidx, idx, offset, data, type, size, tslen.
  do 7 (split; [first [reflexivity | assumption] |]).
  destruct Hcase as [(Hplain & Hnotag & Htype & Hflags & Hobjsize & Hdeltas)
                    | (-> & Hflags & Hobjsize & Hchain & Hbase)].
  - left. split; [exact Hflags |].
    split; [| repeat split; assumption].
    unfold is_plain_type in Hplain.
    destruct (Z.eqb_spec type GOT_OBJ_TYPE_COMMIT); [left; assumption |].
    destruct (Z.eqb_spec type GOT_OBJ_TYPE_TREE); [right; left; assumption |].
    destruct (Z.eqb_spec type GOT_OBJ_TYPE_BLOB); [right; right; assumption |].
    destruct (Z.eqb_spec type GOT_OBJ_TYPE_TAG); [contradiction | discriminate].
  - right. split; [reflexivity |]. split; [exact Hflags |].
    split; [exact Hobjsize |]. split; [exact Hbase |].
    destruct (resolve_delta_chain_shape SHA1 fs repo _ _ _ _ _ _ _ _ Hchain)
      as (added & Hent & Hhd & mid & last & Hadd & Hlast & _).
    cbn [entries app] in Hent.
    destruct added as [| first rest]; [discriminate |].
    injection Hhd as ->.
    exists rest. split; [exact Hent |].
    intros ->. destruct mid as [| m [| m' mid]]; try discriminate.
    injection Hadd as <-. discriminate.
Qed.

(** X17: opening a commit, tree or blob by its id and extracting it gives
    the bytes of the pack file that follow the record header of the object,
    as many as the size of this header says, in a rewound stream; when the
    size is not 0 and the pack file ends before them, the extraction fails
    with GOT_ERR_BAD_PACKFILE.  The record header is the one parsed at the
    offset that the index gives for the id; it has [tslen] bytes.  The pack
    file has a size that is a value of [off_t]. *)
Theorem got_packfile_open_extract_plain :
  forall (got_object_open : got_repository -> got_object_id -> result got_object)
         (got_delta_apply :
            got_repository -> FILE -> Z -> got_object -> FILE ->
            result (FILE * FILE))
         (fuel : nat) (id : got_object_id) (obj : got_object),
    got_packfile_open_object SHA1 got_delta_chain_get_base_type fuel fs id repo
    = Some (Ok obj) ->
    obj_flags obj = GOT_OBJ_FLAG_PACKED ->
    fs_tmp fs = true ->
    (forall data, fs_file fs (obj_path_packfile obj) = Some data ->
                  Z.of_nat (List.length data) <= INT64_MAX) ->
    exists packidx idx offset data type size tslen,
      search_packidx SHA1 fs repo id = Some (Ok (packidx, idx)) /\
      get_packfile_path repo packidx = Ok (obj_path_packfile obj) /\
      fs_file fs (obj_path_packfile obj) = Some data /\
      get_object_offset packidx idx = Ok offset /\
      parse_object_type_and_size (mkFILE data offset)
      = Some (Ok (type, size, tslen, mkFILE data (offset + tslen))) /\
      0 <= offset /\ 1 <= tslen /\
      offset + tslen <= Z.of_nat (List.length data) /\
      got_packfile_extract_object got_object_open got_delta_apply fs obj repo
      = Some (if (size =? 0)
                 || (offset + tslen + size <=? Z.of_nat (List.length data))
              then Ok (mkFILE (firstn (Z.to_nat size)
                                 (skipn (Z.to_nat (offset + tslen)) data)) 0)
              else Err GOT_ERR_BAD_PACKFILE).
Proof.
  intros goo gda fuel id obj Hopen Hflags Htmp Hbound.
  unfold got_packfile_open_object in Hopen.
  destruct (search_packidx SHA1 fs repo id) as [[[packidx idx] | e |] |];
    try discriminate.
  destruct (open_packed_object_inv _ _ _ _ _ Hopen)
    as (offset & data & type & size & tslen & Hoff & Hpos & Hpath & Hfile
        & Hparse & Htslen & Hsize & Hfit & Hoid & Hhdr & Hpoff & Hcase).
  specialize (Hbound data Hfile). unfold INT64_MAX in *.
  rewrite wrap_i64_small in Hpoff by lia.
  destruct Hcase as [(Hplain & Hnotag & Htype & _ & Hobjsize & _)
                    | (_ & Hflags' & _)];
    [| rewrite Hflags in Hflags'; discriminate].
  exists packidx, idx, offset, data, type, size, tslen.
  do 5 (split; [first [reflexivity | assumption] |]).
  split; [lia |]. split; [lia |]. split; [exact Hfit |].
  unfold got_packfile_extract_object. rewrite Hflags.
  change (Z.land GOT_OBJ_FLAG_PACKED GOT_OBJ_FLAG_PACKED =? 0) with false.
  unfold got_opentemp, fopen, fseeko. rewrite Htmp, Hfile.
  rewrite Hpoff.
  destruct (Z.ltb_spec (offset + tslen) 0); [lia |].
  assert (H123 : (obj_type obj =? GOT_OBJ_TYPE_COMMIT)
                 || (obj_type obj =? GOT_OBJ_TYPE_TREE)
                 || (obj_type obj =? GOT_OBJ_TYPE_BLOB) = true).
  { rewrite Htype. unfold is_plain_type in Hplain.
    destruct (Z.eqb_spec type GOT_OBJ_TYPE_TAG); [contradiction |].
    rewrite orb_false_r in Hplain. exact Hplain. }
  rewrite H123. unfold dump_plain_object. cbn [f_data f_pos].
  rewrite Hobjsize.
  destruct (Z.eqb_spec size 0) as [-> | Hnz]; cbn [orb]; [reflexivity |].
  destruct (Z.leb_spec (offset + tslen + size)
              (Z.of_nat (List.length data))) as [Hin | Hshort].
  - rewrite dump_plain_object_loop_ok; cbn [f_data f_pos List.length]; try lia.
    reflexivity.
  - rewrite dump_plain_object_loop_short; cbn [f_data f_pos]; try lia.
    reflexivity.
Qed.

(** X18: opening a deltified object by its id and extracting it gives no
    data: the object has size 0, and the stream is empty when its resolved
    type is commit, tree or blob; otherwise the extraction fails.  The
    deltas of the chain are not applied. *)
Theorem got_packfile_open_extract_deltified :
  forall (got_object_open : got_repository -> got_object_id -> result got_object)
         (got_delta_apply :
            got_repository -> FILE -> Z -> got_object -> FILE ->
            result (FILE * FILE))
         (fuel : nat) (id : got_object_id) (obj : got_object),
    got_packfile_open_object SHA1 got_delta_chain_get_base_type fuel fs id repo
    = Some (Ok obj) ->
    Z.land (obj_flags obj) GOT_OBJ_FLAG_DELTIFIED <> 0 ->
    fs_tmp fs = true ->
    (forall data, fs_file fs (obj_path_packfile obj) = Some data ->
                  Z.of_nat (List.length data) <= INT64_MAX) ->
    got_packfile_extract_object got_object_open got_delta_apply fs obj repo
    = Some (if (obj_type obj =? GOT_OBJ_TYPE_COMMIT)
               || (obj_type obj =? GOT_OBJ_TYPE_TREE)
               || (obj_type obj =? GOT_OBJ_TYPE_BLOB)
            then Ok (mkFILE [] 0)
            else if obj_type obj =? GOT_OBJ_TYPE_REF_DELTA
                 then Err GOT_ERR_BAD_PACKFILE
                 else Err GOT_ERR_NOT_IMPL).
Proof.
  intros goo gda fuel id obj Hopen Hflags Htmp Hbound.
  unfold got_packfile_open_object in Hopen.
  destruct (search_packidx SHA1 fs repo id) as [[[packidx idx] | e |] |];
    try discriminate.
  destruct (open_packed_object_inv _ _ _ _ _ Hopen)
    as (offset & data & type & size & tslen & Hoff & Hpos & Hpath & Hfile
        & Hparse & Htslen & Hsize & Hfit & Hoid & Hhdr & Hpoff & Hcase).
  specialize (Hbound data Hfile). unfold INT64_MAX in *.
  rewrite wrap_i64_small in Hpoff by lia.
  destruct Hcase as [(_ & _ & _ & Hflags' & _) | (_ & Hflags' & Hobjsize & _)];
    [rewrite Hflags' in Hflags; contradiction Hflags; reflexivity |].
  unfold got_packfile_extract_object. rewrite Hflags'.
  change (Z.land (Z.lor GOT_OBJ_FLAG_PACKED GOT_OBJ_FLAG_DELTIFIED)
            GOT_OBJ_FLAG_PACKED =? 0) with false.
  unfold got_opentemp, fopen, fseeko. rewrite Htmp, Hfile.
  destruct (Z.ltb_spec (obj_pack_offset obj) 0); [lia |].
  rewrite Hobjsize.
  destruct ((obj_type obj =? GOT_OBJ_TYPE_COMMIT)
            || (obj_type obj =? GOT_OBJ_TYPE_TREE)
            || (obj_type obj =? GOT_OBJ_TYPE_BLOB)); [reflexivity |].
  destruct (obj_type obj =? GOT_OBJ_TYPE_REF_DELTA); reflexivity.
Qed.

End OpenObjectFacts.

Lemma got_packfile_open_object_S1_blob :
  got_packfile_open_object sum_digest last_entry_type 5 fs_S1 id_42_00
    (mk_repo "objects/pack") = Some (Ok obj_S1_blob).
Proof.
  vm_compute. reflexivity.
Qed.

Lemma got_packfile_open_object_S1_delta :
  got_packfile_open_object sum_digest last_entry_type 5 fs_S1 id_00_01
    (mk_repo "objects/pack") = Some (Ok obj_S1_delta).
Proof.
  vm_compute. reflexivity.
Qed.

Lemma fs_S1_pack_size (data : list Z) :
  fs_file fs_S1 path_pack_S1 = Some data ->
  Z.of_nat (List.length data) <= INT64_MAX.
Proof.
  intros Hfile. vm_compute in Hfile. injection Hfile as <-.
  vm_compute. discriminate.
Qed.

(** The object of the example index with the id 00 01 ...: its record, at
    offset 80, has the header of an offset delta of size 5. *)
Lemma got_packfile_open_object_result_witness :
  exists data tslen rest,
    fs_file fs_S1 (obj_path_packfile obj_S1_delta) = Some data /\
    parse_object_type_and_size (mkFILE data 80)
    = Some (Ok (GOT_OBJ_TYPE_OFFSET_DELTA, 5, tslen, mkFILE data (80 + tslen))) /\
    obj_size obj_S1_delta = 0 /\
    last_entry_type (obj_deltas obj_S1_delta) = Ok (obj_type obj_S1_delta) /\
    entries (obj_deltas obj_S1_delta)
    = got_delta_open (obj_path_packfile obj_S1_delta) GOT_OBJ_TYPE_OFFSET_DELTA
        80 5 :: rest.
Proof.
  destruct (got_packfile_open_object_result sum_digest last_entry_type fs_S1
              (mk_repo "objects/pack") 5 id_00_01 obj_S1_delta
              got_packfile_open_object_S1_delta eq_refl)
    as (_ & _ & _ & packidx & idx & offset & data & type & size & tslen
        & Hsearch & _ & _ & Hfile & Hoff & Hparse & _ & Hcase).
  assert (Hs : search_packidx sum_digest fs_S1 (mk_repo "objects/pack") id_00_01
               = Some (Ok (packidx_S1_sum, 0))) by (vm_compute; reflexivity).
  rewrite Hs in Hsearch. injection Hsearch as <- <-.
  assert (Ho : get_object_offset packidx_S1_sum 0 = Ok 80) by (vm_compute; reflexivity).
  rewrite Ho in Hoff. injection Hoff as <-.
  destruct Hcase as [(Hflags & _) | (-> & _ & Hsize & Hbase & rest & Hent & _)].
  - discriminate Hflags.
  - assert (Hsz : size = 5).
    { clear - Hfile Hparse. vm_compute in Hfile.
      injection Hfile as <-. vm_compute in Hparse. congruence. }
    subst size. exists data, tslen, rest. repeat split; assumption.
Defined.

(** The blob of the example index: its record, at offset 40, has a header
    of one byte with the size 2, and the two bytes after it are given. *)
Lemma got_packfile_open_extract_plain_witness :
  exists data,
    fs_file fs_S1 (obj_path_packfile obj_S1_blob) = Some data /\
    parse_object_type_and_size (mkFILE data 40)
    = Some (Ok (GOT_OBJ_TYPE_BLOB, 2, 1, mkFILE data 41)) /\
    got_packfile_extract_object (fun _ _ => Err GOT_ERR_NO_OBJ)
      (fun _ _ _ _ _ => Err GOT_ERR_NOT_IMPL) fs_S1 obj_S1_blob
      (mk_repo "objects/pack")
    = Some (Ok (mkFILE (firstn 2 (skipn 41 data)) 0)).
Proof.
  destruct (got_packfile_open_extract_plain sum_digest last_entry_type fs_S1
              (mk_repo "objects/pack") (fun _ _ => Err GOT_ERR_NO_OBJ)
              (fun _ _ _ _ _ => Err GOT_ERR_NOT_IMPL) 5 id_42_00 obj_S1_blob
              got_packfile_open_object_S1_blob eq_refl eq_refl fs_S1_pack_size)
    as (packidx & idx & offset & data & type & size & tslen
        & Hsearch & _ & Hfile & Hoff & Hparse & _ & _ & _ & Hextract).
  assert (Hs : search_packidx sum_digest fs_S1 (mk_repo "objects/pack") id_42_00
               = Some (Ok (packidx_S1_sum, 1))) by (vm_compute; reflexivity).
  rewrite Hs in Hsearch. injection Hsearch as <- <-.
  assert (Ho : get_object_offset packidx_S1_sum 1 = Ok 40) by (vm_compute; reflexivity).
  rewrite Ho in Hoff. injection Hoff as <-.
  exists data. split; [exact Hfile |].
  vm_compute in Hfile. injection Hfile as <-.
  vm_compute in Hparse. injection Hparse as <- <- <-.
  split; [vm_compute; reflexivity |].
  rewrite Hextract. vm_compute. reflexivity.
Defined.

Lemma got_packfile_open_extract_deltified_witness :
  got_packfile_extract_object (fun _ _ => Err GOT_ERR_NO_OBJ)
    (fun _ _ _ _ _ => Err GOT_ERR_NOT_IMPL) fs_S1 obj_S1_delta
    (mk_repo "objects/pack")
  = Some (Ok (mkFILE [] 0)).
Proof.
  apply (got_packfile_open_extract_deltified sum_digest last_entry_type fs_S1
           (mk_repo "objects/pack") (fun _ _ => Err GOT_ERR_NO_OBJ)
           (fun _ _ _ _ _ => Err GOT_ERR_NOT_IMPL) 5 id_00_01 obj_S1_delta
           got_packfile_open_object_S1_delta).
  - vm_compute. discriminate.
  - reflexivity.
  - exact fs_S1_pack_size.
Defined.

(** ** Delta chains and pack files *)

Lemma delta_base_offset_same_pack (SHA1 : list Z -> list Z) (fs : filesystem)
    (repo : got_repository) (packfile : FILE) (path : string) (off : Z)
    (bc : base_call) :
  delta_base SHA1 fs repo packfile path GOT_OBJ_TYPE_OFFSET_DELTA off
  = Some (Ok bc) ->
  bc_path_packfile bc = path /\ f_data (bc_packfile bc) = f_data packfile.
Proof.
  unfold delta_base.
  change (GOT_OBJ_TYPE_OFFSET_DELTA =? GOT_OBJ_TYPE_OFFSET_DELTA) with true.
  cbn iota. unfold resolve_offset_delta.
  destruct (parse_offset_delta packfile off) as [[[base f1] | e |] |] eqn:Hpod;
    try discriminate.
  unfold fseeko. destruct (base <? 0); [discriminate |].
  destruct (parse_object_type_and_size (mkFILE (f_data f1) base))
    as [[[[[t s] len] f2] | e |] |] eqn:Hparse; try discriminate.
  intros Heq. injection Heq as <-. cbn [bc_path_packfile bc_packfile].
  split; [reflexivity |].
  unfold parse_object_type_and_size in Hparse.
  assert (H0 : 0 <= 0) by lia.
  assert (H07 : 0 <= 0 <= 7) by lia.
  assert (H064 : 0 <= 0 < 2 ^ 64) by lia.
  destruct (parse_object_type_and_size_loop_facts _ _ _ _ _ _ _ _ _ H0 H07 H064
              Hparse) as (_ & _ & _ & -> & _).
  cbn [f_data].
  unfold parse_offset_delta in Hpod.
  destruct (parse_negative_offset packfile) as [[[[o l] f3] | e |] |] eqn:Hneg;
    try discriminate.
  destruct (wrap_i64 (off - o) <=? 0); [discriminate |].
  injection Hpod as _ <-.
  destruct (parse_negative_offset_loop_pos _ _ _ _ _ _ _ Hneg) as (_ & -> & _).
  reflexivity.
Qed.

Lemma resolve_delta_chain_same_pack (SHA1 : list Z -> list Z) (fs : filesystem)
    (repo : got_repository) (fuel : nat) :
  forall deltas packfile path t off size chain,
    resolve_delta_chain SHA1 fuel fs deltas repo packfile path t off size
    = Some (Ok chain) ->
    exists added,
      entries chain = entries deltas ++ got_delta_open path t off size :: added /\
      offset_bases_same_pack (got_delta_open path t off size :: added).
Proof.
  induction fuel as [| fuel IH]; intros deltas packfile path t off size chain Hres;
    [discriminate |].
  rewrite resolve_delta_chain_step in Hres. cbn zeta in Hres.
  destruct (is_plain_type t) eqn:Hplain.
  - injection Hres as <-. cbn [entries]. exists []. split; [reflexivity |].
    exact I.
  - destruct (is_delta_type t) eqn:Hdelta; [| discriminate].
    destruct (delta_base SHA1 fs repo packfile path t off) as [[bc | e |] |] eqn:Hbase;
      try discriminate.
    destruct (IH _ _ _ _ _ _ _ Hres) as (added & Hent & Hsame).
    cbn [entries] in Hent.
    exists (got_delta_open (bc_path_packfile bc) (bc_type bc) (bc_offset bc)
              (bc_size bc) :: added).
    split; [rewrite Hent, <- app_assoc; reflexivity |].
    cbn [offset_bases_same_pack]. split; [| exact Hsame].
    cbn [got_delta_open delta_type delta_path_packfile].
    intros ->. apply (delta_base_offset_same_pack _ _ _ _ _ _ _ Hbase).
Qed.

(** X30: an offset delta has its base in the same pack file: in the chain
    that [resolve_delta_chain] returns, the entries it has added start with
    the entry of the record, and the entry after an offset delta has the
    path of the pack file of this delta. *)
Theorem resolve_delta_chain_offset_same_pack :
  forall (SHA1 : list Z -> list Z) (fs : filesystem) (repo : got_repository)
         (fuel : nat) (deltas : got_delta_chain) (packfile : FILE)
         (path : string) (t off size : Z) (chain : got_delta_chain),
    resolve_delta_chain SHA1 fuel fs deltas repo packfile path t off size
    = Some (Ok chain) ->
    exists added,
      entries chain = entries deltas ++ got_delta_open path t off size :: added /\
      offset_bases_same_pack (got_delta_open path t off size :: added).
Proof.
  intros SHA1 fs repo fuel. apply resolve_delta_chain_same_pack.
Qed.

Lemma resolve_delta_chain_offset_same_pack_witness :
  exists added,
    entries
      (mk_chain 2
         [mk_delta "objects/pack/pack-a.pack" GOT_OBJ_TYPE_OFFSET_DELTA 100 5;
          mk_delta "objects/pack/pack-a.pack" GOT_OBJ_TYPE_BLOB 21 5])
    = entries (mk_chain 0 [])
      ++ got_delta_open "objects/pack/pack-a.pack" GOT_OBJ_TYPE_OFFSET_DELTA
           100 5 :: added /\
    offset_bases_same_pack
      (got_delta_open "objects/pack/pack-a.pack" GOT_OBJ_TYPE_OFFSET_DELTA 100 5
       :: added).
Proof.
  apply (resolve_delta_chain_offset_same_pack sum_digest fs_empty
           (mk_repo "objects/pack") 2 (mk_chain 0 []) (mkFILE pack_S3 101)
           "objects/pack/pack-a.pack" GOT_OBJ_TYPE_OFFSET_DELTA 100 5).
  vm_compute. reflexivity.
Defined.

Section RefDeltaCycle.

Variable SHA1 : list Z -> list Z.
Variable fs : filesystem.
Variable repo : got_repository.

(** The call that the resolution of a ref-delta ends with, when its base is
    the record at [base_offset] of [base_path]. *)
Lemma delta_base_ref_delta (packfile : FILE) (path base_path : string)
    (data : list Z) (off base_offset t size tslen : Z) (f' : FILE) :
  ref_delta_base SHA1 fs repo packfile base_path data base_offset ->
  parse_object_type_and_size (mkFILE data base_offset)
  = Some (Ok (t, size, tslen, f')) ->
  delta_base SHA1 fs repo packfile path GOT_OBJ_TYPE_REF_DELTA off
  = Some (Ok (mk_base_call f' base_path t (wrap_i64 (base_offset + tslen))
                size)).
Proof.
  intros (id_bytes & f1 & packidx & idx & Hread & Hsearch & Hoff & Hm1 & Hpath
          & Hfile) Hparse.
  destruct (get_object_offset_bounds _ _ _ Hoff) as [[-> | Hpos] _];
    [contradiction |].
  unfold delta_base.
  change (GOT_OBJ_TYPE_REF_DELTA =? GOT_OBJ_TYPE_OFFSET_DELTA) with false.
  cbn iota. unfold resolve_ref_delta.
  rewrite Hread, Hsearch, Hoff.
  destruct (Z.eqb_spec base_offset (-1)); [contradiction |].
  rewrite Hpath. unfold fopen. rewrite Hfile. unfold fseeko.
  destruct (Z.ltb_spec base_offset 0); [lia |].
  cbn [f_data]. rewrite Hparse. reflexivity.
Qed.

(** Two ref-deltas, each the base of the other: the resolution of either
    does not return, whatever the fuel. *)
Lemma resolve_delta_chain_ref_cycle
    (dataA dataB : list Z) (pathA pathB : string) (oA oB sA sB lA lB : Z) :
  parse_object_type_and_size (mkFILE dataA oA)
  = Some (Ok (GOT_OBJ_TYPE_REF_DELTA, sA, lA, mkFILE dataA (oA + lA))) ->
  parse_object_type_and_size (mkFILE dataB oB)
  = Some (Ok (GOT_OBJ_TYPE_REF_DELTA, sB, lB, mkFILE dataB (oB + lB))) ->
  ref_delta_base SHA1 fs repo (mkFILE dataA (oA + lA)) pathB dataB oB ->
  ref_delta_base SHA1 fs repo (mkFILE dataB (oB + lB)) pathA dataA oA ->
  forall fuel deltas path off size,
    resolve_delta_chain SHA1 fuel fs deltas repo (mkFILE dataA (oA + lA)) path
      GOT_OBJ_TYPE_REF_DELTA off size = None.
Proof.
  intros HparseA HparseB HbaseA HbaseB fuel.
  assert (Hboth : forall deltas path off size,
            resolve_delta_chain SHA1 fuel fs deltas repo
              (mkFILE dataA (oA + lA)) path GOT_OBJ_TYPE_REF_DELTA off size
            = None /\
            resolve_delta_chain SHA1 fuel fs deltas repo
              (mkFILE dataB (oB + lB)) path GOT_OBJ_TYPE_REF_DELTA off size
            = None);
    [| intros deltas path off size; apply Hboth].
  induction fuel as [| fuel IH]; intros deltas path off size;
    [split; reflexivity |].
  rewrite !resolve_delta_chain_step. cbn zeta.
  change (is_plain_type GOT_OBJ_TYPE_REF_DELTA) with false.
  change (is_delta_type GOT_OBJ_TYPE_REF_DELTA) with true. cbn iota.
  rewrite (delta_base_ref_delta _ path _ _ off _ _ _ _ _ HbaseA HparseB).
  rewrite (delta_base_ref_delta _ path _ _ off _ _ _ _ _ HbaseB HparseA).
  cbn [bc_packfile bc_path_packfile bc_type bc_offset bc_size].
  split; apply IH.
Qed.

End RefDeltaCycle.

Section Ring.

Variable SHA1 : list Z -> list Z.
Hypothesis SHA1_length : forall bytes, List.length (SHA1 bytes) = 20%nat.

Lemma packidx_ring_of_file :
  packidx_of_file SHA1 (fs_ring SHA1) path_packidx_S1 (packidx_ring_sum SHA1).
Proof.
  unfold packidx_of_file, packidx_ring_sum.
  split; [vm_compute; reflexivity |].
  split; [vm_compute; reflexivity |].
  split; [vm_compute; reflexivity |].
  split.
  { unfold packidx_sized.
    cbn [packidx_ring magic version fanout_table sorted_ids crc32 offsets
         large_offsets trailer packfile_sha1 packidx_sha1].
    repeat split; try (vm_compute; reflexivity); try apply SHA1_length;
      try discriminate;
      repeat (apply Forall_cons; [reflexivity |]); try apply Forall_nil. }
  split; [apply memcmp_refl |].
  split.
  - exists (Z.of_nat (List.length pack_ring)).
    split; [vm_compute; reflexivity |].
    cbn [packidx_ring large_offsets].
    split; [intros _; vm_compute; discriminate | reflexivity].
  - exists []. rewrite app_nil_r.
    unfold fs_ring. cbn [fs_file]. rewrite String.eqb_refl. reflexivity.
Qed.

(** The search finds each of the three ids in the index. *)
Lemma search_packidx_ring (id : got_object_id) (idx : Z) :
  In (id, idx) [(id_00_01, 0); (id_42_00, 1); (id_ff, 2)] ->
  search_packidx SHA1 (fs_ring SHA1) (mk_repo "objects/pack") id
  = Some (Ok (packidx_ring_sum SHA1, idx)).
Proof.
  intros Hin. unfold search_packidx. cbn [path_objects_pack fs_ring fs_dir].
  change (String.eqb "objects/pack" "objects/pack") with true. cbn iota.
  do 3 (cbn [search_packidx_loop];
        match goal with
        | |- context [is_packidx_filename ?n ?l] =>
            replace (is_packidx_filename n l) with false
              by (vm_compute; reflexivity)
        end; cbn [negb]).
  cbn [search_packidx_loop].
  match goal with
  | |- context [is_packidx_filename ?n ?l] =>
      replace (is_packidx_filename n l) with true by (vm_compute; reflexivity)
  end. cbn [negb].
  change ("objects/pack" ++ "/" ++ name_S1 ++ GOT_PACKIDX_SUFFIX)%string
    with path_packidx_S1.
  rewrite (got_packidx_open_of_content _ _ _ _ packidx_ring_of_file).
  unfold packidx_ring_sum.
  destruct Hin as [Heq | [Heq | [Heq | []]]]; injection Heq as <- <-;
    vm_compute; reflexivity.
Qed.

(** The ref-delta at offset 12 has the record at offset 33 as its base, and
    the ref-delta at offset 33 has the record at offset 12 as its base. *)
Lemma ref_delta_base_ring_12 :
  ref_delta_base SHA1 (fs_ring SHA1) (mk_repo "objects/pack")
    (mkFILE pack_ring (12 + 1)) path_pack_S1 pack_ring 33.
Proof.
  exists (sha1 id_42_00), (mkFILE pack_ring 33), (packidx_ring_sum SHA1), 1.
  split; [vm_compute; reflexivity |].
  split; [apply search_packidx_ring; right; left; reflexivity |].
  split; [vm_compute; reflexivity |].
  split; [discriminate |].
  split; vm_compute; reflexivity.
Qed.

Lemma ref_delta_base_ring_33 :
  ref_delta_base SHA1 (fs_ring SHA1) (mk_repo "objects/pack")
    (mkFILE pack_ring (33 + 1)) path_pack_S1 pack_ring 12.
Proof.
  exists (sha1 id_00_01), (mkFILE pack_ring 54), (packidx_ring_sum SHA1), 0.
  split; [vm_compute; reflexivity |].
  split; [apply search_packidx_ring; left; reflexivity |].
  split; [vm_compute; reflexivity |].
  split; [discriminate |].
  split; vm_compute; reflexivity.
Qed.

(** The resolution of the ref-delta at offset 12 does not return. *)
Lemma resolve_delta_chain_ring (fuel : nat) (deltas : got_delta_chain)
    (path : string) (off size : Z) :
  resolve_delta_chain SHA1 fuel (fs_ring SHA1) deltas (mk_repo "objects/pack")
    (mkFILE pack_ring 13) path GOT_OBJ_TYPE_REF_DELTA off size = None.
Proof.
  apply (resolve_delta_chain_ref_cycle SHA1 (fs_ring SHA1)
           (mk_repo "objects/pack") pack_ring pack_ring path_pack_S1
           path_pack_S1 12 33 5 5 1 1).
  - vm_compute. reflexivity.
  - vm_compute. reflexivity.
  - exact ref_delta_base_ring_12.
  - exact ref_delta_base_ring_33.
Qed.

(** Opening the object [id_ff], the offset-delta at offset 54 whose base is
    the ref-delta at offset 12, does not return either. *)
Lemma got_packfile_open_object_ring
    (got_delta_chain_get_base_type : got_delta_chain -> result Z) (fuel : nat) :
  got_packfile_open_object SHA1 got_delta_chain_get_base_type fuel (fs_ring SHA1)
    id_ff (mk_repo "objects/pack") = None.
Proof.
  unfold got_packfile_open_object.
  rewrite (search_packidx_ring id_ff 2) by (right; right; left; reflexivity).
  unfold open_packed_object.
  replace (get_object_offset (packidx_ring_sum SHA1) 2) with (Ok 54 : result Z)
    by (vm_compute; reflexivity).
  change (wrap_u64 54 =? wrap_u64 (-1)) with false. cbn iota.
  replace (get_packfile_path (mk_repo "objects/pack") (packidx_ring_sum SHA1))
    with (Ok path_pack_S1) by (vm_compute; reflexivity).
  replace (fopen (fs_ring SHA1) path_pack_S1) with (Some (mkFILE pack_ring 0))
    by (vm_compute; reflexivity).
  replace (read_packfile_hdr (mkFILE pack_ring 0) (packidx_ring_sum SHA1))
    with (Ok (mkFILE pack_ring 12)) by (vm_compute; reflexivity).
  replace (fseeko (mkFILE pack_ring 12) 54) with (Some (mkFILE pack_ring 54))
    by (vm_compute; reflexivity).
  replace (parse_object_type_and_size (mkFILE pack_ring 54))
    with (Some (Ok (GOT_OBJ_TYPE_OFFSET_DELTA, 5, 1, mkFILE pack_ring 55)))
    by (vm_compute; reflexivity).
  cbn iota.
  change ((GOT_OBJ_TYPE_OFFSET_DELTA =? GOT_OBJ_TYPE_COMMIT)
          || (GOT_OBJ_TYPE_OFFSET_DELTA =? GOT_OBJ_TYPE_TREE)
          || (GOT_OBJ_TYPE_OFFSET_DELTA =? GOT_OBJ_TYPE_BLOB)) with false.
  change (GOT_OBJ_TYPE_OFFSET_DELTA =? GOT_OBJ_TYPE_OFFSET_DELTA) with true.
  cbn iota. unfold open_offset_delta_object. cbn zeta.
  destruct fuel as [| fuel]; [reflexivity |].
  rewrite resolve_delta_chain_step. cbn zeta.
  change (is_plain_type GOT_OBJ_TYPE_OFFSET_DELTA) with false.
  change (is_delta_type GOT_OBJ_TYPE_OFFSET_DELTA) with true. cbn iota.
  replace (delta_base SHA1 (fs_ring SHA1) (mk_repo "objects/pack")
             (mkFILE pack_ring 55) path_pack_S1 GOT_OBJ_TYPE_OFFSET_DELTA 54)
    with (Some (Ok (mk_base_call (mkFILE pack_ring 13) path_pack_S1
                      GOT_OBJ_TYPE_REF_DELTA 13 5)))
    by (vm_compute; reflexivity).
  cbn [bc_packfile bc_path_packfile bc_type bc_offset bc_size].
  rewrite resolve_delta_chain_ring. reflexivity.
Qed.

End Ring.





(** * More properties of tog/tog.c *)

(** ** Count prefix *)

Lemma get_compound_key_loop_bound (keys : list Z) :
  forall n c,
    0 <= n <= 99999989 -> char_0 <= c <= char_9 ->
    let '(n', c', keys') := get_compound_key_loop keys n c in
    0 <= n' <= 99999989 /\ is_digit_key c' = false /\
    exists ds, keys = ds ++ skipn (List.length ds) keys /\
               Forall (fun k => is_digit_key k = true) ds /\
               c' = fst (wgetch (skipn (List.length ds) keys)) /\
               keys' = snd (wgetch (skipn (List.length ds) keys)).
Proof.
  induction keys as [| k keys IH]; intros n c Hn Hc.
  - cbn [get_compound_key_loop].
    assert (Hstep : 0 <= (if n >=? 9999999 then 9999999
                          else wrap_i32 (n * 10 + (c - char_0))) <= 99999989).
    { unfold char_0, char_9 in *. destruct (Z.geb_spec n 9999999); [lia |].
      rewrite wrap_i32_small by lia. lia. }
    split; [exact Hstep |]. split; [reflexivity |].
    exists []. repeat split. constructor.
  - cbn [get_compound_key_loop].
    assert (Hstep : 0 <= (if n >=? 9999999 then 9999999
                          else wrap_i32 (n * 10 + (c - char_0))) <= 99999989).
    { unfold char_0, char_9 in *. destruct (Z.geb_spec n 9999999); [lia |].
      rewrite wrap_i32_small by lia. lia. }
    set (n1 := if n >=? 9999999 then _ else _) in *.
    fold (is_digit_key k).
    destruct (is_digit_key k) eqn:Hk.
    + assert (Hkc : char_0 <= k <= char_9).
      { unfold is_digit_key in Hk.
        destruct (Z.geb_spec k char_0); [| discriminate].
        destruct (Z.leb_spec k char_9); [lia | discriminate]. }
      specialize (IH n1 k Hstep Hkc).
      destruct (get_compound_key_loop keys n1 k) as [[n' c'] keys'].
      destruct IH as (Hn' & Hc' & ds & Hds & Hall & Hfst & Hsnd).
      split; [exact Hn' |]. split; [exact Hc' |].
      exists (k :: ds). cbn [List.length skipn app].
      split; [f_equal; exact Hds |].
      split; [constructor; assumption |]. split; assumption.
    + split; [exact Hstep |]. split; [exact Hk |].
      exists []. repeat split. constructor.
Qed.

(** X19: the count [get_compound_key] stores for a first digit key is an
    [int] between 0 and 99999989, the key it returns is not a digit key (it
    is ERR when no key came in time), and the keys it has read are the digit
    keys before it. *)
Theorem get_compound_key_count_range :
  forall (view : tog_view) (c : Z) (keys : list Z),
    char_0 <= c <= char_9 ->
    0 <= count (fst (fst (get_compound_key view c keys))) <= 99999989 /\
    is_digit_key (snd (fst (get_compound_key view c keys))) = false /\
    exists ds,
      keys = ds ++ skipn (List.length ds) keys /\
      Forall (fun k => is_digit_key k = true) ds /\
      (snd (fst (get_compound_key view c keys)),
       snd (get_compound_key view c keys))
      = wgetch (skipn (List.length ds) keys).
Proof.
  intros view c keys Hc. unfold get_compound_key.
  pose proof (get_compound_key_loop_bound keys 0 c ltac:(lia) Hc) as H.
  destruct (get_compound_key_loop keys 0 c) as [[n' c'] keys'].
  destruct H as (Hn & Hc' & ds & Hds & Hall & Hfst & Hsnd).
  cbn [fst snd count].
  split; [exact Hn |]. split; [exact Hc' |].
  exists ds. split; [exact Hds |]. split; [exact Hall |].
  rewrite Hfst, Hsnd. destruct (wgetch _); reflexivity.
Qed.

Lemma get_compound_key_count_range_witness :
  0 <= count (fst (fst (get_compound_key (mk_view 0 0) 57
                          [57; 57; 57; 57; 57; 57; 57; 57; 106])))
  <= 99999989.
Proof.
  apply (get_compound_key_count_range (mk_view 0 0) 57
           [57; 57; 57; 57; 57; 57; 57; 57; 106]).
  unfold char_0, char_9. lia.
Defined.

Lemma decimal_from_bounds (ds : list Z) :
  forall (n : Z) (m : nat),
    0 <= n < 10 ^ Z.of_nat m ->
    Forall (fun d => 0 <= d <= 9) ds ->
    n <= decimal_from n ds < 10 ^ Z.of_nat (m + List.length ds).
Proof.
  induction ds as [| d ds IH]; intros n m Hn Hds.
  - cbn [decimal_from fold_left List.length]. rewrite Nat.add_0_r. lia.
  - inversion Hds as [| ? ? Hd Hds']; subst.
    change (decimal_from n (d :: ds)) with (decimal_from (n * 10 + d) ds).
    assert (Hn' : 0 <= n * 10 + d < 10 ^ Z.of_nat (S m)).
    { rewrite Nat2Z.inj_succ, Z.pow_succ_r by lia. lia. }
    specialize (IH (n * 10 + d) (S m) Hn' Hds').
    cbn [List.length]. replace (m + S (List.length ds))%nat
      with (S m + List.length ds)%nat by lia.
    lia.
Qed.

(** X20: the lines of [view_input] that read the key, when the user has
    typed a count of up to seven digits that does not start with 0 and then
    a key [c] that is not a digit.  While a count above 1 is pending, no key
    is read: the key stored in the view is given again and the count goes
    down by one.  With a pending count of 0 or 1 the keys are read: the
    count stored is the decimal value of the digits, between 1 and 9999999,
    and the key given and stored is [c]; the keys after [c] are left. *)
Theorem view_input_key_count :
  forall (ch0 n d : Z) (ds : list Z) (c : Z) (rest : list Z),
    0 <= n <= INT_MAX ->
    1 <= d <= 9 ->
    Forall (fun d => 0 <= d <= 9) ds ->
    (1 + List.length ds <= 7)%nat ->
    is_digit_key c = false ->
    let keys := map (fun d => char_0 + d) (d :: ds) ++ c :: rest in
    let N := decimal_from 0 (d :: ds) in
    1 <= N <= 9999999 /\
    view_input_key (mk_view ch0 n) keys
    = if 1 <? n then (mk_view ch0 (n - 1), ch0, keys)
      else (mk_view c N, c, rest).
Proof.
  intros ch0 n d ds c rest Hn Hd Hds Hlen Hc keys N.
  assert (HN : 1 <= N <= 9999999).
  { unfold N.
    change (decimal_from 0 (d :: ds)) with (decimal_from (0 * 10 + d) ds).
    pose proof (decimal_from_bounds ds (0 * 10 + d) 1 ltac:(lia) Hds) as Hb.
    assert (10 ^ Z.of_nat (1 + List.length ds) <= 10 ^ 7)
      by (apply Z.pow_le_mono_r; lia).
    lia. }
  split; [exact HN |].
  assert (Hread : forall v,
             (let '(c', keys') := wgetch keys in
              if (c' >=? char_1) && (c' <=? char_9)
              then let '(view, c', keys') := get_compound_key v c' keys' in
                   (mk_view c' (count view), c', keys')
              else (v, c', keys'))
             = (mk_view c N, c, rest)).
  { intros v. unfold keys. cbn [map app wgetch].
    assert (Hd19 : (char_0 + d >=? char_1) && (char_0 + d <=? char_9) = true).
    { unfold char_0, char_1, char_9.
      destruct (Z.geb_spec (48 + d) 49); [| lia].
      destruct (Z.leb_spec (48 + d) 57); [reflexivity | lia]. }
    rewrite Hd19. unfold get_compound_key.
    rewrite (get_compound_key_loop_short ds 0 0 d (c :: rest));
      [| exact Hds | lia | cbn; lia | lia | exact Hc].
    reflexivity. }
  unfold view_input_key. cbn [count ch]. unfold INT_MAX in Hn.
  destruct (Z.eqb_spec n 0) as [-> | Hn0]; cbn [negb].
  - destruct (Z.ltb_spec 1 0); [lia |]. apply Hread.
  - rewrite wrap_i32_small by lia.
    destruct (Z.eqb_spec (n - 1) 0) as [Hn1 | Hn1].
    + destruct (Z.ltb_spec 1 n); [lia |]. apply Hread.
    + destruct (Z.ltb_spec 1 n); [reflexivity | lia].
Qed.

(** The keys 1 2 j q: with no count pending, the count 12 and the key j are
    stored and q is left; with the count 12 pending, the stored key is given
    and the count goes down to 11. *)
Lemma view_input_key_count_witness :
  view_input_key (mk_view 0 0) [49; 50; 106; 113]
  = (mk_view 106 12, 106, [113]) /\
  view_input_key (mk_view 106 12) [49; 50; 106; 113]
  = (mk_view 106 11, 106, [49; 50; 106; 113]).
Proof.
  split.
  - apply (view_input_key_count 0 0 1 [2] 106 [113]).
    + unfold INT_MAX. lia.
    + lia.
    + repeat constructor; lia.
    + cbn. lia.
    + reflexivity.
  - apply (view_input_key_count 106 12 1 [2] 106 [113]).
    + unfold INT_MAX. lia.
    + lia.
    + repeat constructor; lia.
    + cbn. lia.
    + reflexivity.
Defined.

(** ** Annotation of lines *)

Lemma length_set_line (l : list tog_blame_line) :
  forall i v, List.length (set_line l i v) = List.length l.
Proof.
  induction l as [| x l IH]; intros i v; [reflexivity |].
  destruct i as [| i]; cbn [set_line List.length]; [reflexivity |].
  rewrite IH. reflexivity.
Qed.

Lemma nth_error_set_line_other (l : list tog_blame_line) :
  forall i j v, i <> j -> nth_error (set_line l i v) j = nth_error l j.
Proof.
  induction l as [| x l IH]; intros i j v Hij; [reflexivity |].
  destruct i as [| i], j as [| j]; cbn [set_line nth_error];
    try reflexivity; [lia |].
  apply IH. lia.
Qed.

Lemma blame_cb_keeps_annotated (calls : cb_calls) (a : tog_blame_cb_args)
    (n lineno : Z) (id : got_object_id) (i : nat) (l : tog_blame_line) :
  nth_error (lines a) i = Some l -> annotated l <> 0 ->
  nth_error (lines (snd (blame_cb calls a n lineno id))) i = Some l /\
  List.length (lines (snd (blame_cb calls a n lineno id)))
  = List.length (lines a) /\
  nlines (snd (blame_cb calls a n lineno id)) = nlines a.
Proof.
  intros Hl Hann. unfold blame_cb.
  destruct (_ || _); [auto |].
  destruct (negb (lock_errcode calls =? 0)); [auto |].
  destruct (negb (quit a =? 0)).
  { destruct (negb (unlock_errcode calls =? 0)); auto. }
  destruct (lineno =? -1).
  { destruct (negb (unlock_errcode calls =? 0)); auto. }
  destruct (nth_error (lines a) (Z.to_nat (lineno - 1))) as [line |] eqn:Hline.
  2: { destruct (negb (unlock_errcode calls =? 0)); auto. }
  destruct (Z.eqb_spec (annotated line) 0) as [Hzero | Hnz]; cbn [negb].
  2: { destruct (negb (unlock_errcode calls =? 0)); auto. }
  assert (Hne : Z.to_nat (lineno - 1) <> i).
  { intros Heq. rewrite Heq, Hl in Hline. injection Hline as <-. contradiction. }
  destruct (negb (dup_ok calls));
    destruct (negb (unlock_errcode calls =? 0)); cbn [snd lines nlines];
    rewrite (nth_error_set_line_other _ _ _ _ Hne), length_set_line; auto.
Qed.

(** X21: a line is annotated once: whatever the annotation thread and the
    UI thread do afterwards, a line that is annotated keeps its commit id,
    and the number of lines does not change. *)
Theorem blame_line_annotated_once :
  forall (evs : list blame_event) (a : tog_blame_cb_args) (i : nat)
         (l : tog_blame_line),
    nth_error (lines a) i = Some l -> annotated l <> 0 ->
    nth_error (lines (snd (blame_run a evs))) i = Some l /\
    List.length (lines (snd (blame_run a evs))) = List.length (lines a) /\
    nlines (snd (blame_run a evs)) = nlines a.
Proof.
  induction evs as [| ev evs IH]; intros a i l Hl Hann; [auto |].
  cbn [blame_run].
  destruct (blame_step a ev) as [err a'] eqn:Hstep.
  assert (Hstep' : nth_error (lines a') i = Some l /\
                   List.length (lines a') = List.length (lines a) /\
                   nlines a' = nlines a).
  { destruct ev as [| calls n lineno id]; cbn [blame_step] in Hstep.
    - injection Hstep as _ <-. auto.
    - pose proof (blame_cb_keeps_annotated calls a n lineno id i l Hl Hann) as H.
      rewrite Hstep in H. exact H. }
  destruct Hstep' as (Hl' & Hlen' & Hn').
  specialize (IH a' i l Hl' Hann).
  destruct (blame_run a' evs) as [errs a'']. cbn [snd] in *.
  destruct IH as (H1 & H2 & H3).
  split; [exact H1 |]. split; congruence.
Qed.

Lemma blame_line_annotated_once_witness :
  nth_error
    (lines (snd (blame_run
                   (mk_cb_args [mk_blame_line 1 (Some id_42_00);
                                mk_blame_line 0 None] 2 0)
                   [Ev_blame_cb (mk_cb_calls 0 0 true) 2 1 id_ff;
                    Ev_blame_cb (mk_cb_calls 0 0 true) 2 2 id_ff]))) 0
  = Some (mk_blame_line 1 (Some id_42_00)).
Proof.
  apply (blame_line_annotated_once
           [Ev_blame_cb (mk_cb_calls 0 0 true) 2 1 id_ff;
            Ev_blame_cb (mk_cb_calls 0 0 true) 2 2 id_ff]
           (mk_cb_args [mk_blame_line 1 (Some id_42_00); mk_blame_line 0 None]
              2 0) 0 (mk_blame_line 1 (Some id_42_00)));
    [reflexivity | discriminate].
Defined.

(** ** Loading commits during a search *)

Lemma queue_commits_loop_no_match (regexec : string -> Z)
    (pre : list (got_object_id * got_commit_object)) :
  forall g q,
    Forall (fun c => commit_matches regexec c = false) pre ->
    exists q',
      queued q' = queued q ++ pre /\
      queue_commits_loop regexec (pre ++ g) q TOG_SEARCH_FORWARD 0
      = queue_commits_loop regexec g q' TOG_SEARCH_FORWARD 0.
Proof.
  induction pre as [| [id commit] pre IH]; intros g q Hpre.
  - exists q. rewrite app_nil_r. split; reflexivity.
  - inversion Hpre as [| ? ? Hc Hpre']; subst.
    cbn [app queue_commits_loop].
    unfold commit_matches in Hc. cbn [fst snd] in Hc.
    change ((TOG_SEARCH_FORWARD =? TOG_SEARCH_FORWARD) && (0 =? 0)) with true.
    cbn iota.
    destruct (match_commit regexec id commit) as [m | e |] eqn:Hm.
    + destruct (Z.eqb_spec m 0) as [-> | Hnz]; [| discriminate Hc].
      cbn [negb].
      change ((TOG_SEARCH_FORWARD =? TOG_SEARCH_FORWARD) && (0 =? 0)) with true.
      cbn iota.
      set (q1 := mk_queue _ _).
      destruct (IH g q1 Hpre') as (q' & Hq' & Heq).
      exists q'. split; [| exact Heq].
      rewrite Hq'. unfold queued, q1. cbn [head].
      rewrite map_app, <- app_assoc. reflexivity.
    + unfold match_commit in Hm. destruct (_ || _); discriminate.
    + unfold match_commit in Hm. destruct (_ || _); discriminate.
Qed.

(** X22: while a forward search is going on, one call of [queue_commits]
    loads commits up to the first one that the search expression matches:
    the commits before it and the match itself are appended to the queue in
    the order of the graph, and the search is told that there is more; when
    no commit of the graph matches, they are all appended and the call ends
    with GOT_ERR_ITER_COMPLETED. *)
Theorem queue_commits_until_match :
  forall (regexec : string -> Z)
         (pre : list (got_object_id * got_commit_object)) (q : commit_queue),
    Forall (fun c => commit_matches regexec c = false) pre ->
    (forall x post,
        commit_matches regexec x = true ->
        let r := queue_commits regexec
                   (mk_log_args (pre ++ x :: post) q TOG_SEARCH_FORWARD 0) in
        fst r = None /\ graph (snd r) = post /\
        search_next_done (snd r) = TOG_SEARCH_HAVE_MORE /\
        queued (commits (snd r)) = queued q ++ pre ++ [x]) /\
    (let r := queue_commits regexec (mk_log_args pre q TOG_SEARCH_FORWARD 0) in
     fst r = Some GOT_ERR_ITER_COMPLETED /\ graph (snd r) = [] /\
     search_next_done (snd r) = 0 /\
     queued (commits (snd r)) = queued q ++ pre).
Proof.
  intros regexec pre q Hpre. split.
  - intros [id commit] post Hx. cbn zeta. unfold queue_commits.
    cbn [graph commits searching search_next_done].
    destruct (queue_commits_loop_no_match regexec pre ((id, commit) :: post) q Hpre)
      as (q' & Hq' & ->).
    cbn [queue_commits_loop].
    change ((TOG_SEARCH_FORWARD =? TOG_SEARCH_FORWARD) && (0 =? 0)) with true.
    cbn iota.
    unfold commit_matches in Hx. cbn [fst snd] in Hx.
    destruct (match_commit regexec id commit) as [m | e |];
      try discriminate Hx.
    destruct (m =? 0); [discriminate Hx |]. cbn [negb].
    change ((TOG_SEARCH_FORWARD =? TOG_SEARCH_FORWARD)
            && (TOG_SEARCH_HAVE_MORE =? 0)) with false.
    cbn iota. cbn [fst snd graph commits search_next_done].
    repeat split.
    unfold queued in *. cbn [head]. rewrite map_app, Hq', <- app_assoc.
    reflexivity.
  - cbn zeta. unfold queue_commits.
    cbn [graph commits searching search_next_done].
    destruct (queue_commits_loop_no_match regexec pre [] q Hpre)
      as (q' & Hq' & Heq).
    rewrite app_nil_r in Heq. rewrite Heq.
    cbn [queue_commits_loop fst snd graph commits search_next_done].
    repeat split. exact Hq'.
Qed.

Lemma queue_commits_until_match_witness :
  let r := queue_commits regexec_fix
             (mk_log_args [commit_init; commit_fix; commit_more]
                commit_queue_init TOG_SEARCH_FORWARD 0) in
  fst r = None /\ graph (snd r) = [commit_more] /\
  search_next_done (snd r) = TOG_SEARCH_HAVE_MORE /\
  queued (commits (snd r)) = [commit_init; commit_fix].
Proof.
  apply (proj1 (queue_commits_until_match regexec_fix [commit_init]
                  commit_queue_init
                  (Forall_cons _ (eq_refl : commit_matches regexec_fix commit_init = false)
                     (Forall_nil _)))
           commit_fix [commit_more] eq_refl).
Defined.

(** ** Clearing the commit queue *)

Lemma free_commits_loop_empties (fuel : nat) :
  forall q, (List.length (head q) < fuel)%nat ->
            exists n, free_commits_loop fuel q = Some (mk_queue n []).
Proof.
  induction fuel as [| fuel IH]; intros q Hfuel; [lia |].
  destruct q as [n l]. cbn [head] in *. cbn [free_commits_loop head].
  destruct l as [| e l].
  - exists n. reflexivity.
  - cbn [pop_commit head ncommits]. apply IH. cbn [head List.length] in *. lia.
Qed.

(** X23: [free_commits] returns for every queue, without a call of
    [pop_commit] on an empty queue, and leaves no entry; when [ncommits] was
    the number of entries, at most INT_MAX, it leaves the queue as
    [open_log_view] had made it, with [ncommits] 0. *)
Theorem free_commits_empties :
  forall q : commit_queue,
    exists n,
      free_commits q = Some (mk_queue n []) /\
      (ncommits q = Z.of_nat (List.length (head q)) /\
       Z.of_nat (List.length (head q)) <= INT_MAX ->
       mk_queue n [] = commit_queue_init).
Proof.
  intros q. unfold free_commits.
  destruct (free_commits_loop_empties (S (List.length (head q))) q) as [n Hn];
    [lia |].
  exists n. split; [exact Hn |].
  intros [Hcount Hmax].
  rewrite free_commits_loop_ok in Hn by (try assumption; lia).
  injection Hn as <-. reflexivity.
Qed.

(** ** Split screen *)

(** X24: where a child view starts: on a terminal of fewer than 120 columns,
    or for a view that does not start at column 0, the child takes the whole
    screen; otherwise the screen is split, the child gets 80 columns or
    half of the screen, whichever is more, at least 40 columns are left of
    it, and at most one column more than the child has. *)
Theorem view_split_begin_x_spec :
  forall COLS begin_x : Z,
    0 <= COLS <= INT_MAX ->
    (view_split_begin_x COLS begin_x = 0 <-> begin_x > 0 \/ COLS < 120) /\
    (view_split_begin_x COLS begin_x <> 0 ->
     COLS - view_split_begin_x COLS begin_x = MAX (Z.quot COLS 2) 80 /\
     40 <= view_split_begin_x COLS begin_x <= COLS - 80 /\
     view_split_begin_x COLS begin_x
     <= COLS - view_split_begin_x COLS begin_x + 1).
Proof.
  intros COLS begin_x HCOLS. unfold view_split_begin_x, MAX, INT_MAX in *.
  rewrite Z.quot_div_nonneg by lia.
  destruct (Z.gtb_spec begin_x 0) as [Hb | Hb]; cbn [orb].
  { split; [split; [left; lia | reflexivity] | intros H; contradiction H; reflexivity]. }
  destruct (Z.ltb_spec COLS 120) as [Hc | Hc].
  { split; [split; [right; lia | reflexivity] | intros H; contradiction H; reflexivity]. }
  assert (Hdiv : 2 * (COLS / 2) <= COLS < 2 * (COLS / 2) + 2).
  { pose proof (Z.div_mod COLS 2 ltac:(lia)).
    pose proof (Z.mod_pos_bound COLS 2 ltac:(lia)). lia. }
  destruct (Z.gtb_spec (COLS / 2) 80) as [Hh | Hh];
    rewrite wrap_i32_small by lia;
    (split; [split; [intros H; lia | intros [H | H]; lia] | intros _; lia]).
Qed.

Lemma view_split_begin_x_spec_witness :
  201 - view_split_begin_x 201 0 = MAX (Z.quot 201 2) 80 /\
  40 <= view_split_begin_x 201 0 <= 201 - 80 /\
  view_split_begin_x 201 0 <= 201 - view_split_begin_x 201 0 + 1.
Proof.
  apply (view_split_begin_x_spec 201 0).
  - unfold INT_MAX. lia.
  - vm_compute. discriminate.
Defined.

(** ** Tabs *)

Lemma has_tab_app (a b : string) :
  has_tab (a ++ b) = has_tab a || has_tab b.
Proof.
  induction a as [| c a IH]; [reflexivity |].
  cbn [String.append has_tab]. rewrite IH, orb_assoc. reflexivity.
Qed.

Lemma has_tab_spaces (k : nat) : has_tab (spaces k) = false.
Proof.
  induction k as [| k IH]; [reflexivity |]. cbn [spaces has_tab]. exact IH.
Qed.

Lemma length_spaces (k : nat) : String.length (spaces k) = k.
Proof.
  induction k as [| k IH]; [reflexivity |]. cbn [spaces String.length].
  rewrite IH. reflexivity.
Qed.

Lemma expand_tab_loop_ok (T : Z) (src : string) :
  0 < T < 2 ^ 31 ->
  forall (dst : string) (cap n sz : Z),
    sz = Z.of_nat (String.length dst) ->
    sz + Z.of_nat (String.length src) < cap ->
    cap <= n + 1 ->
    n + T * Z.of_nat (String.length src) < 2 ^ 63 ->
    has_tab dst = false ->
    exists out,
      expand_tab_loop T src dst cap n sz = Ok out /\
      has_tab out = false /\
      (has_tab src = false -> out = (dst ++ src)%string) /\
      Z.of_nat (String.length dst) + Z.of_nat (String.length src)
      <= Z.of_nat (String.length out)
      <= Z.of_nat (String.length dst) + T * Z.of_nat (String.length src).
Proof.
  intros HT. induction src as [| c src IH]; intros dst cap n sz Hsz Hfit Hcap Hn Hdst.
  - cbn [expand_tab_loop String.length] in *.
    destruct (Z.ltb_spec sz cap); [| lia].
    exists dst. split; [reflexivity |]. split; [exact Hdst |].
    split; [intros _; clear; induction dst as [| x d IHd];
              [reflexivity | cbn; rewrite <- IHd; reflexivity] |].
    lia.
  - cbn [expand_tab_loop String.length has_tab] in *.
    rewrite Nat2Z.inj_succ in *.
    destruct (Ascii.eqb c char_tab) eqn:Hc.
    + rewrite (wrap_u64_small T) by lia.
      destruct (Z.eqb_spec T 0); [lia |].
      pose proof (Z.mod_pos_bound sz T ltac:(lia)) as Hmod.
      rewrite (wrap_u64_small (T - sz mod T)) by lia.
      set (nb := T - sz mod T) in *.
      rewrite (wrap_u64_small (n + nb)) by lia.
      rewrite (wrap_u64_small (sz + nb)) by lia.
      destruct (Z.leb_spec (sz + nb) (n + nb)); [| lia].
      destruct (IH (dst ++ spaces (Z.to_nat nb))%string (n + nb) (n + nb) (sz + nb))
        as (out & Hout & Htab & _ & Hlen).
      * rewrite string_length_app, length_spaces. lia.
      * lia.
      * lia.
      * nia.
      * rewrite has_tab_app, Hdst, has_tab_spaces. reflexivity.
      * exists out. split; [exact Hout |]. split; [exact Htab |].
        split; [discriminate |].
        rewrite string_length_app, length_spaces in Hlen. nia.
    + rewrite (wrap_u64_small (sz + 1)) by lia.
      destruct (Z.ltb_spec sz cap); [| lia].
      destruct (IH (dst ++ String c EmptyString)%string cap n (sz + 1))
        as (out & Hout & Htab & Hid & Hlen).
      * rewrite string_length_app. cbn [String.length]. lia.
      * lia.
      * lia.
      * nia.
      * rewrite has_tab_app, Hdst. cbn [has_tab]. rewrite Hc. reflexivity.
      * exists out. split; [exact Hout |]. split; [exact Htab |].
        rewrite string_length_app in Hlen. cbn [String.length] in Hlen.
        split; [| nia].
        cbn [orb]. intros Hsrc. rewrite (Hid Hsrc), string_app_assoc.
        reflexivity.
Qed.

Lemma expand_tab_ok :
  forall (TABSIZE : Z) (src : string),
    0 < TABSIZE <= INT_MAX ->
    Z.of_nat (String.length src) <= INT_MAX ->
    exists dst,
      expand_tab TABSIZE src = Ok dst /\
      has_tab dst = false /\
      (has_tab src = false -> dst = src) /\
      Z.of_nat (String.length src) <= Z.of_nat (String.length dst)
      <= TABSIZE * Z.of_nat (String.length src).
Proof.
  intros T src HT Hlen. unfold expand_tab, INT_MAX in *.
  rewrite wrap_u64_small by lia.
  destruct (expand_tab_loop_ok T src ltac:(lia) EmptyString
              (Z.of_nat (String.length src) + 1) (Z.of_nat (String.length src)) 0)
    as (out & Hout & Htab & Hid & Hl); cbn [String.length]; try lia;
    [nia | reflexivity |].
  exists out. split; [exact Hout |]. split; [exact Htab |].
  split; [exact Hid |]. cbn [String.length] in Hl. lia.
Qed.

(** X25: [expand_tab] writes within the block it has allocated, whatever
    the string, and returns a string without tabs: a string without tabs
    is returned as it is, and every tab has become between 1 and [TABSIZE]
    spaces.  [TABSIZE] is positive and the string shorter than 2^31. *)
Theorem expand_tab_no_tabs :
  forall (TABSIZE : Z) (src : string),
    0 < TABSIZE <= INT_MAX ->
    Z.of_nat (String.length src) <= INT_MAX ->
    exists dst,
      expand_tab TABSIZE src = Ok dst /\
      has_tab dst = false /\
      (has_tab src = false -> dst = src) /\
      Z.of_nat (String.length src) <= Z.of_nat (String.length dst)
      <= TABSIZE * Z.of_nat (String.length src).
Proof.
  exact expand_tab_ok.
Qed.

Lemma expand_tab_no_tabs_witness :
  exists dst,
    expand_tab 8 (String "a" (String char_tab (String "b" EmptyString))) = Ok dst /\
    has_tab dst = false.
Proof.
  destruct (expand_tab_no_tabs 8
              (String "a" (String char_tab (String "b" EmptyString))))
    as (dst & Hdst & Htab & _); [unfold INT_MAX; lia | cbn; unfold INT_MAX; lia |].
  exists dst. split; assumption.
Defined.

(** ** Width of a line *)

Lemma length_set_wchar (wline : list Z) :
  forall i v, List.length (set_wchar wline i v) = List.length wline.
Proof.
  induction wline as [| w wline IH]; intros i v; [reflexivity |].
  destruct i as [| i]; cbn [set_wchar List.length]; [reflexivity |].
  rewrite IH. reflexivity.
Qed.

Lemma nth_error_set_wchar_other (wline : list Z) :
  forall i j v, i <> j -> nth_error (set_wchar wline i v) j = nth_error wline j.
Proof.
  induction wline as [| w wline IH]; intros i j v Hij; [reflexivity |].
  destruct i as [| i], j as [| j]; cbn [set_wchar nth_error];
    try reflexivity; [lia |].
  apply IH. lia.
Qed.

Lemma nth_error_set_wchar_same (wline : list Z) :
  forall i v, (i < List.length wline)%nat ->
              nth_error (set_wchar wline i v) i = Some v.
Proof.
  induction wline as [| w wline IH]; intros i v Hi; [cbn in Hi; lia |].
  destruct i as [| i]; cbn [set_wchar nth_error]; [reflexivity |].
  apply IH. cbn in Hi. lia.
Qed.

Lemma kept_or_dot_refl (wline : list Z) : kept_or_dot wline wline.
Proof.
  split; [reflexivity |]. intros j w Hw. left. exact Hw.
Qed.

Lemma kept_or_dot_set (wline : list Z) (i : nat) :
  kept_or_dot wline (set_wchar wline i wchar_dot).
Proof.
  split; [apply length_set_wchar |]. intros j w Hw.
  destruct (Nat.eq_dec i j) as [-> | Hne].
  - right. apply nth_error_set_wchar_same. apply nth_error_Some.
    rewrite Hw. discriminate.
  - left. rewrite nth_error_set_wchar_other by exact Hne. exact Hw.
Qed.

Lemma kept_or_dot_trans (a b c : list Z) :
  kept_or_dot a b -> kept_or_dot b c -> kept_or_dot a c.
Proof.
  intros [Lab Hab] [Lbc Hbc]. split; [congruence |].
  intros j w Hw. destruct (Hab j w Hw) as [Hb | Hb].
  - apply (Hbc j w Hb).
  - destruct (Hbc j wchar_dot Hb) as [Hc | Hc]; right; exact Hc.
Qed.

Section SpanWline.

Variable TABSIZE : Z.
Variable wcwidth : Z -> Z.
Hypothesis TABSIZE_not_0 : TABSIZE <> 0.

(** From an index at or before a NUL of the array, the loop ends at or
    before this NUL, without a read outside of the array, with a width of
    at most [n]. *)
Lemma span_wline_loop_ends (fuel : nat) :
  forall (wline : list Z) (i n col_tab_align cols : Z) (k : nat),
    0 <= i <= Z.of_nat k -> Z.of_nat k < INT_MAX ->
    nth_error wline k = Some wchar_NUL ->
    (k - Z.to_nat i < fuel)%nat ->
    cols <= n ->
    exists i' cols' wline',
      span_wline_loop TABSIZE wcwidth fuel wline i n col_tab_align cols
      = Some (Ok (i', cols', wline')) /\
      i <= i' <= Z.of_nat k /\ cols' <= n /\
      nth_error wline' k = Some wchar_NUL /\
      kept_or_dot wline wline'.
Proof.
  induction fuel as [| fuel IH];
    intros wline i n cta cols k Hi Hk Hnul Hfuel Hcols; [lia |].
  cbn [span_wline_loop].
  destruct (Z.ltb_spec i 0); [lia |].
  destruct (nth_error wline (Z.to_nat i)) as [w |] eqn:Hw.
  2: { exfalso. apply nth_error_None in Hw.
       assert (k < List.length wline)%nat
         by (apply nth_error_Some; rewrite Hnul; discriminate).
       lia. }
  destruct (Z.eqb_spec w wchar_NUL) as [Hz | Hnz].
  { exists i, cols, wline. split; [reflexivity |].
    repeat split; try lia; try assumption; apply kept_or_dot_refl. }
  assert (Hik : Z.to_nat i <> k).
  { intros Heq. rewrite Heq, Hnul in Hw. injection Hw as <-. contradiction. }
  destruct (Z.eqb_spec TABSIZE 0) as [Ht | _]; [contradiction |].
  rewrite andb_false_r.
  set (width := if w =? wchar_tab then _ else _).
  destruct (Z.eqb_spec width (-1)) as [Hm1 | Hm1].
  - destruct (Z.gtb_spec (wrap_i32 (cols + 1)) n) as [Hbreak | Hgo].
    + exists i, cols, (set_wchar wline (Z.to_nat i) wchar_dot).
      split; [reflexivity |].
      split; [lia |]. split; [exact Hcols |].
      split; [rewrite nth_error_set_wchar_other by exact Hik; exact Hnul |].
      apply kept_or_dot_set.
    + rewrite (wrap_i32_small (i + 1)) by (unfold INT_MAX in Hk; lia).
      destruct (IH (set_wchar wline (Z.to_nat i) wchar_dot) (i + 1) n cta
                  (wrap_i32 (cols + 1)) k)
        as (i' & cols' & wline' & Hres & Hi' & Hc' & Hn' & Hk');
        try lia.
      * rewrite nth_error_set_wchar_other by exact Hik. exact Hnul.
      * exists i', cols', wline'. split; [exact Hres |].
        split; [lia |]. split; [exact Hc' |]. split; [exact Hn' |].
        eapply kept_or_dot_trans; [apply kept_or_dot_set | exact Hk'].
  - destruct (Z.gtb_spec (wrap_i32 (cols + width)) n) as [Hbreak | Hgo].
    + exists i, cols, wline. split; [reflexivity |].
      repeat split; try lia; try assumption; apply kept_or_dot_refl.
    + rewrite (wrap_i32_small (i + 1)) by (unfold INT_MAX in Hk; lia).
      destruct (IH wline (i + 1) n cta (wrap_i32 (cols + width)) k)
        as (i' & cols' & wline' & Hres & Hi' & Hc' & Hn' & Hk');
        try lia; try assumption.
      exists i', cols', wline'. split; [exact Hres |].
      split; [lia |]. split; [exact Hc' |]. split; assumption.
Qed.

End SpanWline.

Lemma span_wline_ends :
  forall (TABSIZE : Z) (wcwidth : Z -> Z) (off : Z) (wline : list Z)
         (n col_tab_align : Z) (k : nat),
    TABSIZE <> 0 -> 0 <= n ->
    0 <= off <= Z.of_nat k -> Z.of_nat k < INT_MAX ->
    nth_error wline k = Some wchar_NUL ->
    exists i cols wline',
      span_wline TABSIZE wcwidth off wline n col_tab_align
      = Some (Ok (i, cols, wline')) /\
      off <= i <= Z.of_nat k /\ cols <= n /\
      nth_error wline' k = Some wchar_NUL /\
      kept_or_dot wline wline'.
Proof.
  intros T wcw off wline n cta k HT Hn Hoff Hk Hnul. unfold span_wline.
  destruct (Z.eqb_spec n 0) as [-> | Hn0].
  - exists off, 0, wline. split; [reflexivity |].
    repeat split; try lia; try assumption; apply kept_or_dot_refl.
  - apply span_wline_loop_ends; try assumption; try lia.
    assert (k < List.length wline)%nat
      by (apply nth_error_Some; rewrite Hnul; discriminate).
    lia.
Qed.

(** X26: from an index at or before the NUL that ends the array,
    [span_wline] returns without a read outside of the array, at an index
    at or before that NUL, with a width of at most [n]; it leaves every
    character as it is or replaces it by a dot. *)
Theorem span_wline_within :
  forall (TABSIZE : Z) (wcwidth : Z -> Z) (off : Z) (wline : list Z)
         (n col_tab_align : Z) (k : nat),
    TABSIZE <> 0 -> 0 <= n ->
    0 <= off <= Z.of_nat k -> Z.of_nat k < INT_MAX ->
    nth_error wline k = Some wchar_NUL ->
    exists i cols wline',
      span_wline TABSIZE wcwidth off wline n col_tab_align
      = Some (Ok (i, cols, wline')) /\
      off <= i <= Z.of_nat k /\ cols <= n /\
      nth_error wline' k = Some wchar_NUL /\
      kept_or_dot wline wline'.
Proof.
  exact span_wline_ends.
Qed.

Lemma span_wline_within_witness :
  exists i cols wline',
    span_wline 8 (fun _ => 1) 0 [97; 9; 98; 0] 9 0 = Some (Ok (i, cols, wline')) /\
    0 <= i <= Z.of_nat 3 /\ cols <= 9 /\
    nth_error wline' 3 = Some wchar_NUL /\
    kept_or_dot [97; 9; 98; 0] wline'.
Proof.
  apply (span_wline_within 8 (fun _ => 1) 0 [97; 9; 98; 0] 9 0 3);
    try reflexivity; try (unfold INT_MAX; cbn; lia); discriminate.
Defined.

(** ** Lines cut to a width *)

(** X27: [format_line] returns, without a read or write outside of the
    string it expands or of the array of wide characters, for every line,
    scroll offset and width limit; when it succeeds, the width it reports
    is at most the width limit.  [TABSIZE] is positive, the line shorter
    than 2^31, and [mbs2ws] gives a NUL-terminated array. *)
Theorem format_line_width :
  forall (TABSIZE : Z) (wcwidth : Z -> Z)
         (mbs2ws : string -> result (list Z * Z))
         (line : string) (nscroll wlimit col_tab_align expand : Z),
    0 < TABSIZE <= INT_MAX ->
    Z.of_nat (String.length line) <= INT_MAX ->
    0 <= nscroll -> 0 <= wlimit ->
    mbs2ws_ok mbs2ws ->
    exists r,
      format_line TABSIZE wcwidth mbs2ws line nscroll wlimit col_tab_align expand
      = Some r /\
      r <> Undefined /\
      forall wline width scrollx,
        r = Ok (wline, width, scrollx) -> width <= wlimit /\ 0 <= scrollx.
Proof.
  intros T wcw mbs2ws line nscroll wlimit cta expand HT Hline Hnscroll Hwlimit Hmbs.
  unfold format_line.
  assert (Hex : exists exstr,
             (if negb (expand =? 0) then expand_tab T line else Ok line)
             = Ok exstr).
  { destruct (negb (expand =? 0)); [| exists line; reflexivity].
    destruct (expand_tab_ok T line HT Hline) as (dst & Hdst & _).
    exists dst. exact Hdst. }
  destruct Hex as [exstr ->].
  destruct (Hmbs exstr) as [Hdef Hok].
  destruct (mbs2ws exstr) as [[wline wlen] | e |]; [| | contradiction].
  2: { exists (Err e). repeat split; discriminate. }
  destruct (Hok wline wlen eq_refl) as (Hwlen & Hlen & Hnul).
  assert (HT0 : T <> 0) by lia.
  destruct (span_wline_ends T wcw 0 wline nscroll cta (Z.to_nat wlen) HT0
              Hnscroll ltac:(lia) ltac:(lia) Hnul)
    as (scrollx & cols & wline1 & -> & Hscrollx & _ & Hnul1 & [Hlen1 _]).
  assert (Hk : (Z.to_nat wlen < List.length wline1)%nat) by lia.
  assert (Hstrip : forall c wl wn,
             List.length wl = List.length wline1 ->
             nth_error wl (Z.to_nat wlen) = Some wchar_NUL ->
             0 <= wn <= wlen ->
             exists wl' wn',
               strip_last c wl wn = Ok (wl', wn') /\
               List.length wl' = List.length wline1 /\
               nth_error wl' (Z.to_nat wlen) = Some wchar_NUL /\
               0 <= wn' <= wlen).
  { intros c wl wn Hl Hn Hwn. unfold strip_last.
    destruct (Z.gtb_spec wn 0) as [Hpos | Hz];
      [| exists wl, wn; repeat split; (assumption || lia)].
    destruct (nth_error wl (Z.to_nat (wn - 1))) as [w |] eqn:Hw.
    2: { apply nth_error_None in Hw. lia. }
    destruct (w =? c); [| exists wl, wn; repeat split; (assumption || lia)].
    exists (set_wchar wl (Z.to_nat (wn - 1)) wchar_NUL), (wrap_u64 (wn - 1)).
    unfold INT_MAX in Hwlen. rewrite wrap_u64_small by lia.
    split; [reflexivity |]. split; [rewrite length_set_wchar; exact Hl |].
    split; [| lia].
    destruct (Nat.eq_dec (Z.to_nat (wn - 1)) (Z.to_nat wlen)) as [Heq | Hne].
    - rewrite Heq. apply nth_error_set_wchar_same. lia.
    - rewrite nth_error_set_wchar_other by exact Hne. exact Hn. }
  destruct (Hstrip wchar_newline wline1 wlen eq_refl Hnul1 ltac:(lia))
    as (wline2 & wlen2 & -> & Hlen2 & Hnul2 & Hwlen2).
  destruct (Hstrip wchar_return wline2 wlen2 Hlen2 Hnul2 Hwlen2)
    as (wline3 & wlen3 & -> & Hlen3 & Hnul3 & Hwlen3).
  destruct (span_wline_ends T wcw scrollx wline3 wlimit cta (Z.to_nat wlen) HT0
              Hwlimit Hscrollx ltac:(lia) Hnul3)
    as (i & width & wline4 & -> & Hi & Hwidth & _ & [Hlen4 _]).
  destruct (Z.ltb_spec i 0); [lia |].
  destruct (Z.leb_spec (Z.of_nat (List.length wline4)) i); [lia |].
  cbn [orb]. eexists. split; [reflexivity |]. split; [discriminate |].
  intros wl w sx Heq. injection Heq as _ <- <-. split; [exact Hwidth | lia].
Qed.

Lemma mbs2ws_ascii_ok : mbs2ws_ok mbs2ws_ascii.
Proof.
  intros s. unfold mbs2ws_ascii.
  assert (Hlen : List.length (list_ascii_of_string s) = String.length s).
  { induction s as [| c s IH]; [reflexivity |]. cbn. rewrite IH. reflexivity. }
  destruct (Nat.ltb_spec (String.length s) 1000) as [Hs | Hs].
  - split; [discriminate |]. intros wline wlen Heq. injection Heq as <- <-.
    unfold INT_MAX. split; [lia |].
    rewrite length_app, length_map, Hlen. cbn [List.length].
    split; [lia |].
    rewrite Nat2Z.id, nth_error_app2 by (rewrite length_map, Hlen; lia).
    rewrite length_map, Hlen, Nat.sub_diag. reflexivity.
  - split; discriminate.
Qed.

Lemma format_line_width_witness :
  exists r,
    format_line 8 (fun _ => 1) mbs2ws_ascii
      (String "a" (String char_tab (String "b" EmptyString))) 0 3 0 1
    = Some r /\
    r <> Undefined /\
    forall wline width scrollx,
      r = Ok (wline, width, scrollx) -> width <= 3 /\ 0 <= scrollx.
Proof.
  apply (format_line_width 8 (fun _ => 1) mbs2ws_ascii
           (String "a" (String char_tab (String "b" EmptyString))) 0 3 0 1);
    try (unfold INT_MAX; cbn; lia).
  exact mbs2ws_ascii_ok.
Defined.

(** ** Scrolling *)

Lemma log_scroll_up_loop_spec (maxscroll : Z) (f : nat) :
  forall (fuel : nat) (nscrolled : Z),
    (S f < fuel)%nat -> 0 <= nscrolled -> nscrolled + Z.of_nat f <= INT_MAX ->
    log_scroll_up_loop fuel (Some f) (Some f) nscrolled maxscroll
    = Some (Some (f - Z.to_nat (maxscroll - nscrolled))%nat).
Proof.
  unfold INT_MAX.
  induction f as [| f IH]; intros fuel nscrolled Hfuel Hn Hmax;
    (destruct fuel as [| fuel]; [lia |]); cbn [log_scroll_up_loop].
  - destruct (Z.ltb_spec nscrolled maxscroll); [| reflexivity].
    cbn [TAILQ_PREV]. destruct fuel as [| fuel]; [lia |]. reflexivity.
  - destruct (Z.ltb_spec nscrolled maxscroll) as [Hlt | Hge].
    + cbn [TAILQ_PREV]. rewrite wrap_i32_small by lia.
      rewrite IH by lia. do 2 f_equal. lia.
    + do 2 f_equal. lia.
Qed.

Lemma ref_scroll_up_loop_spec (maxscroll : Z) (f : nat) :
  forall (fuel : nat) (i : Z),
    (S f < fuel)%nat -> 0 <= i -> i + Z.of_nat f <= INT_MAX ->
    ref_scroll_up_loop fuel (Some f) (TAILQ_PREV f) i maxscroll
    = Some (Some (f - Z.to_nat (maxscroll - i))%nat).
Proof.
  unfold INT_MAX.
  induction f as [| f IH]; intros fuel i Hfuel Hi Hmax;
    (destruct fuel as [| fuel]; [lia |]); cbn [ref_scroll_up_loop TAILQ_PREV].
  - destruct (Z.ltb_spec i maxscroll); reflexivity.
  - destruct (Z.ltb_spec i maxscroll) as [Hlt | Hge].
    + rewrite wrap_i32_small by lia.
      rewrite IH by lia. do 2 f_equal. lia.
    + do 2 f_equal. lia.
Qed.

(** X28: scrolling up in the log view and in the reference view moves the
    first displayed entry [maxscroll] entries towards the head of the list,
    and stops at the head: from position [f] the new position is
    [f - maxscroll], or 0 when there are fewer entries before it; a
    [maxscroll] that is not positive changes nothing. *)
Theorem scroll_up_stops_at_head :
  forall (len f : nat) (maxscroll : Z),
    (f < len)%nat -> Z.of_nat len <= INT_MAX ->
    log_scroll_up len (Some f) maxscroll
    = Some (Some (f - Z.to_nat maxscroll)%nat) /\
    ref_scroll_up len (Some f) maxscroll
    = Some (Ok (Some (f - Z.to_nat maxscroll)%nat)).
Proof.
  intros len f maxscroll Hf Hlen.
  unfold log_scroll_up, ref_scroll_up.
  destruct len as [| len]; [lia |]. cbn [TAILQ_FIRST entry_eqb].
  destruct (Nat.eqb_spec f 0) as [-> | Hf0]; [split; reflexivity |].
  split.
  - rewrite log_scroll_up_loop_spec by lia. rewrite Z.sub_0_r. reflexivity.
  - rewrite ref_scroll_up_loop_spec by lia. rewrite Z.sub_0_r. reflexivity.
Qed.

Lemma scroll_up_stops_at_head_witness :
  log_scroll_up 10 (Some 3%nat) 5 = Some (Some 0%nat) /\
  ref_scroll_up 10 (Some 3%nat) 5 = Some (Ok (Some 0%nat)).
Proof.
  apply (scroll_up_stops_at_head 10 3 5); [lia | unfold INT_MAX; lia].
Defined.

Lemma TAILQ_NEXT_some (len e : nat) :
  (S e < len)%nat -> TAILQ_NEXT len e = Some (S e).
Proof.
  intros H. unfold TAILQ_NEXT. destruct (Nat.ltb_spec (S e) len); [reflexivity | lia].
Qed.

Lemma TAILQ_NEXT_none (len e : nat) :
  (len <= S e)%nat -> TAILQ_NEXT len e = None.
Proof.
  intros H. unfold TAILQ_NEXT. destruct (Nat.ltb_spec (S e) len); [lia | reflexivity].
Qed.

Lemma ref_scroll_down_loop_spec (len : nat) (maxscroll : Z) (fuel : nat) :
  forall (f l : nat) (n : Z),
    (f <= l < len)%nat -> (S (len - l) < fuel)%nat ->
    0 <= n -> n + Z.of_nat (len - l) <= INT_MAX ->
    ref_scroll_down_loop fuel len (Some f) (TAILQ_NEXT len f) (Some l) n maxscroll
    = Some (Some (f + Nat.min (Z.to_nat (maxscroll - n)) (len - 1 - l))%nat).
Proof.
  unfold INT_MAX.
  induction fuel as [| fuel IH]; intros f l n Hfl Hfuel Hn Hmax; [lia |].
  cbn [ref_scroll_down_loop].
  destruct (Nat.lt_ge_cases (S f) len) as [Hnext | Hnonext].
  - rewrite (TAILQ_NEXT_some len f Hnext).
    destruct (Z.ltb_spec n maxscroll) as [Hlt | Hge].
    + destruct (Nat.lt_ge_cases (S l) len) as [Hl | Hl].
      * rewrite (TAILQ_NEXT_some len l Hl).
        rewrite wrap_i32_small by lia.
        rewrite (IH (S f) (S l) (n + 1)) by lia.
        do 2 f_equal. lia.
      * rewrite (TAILQ_NEXT_none len l Hl).
        destruct fuel as [| fuel]; [lia |]. cbn [ref_scroll_down_loop].
        do 2 f_equal. lia.
    + do 2 f_equal. lia.
  - rewrite (TAILQ_NEXT_none len f Hnonext). do 2 f_equal. lia.
Qed.

(** X29: scrolling down in the reference view moves the first displayed
    entry [maxscroll] entries towards the end of the list, and stops when
    the last entry of the list is the last one displayed: with [f] first
    and [l] last on the screen, the new first position is [f] plus the
    smaller of [maxscroll] and the number of entries after [l]. *)
Theorem ref_scroll_down_stops_at_end :
  forall (len f l : nat) (maxscroll : Z),
    (f <= l < len)%nat -> Z.of_nat len <= INT_MAX ->
    ref_scroll_down len (Some f) (Some l) maxscroll
    = Some (Some (f + Nat.min (Z.to_nat maxscroll) (len - 1 - l))%nat).
Proof.
  intros len f l maxscroll Hfl Hlen. unfold ref_scroll_down.
  rewrite ref_scroll_down_loop_spec by (unfold INT_MAX in *; lia).
  rewrite Z.sub_0_r. reflexivity.
Qed.

Lemma ref_scroll_down_stops_at_end_witness :
  ref_scroll_down 10 (Some 2%nat) (Some 7%nat) 5 = Some (Some 4%nat).
Proof.
  apply (ref_scroll_down_stops_at_end 10 2 7 5); [lia | unfold INT_MAX; lia].
Defined.
